(** * LC-3 virtual machine (lc3.c): a shallow embedding and its properties

    The C program keeps its state in globals ([memory], [reg], [running],
    [orig_tio]) and talks to the host through stdin, stdout and the
    terminal.  The embedding bundles the globals and the host into one
    record and threads it through the functions of lc3.c.

    Conventions.
    - A [uint16_t] is a [Z] in [0, 65536).  Wherever C converts an [int]
      expression to [uint16_t] (assignment to a cell or a local, argument
      passing) the conversion is written out as [to_u16].
    - Arrays are total functions on [Z]; every index the program computes is
      a [uint16_t] (memory) or a register number, so only the pointer walks
      of PUTS and PUTSP can leave [memory], and they say so.
    - Functions that can block, abort or leave defined behaviour live in the
      monad [M]; the others are plain state transformers. *)

From Stdlib Require Import ZArith List Lia Bool String Ascii.
Import ListNotations.
Local Open Scope Z_scope.

(** ** Machine words *)

Definition to_u16 (v : Z) : Z := v mod 65536.

(** [char] is signed on the hosts the program targets; [putc] converts its
    argument back to [unsigned char]. *)
Definition to_char (v : Z) : Z :=
  let b := v mod 256 in if b <? 128 then b else b - 256.

Definition to_uchar (v : Z) : Z := v mod 256.

Definition upd (a : Z -> Z) (i v : Z) : Z -> Z :=
  fun j => if j =? i then v else a j.

(** ** Constants of lc3.c *)

Definition MAX_MEMORY : Z := Z.shiftl 1 16.

Definition R_R0 : Z := 0.
Definition R_R1 : Z := 1.
Definition R_R2 : Z := 2.
Definition R_R7 : Z := 7.
Definition R_PC : Z := 8.
Definition R_COND : Z := 9.
Definition R_COUNT : Z := 10.

Definition FL_POS : Z := Z.shiftl 1 0.
Definition FL_ZRO : Z := Z.shiftl 1 1.
Definition FL_NEG : Z := Z.shiftl 1 2.

Definition OP_BR : Z := 0.
Definition OP_ADD : Z := 1.
Definition OP_LD : Z := 2.
Definition OP_ST : Z := 3.
Definition OP_JSR : Z := 4.
Definition OP_AND : Z := 5.
Definition OP_LDR : Z := 6.
Definition OP_STR : Z := 7.
Definition OP_RTI : Z := 8.
Definition OP_NOT : Z := 9.
Definition OP_LDI : Z := 10.
Definition OP_STI : Z := 11.
Definition OP_JMP : Z := 12.
Definition OP_RES : Z := 13.
Definition OP_LEA : Z := 14.
Definition OP_TRAP : Z := 15.

Definition TRAP_GETC : Z := 0x20.
Definition TRAP_OUT : Z := 0x21.
Definition TRAP_PUTS : Z := 0x22.
Definition TRAP_IN : Z := 0x23.
Definition TRAP_PUTSP : Z := 0x24.
Definition TRAP_HALT : Z := 0x25.

Definition MR_KBSR : Z := 0xFE00.
Definition MR_KBDR : Z := 0xFE02.

Definition PC_START : Z := 0x3000.

(** ** State *)

(** The two [c_lflag] bits of [struct termios] the program touches. *)
Record termios := mkTermios { ICANON : bool; ECHO : bool }.

(** Globals of the program, then the host.
    - [stdin]: the values [getchar] will return for what the host has
      delivered and the program has not read yet, oldest first.  A byte is
      its value; the end of the input, which [getchar] reports as [EOF],
      is an entry [-1].
    - [buffered]: how many of the leading entries of [stdin] the C library
      has already moved from the descriptor into the buffer of the stream.
      [getchar] reads through that buffer; [select] looks at the descriptor
      and does not see what the buffer holds.
    - [bufsiz]: the capacity of that buffer, a constant of the host.
    - [in_ops]: how many times the program has asked the host for input
      ([check_key] or [getchar]).
    - [stdout]: the bytes written so far.
    - [tty]: the terminal's current settings. *)
Record machine := mkMachine {
  memory : Z -> Z;
  reg : Z -> Z;
  running : Z;
  orig_tio : termios;
  stdin : list Z;
  buffered : nat;
  bufsiz : nat;
  in_ops : nat;
  stdout : list Z;
  tty : termios
}.

(** [memory[a] = v] and [reg[r] = v]: the cell is a [uint16_t]. *)
Definition store_mem (a v : Z) (m : machine) : machine :=
  mkMachine (upd (memory m) a (to_u16 v)) (reg m) (running m) (orig_tio m)
            (stdin m) (buffered m) (bufsiz m) (in_ops m) (stdout m) (tty m).

Definition store_reg (r v : Z) (m : machine) : machine :=
  mkMachine (memory m) (upd (reg m) r (to_u16 v)) (running m) (orig_tio m)
            (stdin m) (buffered m) (bufsiz m) (in_ops m) (stdout m) (tty m).

Definition set_running (v : Z) (m : machine) : machine :=
  mkMachine (memory m) (reg m) v (orig_tio m)
            (stdin m) (buffered m) (bufsiz m) (in_ops m) (stdout m) (tty m).

Definition set_orig_tio (t : termios) (m : machine) : machine :=
  mkMachine (memory m) (reg m) (running m) t
            (stdin m) (buffered m) (bufsiz m) (in_ops m) (stdout m) (tty m).

Definition set_tty (t : termios) (m : machine) : machine :=
  mkMachine (memory m) (reg m) (running m) (orig_tio m)
            (stdin m) (buffered m) (bufsiz m) (in_ops m) (stdout m) t.

(** The host side of one input request: the queue becomes [q], of which
    the stream's buffer holds the first [b] entries, and the request is
    counted. *)
Definition asked (q : list Z) (b : nat) (m : machine) : machine :=
  mkMachine (memory m) (reg m) (running m) (orig_tio m)
            q b (bufsiz m) (S (in_ops m)) (stdout m) (tty m).

(** Bytes arriving from the host between two instructions. *)
Definition arrive (bs : list Z) (m : machine) : machine :=
  mkMachine (memory m) (reg m) (running m) (orig_tio m)
            (stdin m ++ bs) (buffered m) (bufsiz m) (in_ops m)
            (stdout m) (tty m).

Definition write_bytes (bs : list Z) (m : machine) : machine :=
  mkMachine (memory m) (reg m) (running m) (orig_tio m)
            (stdin m) (buffered m) (bufsiz m) (in_ops m)
            (stdout m ++ bs) (tty m).

(** ** The monad of the effectful functions *)

Inductive result (A : Type) : Type :=
| Ret (a : A) (m : machine)      (* the function returned [a] *)
| Aborted (m : machine)          (* [abort()] *)
| Exited (code : Z) (m : machine)(* [exit(code)], or [main] returned *)
| Blocked (m : machine)          (* [getchar()] waits: nothing is ready *)
| Undefined (m : machine)        (* outside what C defines *)
| Unfinished (m : machine).      (* the loop outlived the host schedule *)

Arguments Ret {A} a m.
Arguments Aborted {A} m.
Arguments Exited {A} code m.
Arguments Blocked {A} m.
Arguments Undefined {A} m.
Arguments Unfinished {A} m.

Definition M (A : Type) : Type := machine -> result A.

Definition ret {A} (a : A) : M A := fun m => Ret a m.

Definition bind {A B} (x : M A) (f : A -> M B) : M B :=
  fun m =>
    match x m with
    | Ret a m' => f a m'
    | Aborted m' => Aborted m'
    | Exited c m' => Exited c m'
    | Blocked m' => Blocked m'
    | Undefined m' => Undefined m'
    | Unfinished m' => Unfinished m'
    end.

Definition gets {A} (f : machine -> A) : M A := fun m => Ret (f m) m.
Definition modify (f : machine -> machine) : M unit := fun m => Ret tt (f m).

Notation "x <- c1 ;; c2" := (bind c1 (fun x => c2))
  (at level 61, c1 at next level, right associativity).
Notation "c1 ;; c2" := (bind c1 (fun _ => c2))
  (at level 61, right associativity).

(** The machine a result carries, whatever the outcome. *)
Definition state_of {A} (r : result A) : machine :=
  match r with
  | Ret _ m | Aborted m | Exited _ m | Blocked m | Undefined m
  | Unfinished m => m
  end.

(** ** Host primitives *)

(** What [select] reports for descriptor 0: it is readable when it holds
    something the stream has not yet taken into its buffer, a byte or the
    end of the input. *)
Definition readable (m : machine) : bool :=
  (buffered m <? List.length (stdin m))%nat.

(** [select] with a zero timeout on descriptor 0, compared with 0. *)
Definition check_key : M Z :=
  fun m =>
    Ret (if readable m then 1 else 0) (asked (stdin m) (buffered m) m).

(** What one [read] on the descriptor moves into an empty buffer: the bytes
    at the front of the queue, up to the first entry that is not a byte and
    at most [cap] of them. *)
Fixpoint fill (cap : nat) (q : list Z) : nat :=
  match cap, q with
  | S cap', c :: q' =>
      if (0 <=? c) && (c <? 256) then S (fill cap' q') else O
  | _, _ => O
  end.

(** [getchar()] on the buffered stream [stdin].  With the buffer empty it
    first fills it from the descriptor with one [read], which waits while
    nothing is there; then it takes the oldest entry. The stream has no
    [setvbuf]: its buffer holds at least one byte. *)
Definition getchar : M Z :=
  fun m =>
    match stdin m with
    | [] => Blocked (asked [] (buffered m) m)
    | c :: q =>
        let held :=
          match buffered m with
          | O => fill (Nat.max 1 (bufsiz m)) (c :: q)
          | S _ => buffered m
          end in
        Ret c (asked q (Nat.pred held) m)
    end.

(** [putc(c, stdout)] and [putchar(c)] write [(unsigned char) c]. *)
Definition putc (c : Z) : M unit := modify (write_bytes [to_uchar c]).

Definition bytes_of_string (s : string) : list Z :=
  map (fun c => Z.of_N (N_of_ascii c)) (list_ascii_of_string s).

Definition printf (s : string) : M unit := modify (write_bytes (bytes_of_string s)).

(** The model has no buffer between [putc] and the host, so flushing
    changes nothing. *)
Definition fflush : M unit := ret tt.

Definition abort {A} : M A := fun m => Aborted m.
Definition exit {A} (code : Z) : M A := fun m => Exited code m.
Definition undefined {A} : M A := fun m => Undefined m.

(** ** Memory interface *)

Definition mem_write (address value : Z) (m : machine) : machine :=
  store_mem address value m.

Definition mem_read (address : Z) : M Z :=
  (if address =? MR_KBSR then
     k <- check_key ;;
     if negb (k =? 0) then
       modify (store_mem MR_KBSR (Z.shiftl 1 15)) ;;
       c <- getchar ;;
       modify (store_mem MR_KBDR c)
     else
       modify (store_mem MR_KBSR 0)
   else ret tt) ;;
  gets (fun m => memory m address).

(** ** Bit utilities *)

(** The condition is written as C parses it: [==] binds tighter than [&],
    so the shifted value is and-ed with the result of [1 == 1].
    [0xFFFF << bit_count] is an [int]; the or-ed value is converted back to
    [uint16_t] on assignment to [x].  For [bit_count = 16] the shifted
    value no longer fits a 32-bit [int]; the 16 bits the assignment keeps
    are zero whichever way it wraps.  The program calls the function with
    5, 6, 9 and 11 only. *)
Definition sign_extend (x bit_count : Z) : Z :=
  if negb (Z.land (Z.shiftr x (bit_count - 1)) (Z.b2z (1 =? 1)) =? 0) then
    to_u16 (Z.lor x (Z.shiftl 0xFFFF bit_count))
  else x.

Definition update_condition_flags (r : Z) (m : machine) : machine :=
  if reg m r =? 0 then store_reg R_COND FL_ZRO m
  else if negb (Z.shiftr (reg m r) 15 =? 0) then store_reg R_COND FL_NEG m
  else store_reg R_COND FL_POS m.

Definition swap16 (x : Z) : Z :=
  to_u16 (Z.lor (Z.shiftl x 8) (Z.shiftr x 8)).

(** ** Instruction handlers *)

Definition op_add (instr : Z) (m : machine) : machine :=
  let dr := Z.land (Z.shiftr instr 9) 0x7 in
  let sr1 := Z.land (Z.shiftr instr 6) 0x7 in
  let imm_flag := Z.land (Z.shiftr instr 5) 0x1 in
  let m :=
    if negb (imm_flag =? 0) then
      let imm5 := sign_extend (Z.land instr 0x1F) 5 in
      store_reg dr (reg m sr1 + imm5) m
    else
      let sr2 := Z.land instr 0x7 in
      store_reg dr (reg m sr1 + reg m sr2) m in
  update_condition_flags dr m.

Definition op_and (instr : Z) (m : machine) : machine :=
  let dr := Z.land (Z.shiftr instr 9) 0x7 in
  let sr1 := Z.land (Z.shiftr instr 6) 0x7 in
  let imm_flag := Z.land (Z.shiftr instr 5) 0x1 in
  let m :=
    if negb (imm_flag =? 0) then
      let imm5 := sign_extend (Z.land instr 0x1F) 5 in
      store_reg dr (Z.land (reg m sr1) imm5) m
    else
      let sr2 := Z.land instr 0x7 in
      store_reg dr (Z.land (reg m sr1) (reg m sr2)) m in
  update_condition_flags dr m.

Definition op_not (instr : Z) (m : machine) : machine :=
  let dr := Z.land (Z.shiftr instr 9) 0x7 in
  let sr := Z.land (Z.shiftr instr 6) 0x7 in
  update_condition_flags dr (store_reg dr (Z.lnot (reg m sr)) m).

Definition op_br (instr : Z) (m : machine) : machine :=
  let cond_flag := Z.land (Z.shiftr instr 9) 0x7 in
  let pc_offset9 := sign_extend (Z.land instr 0x1FF) 9 in
  if negb (Z.land cond_flag (reg m R_COND) =? 0) then
    store_reg R_PC (reg m R_PC + pc_offset9) m
  else m.

Definition op_jmp (instr : Z) (m : machine) : machine :=
  let base := Z.land (Z.shiftr instr 6) 0x7 in
  store_reg R_PC (reg m base) m.

Definition op_jsr (instr : Z) (m : machine) : machine :=
  let m := store_reg R_R7 (reg m R_PC) m in
  if negb (Z.land (Z.shiftr instr 11) 0x1 =? 0) then
    let pc_offset11 := sign_extend (Z.land instr 0x7FF) 11 in
    store_reg R_PC (reg m R_PC + pc_offset11) m
  else
    let base := Z.land (Z.shiftr instr 6) 0x7 in
    store_reg R_PC (reg m base) m.

Definition op_ld (instr : Z) : M unit :=
  let dr := Z.land (Z.shiftr instr 9) 0x7 in
  let pc_offset9 := sign_extend (Z.land instr 0x1FF) 9 in
  pc <- gets (fun m => reg m R_PC) ;;
  v <- mem_read (to_u16 (pc + pc_offset9)) ;;
  modify (store_reg dr v) ;;
  modify (update_condition_flags dr).

Definition op_ldi (instr : Z) : M unit :=
  let dr := Z.land (Z.shiftr instr 9) 0x7 in
  let pc_offset9 := sign_extend (Z.land instr 0x1FF) 9 in
  pc <- gets (fun m => reg m R_PC) ;;
  a <- mem_read (to_u16 (pc + pc_offset9)) ;;
  v <- mem_read a ;;
  modify (store_reg dr v) ;;
  modify (update_condition_flags dr).

Definition op_ldr (instr : Z) : M unit :=
  let dr := Z.land (Z.shiftr instr 9) 0x7 in
  let base := Z.land (Z.shiftr instr 6) 0x7 in
  let offset6 := sign_extend (Z.land instr 0x3F) 6 in
  b <- gets (fun m => reg m base) ;;
  v <- mem_read (to_u16 (b + offset6)) ;;
  modify (store_reg dr v) ;;
  modify (update_condition_flags dr).

Definition op_lea (instr : Z) (m : machine) : machine :=
  let dr := Z.land (Z.shiftr instr 9) 0x7 in
  let pc_offset9 := sign_extend (Z.land instr 0x1FF) 9 in
  update_condition_flags dr (store_reg dr (reg m R_PC + pc_offset9) m).

Definition op_st (instr : Z) (m : machine) : machine :=
  let sr := Z.land (Z.shiftr instr 9) 0x7 in
  let pc_offset9 := sign_extend (Z.land instr 0x1FF) 9 in
  mem_write (to_u16 (reg m R_PC + pc_offset9)) (reg m sr) m.

Definition op_sti (instr : Z) : M unit :=
  let sr := Z.land (Z.shiftr instr 9) 0x7 in
  let pc_offset9 := sign_extend (Z.land instr 0x1FF) 9 in
  pc <- gets (fun m => reg m R_PC) ;;
  a <- mem_read (to_u16 (pc + pc_offset9)) ;;
  modify (fun m => mem_write a (reg m sr) m).

Definition op_str (instr : Z) (m : machine) : machine :=
  let sr := Z.land (Z.shiftr instr 9) 0x7 in
  let base := Z.land (Z.shiftr instr 6) 0x7 in
  let offset6 := sign_extend (Z.land instr 0x3F) 6 in
  mem_write (to_u16 (reg m base + offset6)) (reg m sr) m.

(** ** Trap routines *)

Definition trap_getc : M unit :=
  c <- getchar ;;
  let c := to_u16 c in
  modify (store_reg R_R0 c).

Definition trap_out : M unit :=
  r0 <- gets (fun m => reg m R_R0) ;;
  putc r0 ;;
  fflush.

(** [c] walks [memory] as a cell index; [cells] is the number of cells left
    in the array from [c] on.  With none left, [*c] reads past
    [memory[MAX_MEMORY - 1]]. *)
Fixpoint puts_loop (cells : nat) (c : Z) : M unit :=
  match cells with
  | O => undefined
  | S cells' =>
      w <- gets (fun m => memory m c) ;;
      if negb (w =? 0) then
        putc (to_char w) ;;
        puts_loop cells' (c + 1)
      else ret tt
  end.

Definition trap_puts : M unit :=
  r0 <- gets (fun m => reg m R_R0) ;;
  puts_loop (Z.to_nat (MAX_MEMORY - r0)) r0 ;;
  fflush.

Definition trap_in : M unit :=
  printf "Enter a character: " ;;
  c <- getchar ;;
  let c := to_u16 c in
  putc c ;;
  fflush ;;
  modify (store_reg R_R0 c).

Fixpoint putsp_loop (cells : nat) (c : Z) : M unit :=
  match cells with
  | O => undefined
  | S cells' =>
      w <- gets (fun m => memory m c) ;;
      if negb (w =? 0) then
        let fc := to_char (Z.land w 0xFF) in
        let sc := to_char (Z.shiftr w 8) in
        putc fc ;;
        (if negb (sc =? 0) then putc sc else ret tt) ;;
        putsp_loop cells' (c + 1)
      else ret tt
  end.

Definition trap_putsp : M unit :=
  r0 <- gets (fun m => reg m R_R0) ;;
  putsp_loop (Z.to_nat (MAX_MEMORY - r0)) r0 ;;
  fflush.

Definition newline : list Z := [10].

(** [puts] writes the string and a newline. *)
Definition trap_halt : M unit :=
  modify (write_bytes (bytes_of_string "HALT" ++ newline)) ;;
  fflush ;;
  modify (set_running 0).

Definition op_trap (instr : Z) : M unit :=
  modify (fun m => store_reg R_R7 (reg m R_PC) m) ;;
  let trapvect8 := Z.land instr 0xFF in
  if trapvect8 =? TRAP_GETC then trap_getc
  else if trapvect8 =? TRAP_OUT then trap_out
  else if trapvect8 =? TRAP_PUTS then trap_puts
  else if trapvect8 =? TRAP_IN then trap_in
  else if trapvect8 =? TRAP_PUTSP then trap_putsp
  else if trapvect8 =? TRAP_HALT then trap_halt
  else ret tt.

(** ** The dispatch loop *)

(** The [switch (opcode)] of the loop body. *)
Definition dispatch (instruction : Z) : M unit :=
  let opcode := Z.shiftr instruction 12 in
  if opcode =? OP_ADD then modify (op_add instruction)
  else if opcode =? OP_AND then modify (op_and instruction)
  else if opcode =? OP_NOT then modify (op_not instruction)
  else if opcode =? OP_BR then modify (op_br instruction)
  else if opcode =? OP_JMP then modify (op_jmp instruction)
  else if opcode =? OP_JSR then modify (op_jsr instruction)
  else if opcode =? OP_LD then op_ld instruction
  else if opcode =? OP_LDI then op_ldi instruction
  else if opcode =? OP_LDR then op_ldr instruction
  else if opcode =? OP_LEA then modify (op_lea instruction)
  else if opcode =? OP_ST then modify (op_st instruction)
  else if opcode =? OP_STI then op_sti instruction
  else if opcode =? OP_STR then modify (op_str instruction)
  else if opcode =? OP_TRAP then op_trap instruction
  else abort.

(** One iteration of the [while (running)] body in [main]: fetch,
    increment PC, dispatch. *)
Definition step : M unit :=
  pc <- gets (fun m => reg m R_PC) ;;
  instruction <- mem_read pc ;;
  modify (fun m => store_reg R_PC (reg m R_PC + 1) m) ;;
  dispatch instruction.

(** The loop, driven by a host schedule: before each iteration the host
    delivers the next batch of input bytes (often none).  The schedule also
    bounds the number of iterations that are followed. *)
Fixpoint run (feed : list (list Z)) : M unit :=
  fun m =>
    if negb (running m =? 0) then
      match feed with
      | [] => Unfinished m
      | bs :: feed' => (modify (arrive bs) ;; step ;; run feed') m
      end
    else Ret tt m.

(** ** Image loader *)

(** A file is the list of its bytes from the current position on.
    [fread] of 2-byte items on the little-endian host the byte swap
    presupposes: each complete pair [b0 b1] is the item [b0 + 256 * b1].
    [fread16] gives the complete items, whose number [fread] returns. *)
Fixpoint fread16 (count : nat) (file : list Z) : list Z :=
  match count, file with
  | S count', b0 :: b1 :: file' => (b0 + 256 * b1) :: fread16 count' file'
  | _, _ => []
  end.

(** [fread] copies bytes until the file ends or [count] items are full.  A
    file that ends in the middle of an item leaves its odd last byte in the
    first byte of the next item, which is not counted. *)
Fixpoint fread16_odd (count : nat) (file : list Z) : option Z :=
  match count, file with
  | S count', b0 :: b1 :: file' => fread16_odd count' file'
  | S _, [b0] => Some b0
  | _, _ => None
  end.

Fixpoint store_items (p : Z) (items : list Z) (m : machine) : machine :=
  match items with
  | [] => m
  | w :: items' => store_items (p + 1) items' (store_mem p w m)
  end.

(** The odd last byte lands in the low byte of the cell at [p]; the high
    byte of the cell stays. *)
Definition store_odd (p : Z) (odd : option Z) (m : machine) : machine :=
  match odd with
  | None => m
  | Some b => store_mem p (Z.lor (Z.land (memory m p) 0xFF00) b) m
  end.

(** The [while (read > 0)] loop. *)
Fixpoint swap_loop (read : nat) (p : Z) (m : machine) : machine :=
  match read with
  | O => m
  | S read' => swap_loop read' (p + 1) (store_mem p (swap16 (memory m p)) m)
  end.

(** With fewer than two bytes in the file the first [fread] does not fill
    the local [origin], and the file is at its end: whatever [origin] then
    holds, the second [fread] finds no byte to store and returns 0, so the
    function returns with the memory as it was. *)
Definition read_image_file (file : list Z) : M unit :=
  match fread16 1 file with
  | [] => ret tt
  | origin :: _ =>
      let origin := swap16 origin in
      let max_read := to_u16 (MAX_MEMORY - origin) in
      let p := origin in
      let items := fread16 (Z.to_nat max_read) (skipn 2 file) in
      let odd := fread16_odd (Z.to_nat max_read) (skipn 2 file) in
      let read := List.length items in
      modify (store_items p items) ;;
      modify (store_odd (p + Z.of_nat read) odd) ;;
      modify (swap_loop read p)
  end.

(** [fopen] gives [None] when the path cannot be opened. *)
Definition read_image (file : option (list Z)) : M Z :=
  match file with
  | None => ret 0
  | Some f => read_image_file f ;; ret 1
  end.

(** ** Host terminal *)

(** [new_tio] is [orig_tio] with the ICANON and ECHO bits cleared. *)
Definition disable_input_buffering : M unit :=
  modify (fun m => set_orig_tio (tty m) m) ;;
  new_tio <- gets (fun m => mkTermios (ICANON (orig_tio m) && false)
                                      (ECHO (orig_tio m) && false)) ;;
  modify (set_tty new_tio).

Definition restore_input_buffering : M unit :=
  modify (fun m => set_tty (orig_tio m) m).

(** The SIGINT handler; it prints a newline. *)
Definition handle_interrupt : M unit :=
  restore_input_buffering ;;
  modify (write_bytes [10]) ;;
  exit (-2).

(** ** Program entry *)

(** The buffer the C library gives [stdin] when the program sets none. *)
Definition BUFSIZ : nat := 4096.

(** The state the C runtime hands to [main]: zeroed globals except
    [running = 1], and the host as found, with nothing read from the
    descriptor yet. *)
Definition boot (input : list Z) (t : termios) : machine :=
  mkMachine (fun _ => 0) (fun _ => 0) 1 (mkTermios false false)
            input 0 BUFSIZ 0 [] t.

Fixpoint load_images (images : list (string * option (list Z))) : M unit :=
  match images with
  | [] => ret tt
  | (path, file) :: images' =>
      ok <- read_image file ;;
      (if ok =? 0 then
         modify (write_bytes (bytes_of_string "failed to load image: "
                              ++ bytes_of_string path ++ newline)) ;;
         exit 1
       else ret tt) ;;
      load_images images'
  end.

(** [images] are [argv[1..]], each with what [fopen] finds at the path.
    The SIGINT handler is installed but the model delivers no signal. *)
Definition main (images : list (string * option (list Z)))
                (feed : list (list Z)) : M unit :=
  let argc := 1 + Z.of_nat (List.length images) in
  (if argc <? 2 then
     modify (write_bytes (bytes_of_string "lc3 [image-file-1] ..." ++ newline)) ;;
     exit 2
   else ret tt) ;;
  load_images images ;;
  disable_input_buffering ;;
  modify (store_reg R_COND FL_ZRO) ;;
  modify (store_reg R_PC PC_START) ;;
  run feed ;;
  restore_input_buffering ;;
  exit 0.

(** ** Concrete programs used below *)

(** The bytes of an image file: big-endian words, origin first. *)
Definition image_of_words (ws : list Z) : list Z :=
  flat_map (fun w => [Z.shiftr w 8; Z.land w 0xFF]) ws.

(** A terminal in its usual line-buffered, echoing mode. *)
Definition cooked : termios := mkTermios true true.

(** [LEA R7, #5] then [JSRR R7], at 0x3000. *)
Definition jsrr_r7_image : list Z := image_of_words [0x3000; 0xEE05; 0x41C0].

(** One word, 0x1234, to be loaded at origin 0. *)
Definition origin0_image : list Z := image_of_words [0x0000; 0x1234].

(** A single HALT at 0x3000. *)
Definition halt_image : list Z := image_of_words [0x3000; 0xF025].

(** A single RTI, and a single reserved opcode, at 0x3000. *)
Definition rti_image : list Z := image_of_words [0x3000; 0x8000].
Definition res_image : list Z := image_of_words [0x3000; 0xD000].

(** The state in which the loop meets [instr] at 0x3000 right after
    start-up, with [input] pending. *)
Definition at_start (instr : Z) (input : list Z) : machine :=
  store_mem PC_START instr
    (store_reg R_PC PC_START
       (store_reg R_COND FL_ZRO (boot input (mkTermios false false)))).

(** What the specification asks of [y] as the sign extension of the
    [n]-bit field of [x]. *)
Definition sign_extension_of (x n y : Z) : Prop :=
  0 <= y < 65536 /\
  y mod 2 ^ n = x mod 2 ^ n /\
  forall i, n <= i < 16 -> Z.testbit y i = Z.testbit x (n - 1).

(** The flag the specification attaches to a 16-bit value. *)
Definition flag_of (v : Z) : Z :=
  if Z.testbit v 15 then FL_NEG else if v =? 0 then FL_ZRO else FL_POS.

(** The opcodes whose handler ends in [update_condition_flags]. *)
Definition sets_flags (opcode : Z) : bool :=
  (opcode =? OP_ADD) || (opcode =? OP_AND) || (opcode =? OP_NOT) ||
  (opcode =? OP_LD) || (opcode =? OP_LDI) || (opcode =? OP_LDR) ||
  (opcode =? OP_LEA).

(** The type invariant of the two arrays: every cell is a [uint16_t]. *)
Definition well_formed (m : machine) : Prop :=
  (forall a, 0 <= memory m a < 65536) /\ (forall r, 0 <= reg m r < 65536).

(** The addresses [c], [c + 1], ..., [c + n - 1]. *)
Fixpoint addrs (c : Z) (n : nat) : list Z :=
  match n with
  | O => []
  | S n' => c :: addrs (c + 1) n'
  end.

(** What the specification has PUTSP emit for one non-zero word: the low
    byte, then the high byte unless it is zero. *)
Definition putsp_bytes (w : Z) : list Z :=
  if w / 256 =? 0 then [w mod 256] else [w mod 256; w / 256].

(** R0 points at the packed string "Hi!" stored at 0x4000: the words
    0x6948, 0x0021 and the terminating zero word. *)
Definition packed_hi : machine :=
  store_reg R_R0 0x4000
    (store_mem 0x4001 0x0021 (store_mem 0x4000 0x6948 (boot [] cooked))).

(** ** Comparing runs on different hosts *)

(** The program state of [m] with the host input side of [h]. *)
Definition rehost (h m : machine) : machine :=
  mkMachine (memory m) (reg m) (running m) (orig_tio m)
            (stdin h) (buffered h) (bufsiz h) (in_ops h) (stdout m) (tty m).

Definition map_state {A} (f : machine -> machine) (r : result A) : result A :=
  match r with
  | Ret a m => Ret a (f m)
  | Aborted m => Aborted (f m)
  | Exited c m => Exited c (f m)
  | Blocked m => Blocked (f m)
  | Undefined m => Undefined (f m)
  | Unfinished m => Unfinished (f m)
  end.

(** Two states with the same memory, registers (PC and COND among them),
    running flag, output and terminal; the pending input may differ. *)
Definition same_machine (m1 m2 : machine) : Prop :=
  memory m1 = memory m2 /\ reg m1 = reg m2 /\ running m1 = running m2 /\
  orig_tio m1 = orig_tio m2 /\ stdout m1 = stdout m2 /\ tty m1 = tty m2.

(** Two results with the same outcome in the same machine state. *)
Definition same_result {A} (r1 r2 : result A) : Prop :=
  match r1, r2 with
  | Ret a m1, Ret b m2 => a = b /\ same_machine m1 m2
  | Aborted m1, Aborted m2 => same_machine m1 m2
  | Exited c m1, Exited d m2 => c = d /\ same_machine m1 m2
  | Blocked m1, Blocked m2 => same_machine m1 m2
  | Undefined m1, Undefined m2 => same_machine m1 m2
  | Unfinished m1, Unfinished m2 => same_machine m1 m2
  | _, _ => False
  end.

(** A computation is [quiet] when, on any run of it that asks the host for
    no input, replacing the host's input side changes nothing else.  The
    count of requests never decreases. *)
Definition quiet {A} (x : M A) : Prop :=
  forall m,
    (in_ops m <= in_ops (state_of (x m)))%nat /\
    (in_ops (state_of (x m)) = in_ops m ->
     forall h, x (rehost h m) = map_state (rehost h) (x m)).

(** A state transformer that neither reads nor writes the input side. *)
Definition hostless (f : machine -> machine) : Prop :=
  forall m h, f (rehost h m) = rehost h (f m).

(** [ADD R0, R0, #5], [ADD R0, R0, #-1], HALT at 0x3000, with the given
    input pending. *)
Definition add_program (input : list Z) : machine :=
  store_mem 0x3002 0xF025
    (store_mem 0x3001 0x103F (at_start 0x1025 input)).

(** ** Reference notions for the remaining properties *)

(** The words of a byte sequence read big-endian, two bytes at a time; an
    odd byte at the end belongs to no word. *)
Fixpoint be_words (bytes : list Z) : list Z :=
  match bytes with
  | b0 :: b1 :: bytes' => (256 * b0 + b1) :: be_words bytes'
  | _ => []
  end.

Definition is_byte (b : Z) : Prop := 0 <= b < 256.

(** The value of an [n]-bit field read as a two's-complement number. *)
Definition signed_field (x n : Z) : Z :=
  if x <? 2 ^ (n - 1) then x else x - 2 ^ n.

(** What the specification has PUTS emit for one word: its low 8 bits. *)
Definition puts_byte (w : Z) : Z := w mod 256.

(** The prompt of the IN trap. *)
Definition in_prompt : list Z := bytes_of_string "Enter a character: ".

(** R0 points at the last cell of memory, which holds 'A': a string with
    no room for its terminator. *)
Definition unterminated : machine :=
  store_reg R_R0 0xFFFF (store_mem 0xFFFF 0x41 (boot [] cooked)).

(** R0 points at the string "Hi" stored one character per word at 0x4000. *)
Definition plain_hi : machine :=
  store_reg R_R0 0x4000
    (store_mem 0x4001 0x0069 (store_mem 0x4000 0x0048 (boot [] cooked))).

(** ** Invariants of computations *)

(** How a computation ended. *)
Inductive kind : Type :=
| KRet | KAborted | KExited | KBlocked | KUndefined | KUnfinished.

Definition kind_of {A} (r : result A) : kind :=
  match r with
  | Ret _ _ => KRet
  | Aborted _ => KAborted
  | Exited _ _ => KExited
  | Blocked _ => KBlocked
  | Undefined _ => KUndefined
  | Unfinished _ => KUnfinished
  end.

(** The computation never ends in the given way. *)
Definition never {A} (k : kind) (x : M A) : Prop :=
  forall m, kind_of (x m) <> k.

(** What every part of the interpreter proper respects: cells stay 16-bit,
    the terminal settings and their saved copy are not touched, and output
    is only ever appended. *)
Definition respects (m m' : machine) : Prop :=
  (well_formed m -> well_formed m') /\
  tty m' = tty m /\ orig_tio m' = orig_tio m /\
  exists bs, stdout m' = stdout m ++ bs.

Definition steady (f : machine -> machine) : Prop :=
  forall m, respects m (f m).

Definition preserves {A} (x : M A) : Prop :=
  forall m, respects m (state_of (x m)).

(** A raw terminal: ICANON and ECHO off. *)
Definition raw : termios := mkTermios false false.

(** The status with which the process exited, if it did. *)
Definition exit_code {A} (r : result A) : option Z :=
  match r with
  | Exited c _ => Some c
  | _ => None
  end.

(** Between [m] and [m'] at most [n] values were taken from the front of
    the input queue, and nothing else happened to it. *)
Definition takes_at_most (n : nat) (m m' : machine) : Prop :=
  exists used, stdin m = used ++ stdin m' /\ (List.length used <= n)%nat.

(** A computation that leaves the input queue alone. *)
Definition silent {A} (x : M A) : Prop :=
  forall m, stdin (state_of (x m)) = stdin m.

(** [LDI R0, p], [LDI R1, p], HALT and the pointer [p: 0xFE00], at
    0x3000: two polls of the keyboard status register. *)
Definition poll_twice_image : list Z :=
  image_of_words [0x3000; 0xA002; 0xA201; 0xF025; 0xFE00].

(** The odd byte at the end of a byte sequence, if its length is odd. *)
Fixpoint odd_byte (bytes : list Z) : option Z :=
  match bytes with
  | _ :: _ :: bytes' => odd_byte bytes'
  | [b] => Some b
  | [] => None
  end.

(** The words of an image that fit between its origin and the top of
    memory, and the address after the last of them. *)
Definition image_words (origin : Z) (rest : list Z) : list Z :=
  firstn (Z.to_nat (65536 - origin)) (be_words rest).

Definition image_end (origin : Z) (rest : list Z) : Z :=
  origin + Z.of_nat (List.length (image_words origin rest)).

(** A memory with words left at 0x2FFF, 0x3001 and 0x3002. *)
Definition stale_cells : machine :=
  store_mem 0x2FFF 0x4321
    (store_mem 0x3002 0x5678 (store_mem 0x3001 0xABCD (boot [] cooked))).

(** The state after a GETC at start-up has read the first of the values
    [input], delivered together: the rest is in the buffer of the stream. *)
Definition after_getc (input : list Z) : machine :=
  state_of (op_trap 0xF020 (at_start 0xF020 input)).

(** [m] with PC = 0x3001 and a pointer to KBSR in the cell at 0x3002, where
    [LDI R0, #1] looks for it. *)
Definition poll_state (m : machine) : machine :=
  store_mem 0x3002 MR_KBSR (store_reg R_PC 0x3001 m).

(** Registers in use: R0 = 0x8234, R1 = 0x4000, R2 = 0x0007, COND = POS. *)
Definition busy_registers : machine :=
  store_reg R_COND FL_POS
    (store_reg R_R2 0x0007
       (store_reg R_R1 0x4000
          (store_reg R_R0 0x8234 (boot [] cooked)))).

(** * Properties *)

(** ** Words and bits *)

Lemma to_u16_range (v : Z) : 0 <= to_u16 v < 65536.
Proof. unfold to_u16. apply Z.mod_pos_bound. lia. Qed.

Lemma to_u16_small (v : Z) : 0 <= v < 65536 -> to_u16 v = v.
Proof. intros H. unfold to_u16. apply Z.mod_small. exact H. Qed.

Lemma to_u16_bits (v i : Z) :
  Z.testbit (to_u16 v) i = ((i <? 16) && Z.testbit v i)%bool.
Proof.
  unfold to_u16. change 65536 with (2 ^ 16).
  apply Z.testbit_mod_pow2. lia.
Qed.

Lemma u16_high_bits (v i : Z) :
  0 <= v < 65536 -> 16 <= i -> Z.testbit v i = false.
Proof.
  intros Hv Hi. rewrite <- (to_u16_small v Hv), to_u16_bits.
  replace (i <? 16) with false by (symmetry; apply Z.ltb_ge; lia).
  reflexivity.
Qed.

Lemma small_high_bits (v n i : Z) :
  0 <= n -> 0 <= v < 2 ^ n -> n <= i -> Z.testbit v i = false.
Proof.
  intros Hn Hv Hi. rewrite <- (Z.mod_small v (2 ^ n) Hv).
  apply Z.mod_pow2_bits_high. lia.
Qed.

(** The condition of [sign_extend], as C parses it, tests bit
    [bit_count - 1] after all. *)
Lemma sign_test (x k : Z) :
  0 <= k ->
  negb (Z.land (Z.shiftr x k) (Z.b2z (1 =? 1)) =? 0) = Z.testbit x k.
Proof.
  intros Hk. change (Z.b2z (1 =? 1)) with (Z.ones 1).
  rewrite Z.land_ones by lia. change (2 ^ 1) with 2.
  rewrite <- Z.bit0_mod, Z.shiftr_spec by lia. simpl (0 + k).
  destruct (Z.testbit x k); reflexivity.
Qed.

Lemma sign_extend_eq (x n : Z) :
  0 < n ->
  sign_extend x n =
  if Z.testbit x (n - 1) then to_u16 (Z.lor x (Z.shiftl 0xFFFF n)) else x.
Proof.
  intros Hn. unfold sign_extend. rewrite sign_test by lia. reflexivity.
Qed.

Lemma ones16_bits (i : Z) :
  0 <= i -> Z.testbit 0xFFFF i = (i <? 16).
Proof.
  intros Hi. change 0xFFFF with (Z.ones 16).
  destruct (Z.ltb_spec i 16).
  - apply Z.ones_spec_low. lia.
  - apply Z.ones_spec_high. lia.
Qed.

Lemma sign_extension_unique (x n y1 y2 : Z) :
  0 <= n ->
  sign_extension_of x n y1 -> sign_extension_of x n y2 -> y1 = y2.
Proof.
  intros Hn (R1 & L1 & H1) (R2 & L2 & H2).
  apply Z.bits_inj'. intros i Hi.
  destruct (Z.lt_ge_cases i n) as [Hlow | Hhigh].
  - rewrite <- (Z.mod_pow2_bits_low y1 n i Hlow).
    rewrite <- (Z.mod_pow2_bits_low y2 n i Hlow).
    rewrite L1, L2. reflexivity.
  - destruct (Z.lt_ge_cases i 16) as [Hin | Hout].
    + rewrite H1, H2 by lia. reflexivity.
    + rewrite !u16_high_bits by lia. reflexivity.
Qed.

Lemma sign_extend_meets_spec (x n : Z) :
  0 <= x < 65536 -> 0 < n <= 16 ->
  Z.testbit x (n - 1) = true \/ x < 2 ^ n ->
  sign_extension_of x n (sign_extend x n).
Proof.
  intros Hx Hn Hcase. rewrite sign_extend_eq by lia.
  destruct (Z.testbit x (n - 1)) eqn:Hbit.
  - split; [apply to_u16_range|]. split.
    + apply Z.bits_inj'. intros i Hi.
      rewrite !Z.testbit_mod_pow2 by lia.
      destruct (Z.ltb_spec i n) as [Hlow | Hhigh]; [|reflexivity].
      simpl. rewrite to_u16_bits, Z.lor_spec, Z.shiftl_spec_low by lia.
      replace (i <? 16) with true by (symmetry; apply Z.ltb_lt; lia).
      rewrite orb_false_r. reflexivity.
    + intros i Hi.
      rewrite to_u16_bits, Z.lor_spec, Z.shiftl_spec by lia.
      rewrite ones16_bits by lia.
      replace (i <? 16) with true by (symmetry; apply Z.ltb_lt; lia).
      replace (i - n <? 16) with true by (symmetry; apply Z.ltb_lt; lia).
      rewrite orb_true_r, Hbit. reflexivity.
  - destruct Hcase as [Habs | Hsmall]; [discriminate|].
    split; [exact Hx|]. split; [reflexivity|].
    intros i Hi. rewrite Hbit. apply (small_high_bits x n); lia.
Qed.

(** C2, as stated, fails: with bit 4 clear, [sign_extend 0x20 5] returns
    [0x20] unchanged, whose bit 5 is set although the sign bit of the
    5-bit field is 0. *)
Lemma sign_extend_keeps_high_bits :
  sign_extend 0x20 5 = 0x20 /\ ~ sign_extension_of 0x20 5 (sign_extend 0x20 5).
Proof.
  split; [reflexivity|].
  intros (_ & _ & H). specialize (H 5 ltac:(lia)).
  vm_compute in H. discriminate H.
Qed.

(** C2 (amended): for every 16-bit [x] and width [0 < n <= 16] such that
    bit [n-1] of [x] is 1 or [x] has no bit set above the field (as at every
    call site, which masks first), [sign_extend x n] is the unique 16-bit
    [y] congruent to [x] modulo [2^n] whose bits [n..15] all equal bit
    [n-1] of [x]. *)
Theorem sign_extend_unique_extension (x n : Z) :
  0 <= x < 65536 -> 0 < n <= 16 ->
  Z.testbit x (n - 1) = true \/ x < 2 ^ n ->
  sign_extension_of x n (sign_extend x n) /\
  forall y, sign_extension_of x n y -> y = sign_extend x n.
Proof.
  intros Hx Hn Hcase.
  pose proof (sign_extend_meets_spec x n Hx Hn Hcase) as Hs.
  split; [exact Hs|].
  intros y Hy. apply (sign_extension_unique x n); [lia | exact Hy | exact Hs].
Qed.

Lemma sign_extend_unique_extension_witness :
  sign_extension_of 0x1F 5 (sign_extend 0x1F 5) /\
  forall y, sign_extension_of 0x1F 5 y -> y = sign_extend 0x1F 5.
Proof.
  apply (sign_extend_unique_extension 0x1F 5).
  - lia.
  - lia.
  - left. reflexivity.
Defined.

(** ** Memory interface *)

Lemma upd_same (f : Z -> Z) (i v : Z) : upd f i v i = v.
Proof. unfold upd. rewrite Z.eqb_refl. reflexivity. Qed.

Lemma upd_other (f : Z -> Z) (i v j : Z) : j <> i -> upd f i v j = f j.
Proof.
  intros H. unfold upd. destruct (Z.eqb_spec j i); [contradiction|reflexivity].
Qed.

Lemma mem_read_plain (a : Z) (m : machine) :
  a <> MR_KBSR -> mem_read a m = Ret (memory m a) m.
Proof.
  intros H. unfold mem_read, bind.
  destruct (Z.eqb_spec a MR_KBSR) as [E | _]; [contradiction|].
  reflexivity.
Qed.

(** The descriptor has something to read: the poll finds it, and
    [getchar] hands over the oldest entry the program has not read. *)
Lemma mem_read_kbsr_ready (m : machine) (c : Z) (q : list Z) :
  stdin m = c :: q -> readable m = true ->
  mem_read MR_KBSR m =
  Ret 0x8000
      (mkMachine (upd (upd (memory m) MR_KBSR 0x8000) MR_KBDR (to_u16 c))
                 (reg m) (running m) (orig_tio m)
                 q
                 (Nat.pred match buffered m with
                           | O => fill (Nat.max 1 (bufsiz m)) (c :: q)
                           | S _ => buffered m
                           end)
                 (bufsiz m) (S (S (in_ops m))) (stdout m) (tty m)).
Proof.
  intros H Hr.
  unfold mem_read, bind, check_key, getchar, modify, gets.
  rewrite Z.eqb_refl. cbv beta iota. rewrite Hr. cbv beta iota.
  cbn [negb Z.eqb asked stdin buffered bufsiz store_mem memory in_ops reg
       running orig_tio stdout tty].
  rewrite H. reflexivity.
Qed.

(** The descriptor has nothing to read, whatever the buffer holds. *)
Lemma mem_read_kbsr_idle (m : machine) :
  readable m = false ->
  mem_read MR_KBSR m =
  Ret 0
      (mkMachine (upd (memory m) MR_KBSR 0)
                 (reg m) (running m) (orig_tio m)
                 (stdin m) (buffered m) (bufsiz m) (S (in_ops m))
                 (stdout m) (tty m)).
Proof.
  intros Hr.
  unfold mem_read, bind, check_key, getchar, modify, gets.
  rewrite Z.eqb_refl. cbv beta iota. rewrite Hr. reflexivity.
Qed.

(** A descriptor with something to read belongs to a queue that is not
    empty. *)
Lemma readable_cons (m : machine) :
  readable m = true -> exists c q, stdin m = c :: q.
Proof.
  unfold readable. intros H. apply Nat.ltb_lt in H. revert H.
  destruct (stdin m) as [| c q]; cbn [List.length]; [lia|].
  intros _. exists c, q. reflexivity.
Qed.

(** C3 fails.  The image polls KBSR twice (two LDI through a pointer to
    0xFE00) and halts.  The bytes 'A' and 'B' reach the descriptor
    together before the first poll.  The first poll gives 0x8000 with 'A'
    in KBDR, as claimed; its [getchar] has moved both bytes into the
    buffer of the stream, so the second poll, which asks [select] about
    the descriptor, gives 0 and leaves 'A' in KBDR although 'B' is pending:
    it is still unread when the machine halts.  And with the input at its
    end no byte is pending, yet a poll gives 0x8000 and puts 0xFFFF in
    KBDR. *)
Theorem kbsr_poll_misses_buffered_byte :
  let final :=
    state_of (main [("poll.obj"%string, Some poll_twice_image)]
                   [[65; 66]; []; []] (boot [] cooked)) in
  let ended := boot [-1] raw in
  reg final R_R0 = 0x8000 /\ reg final R_R1 = 0 /\
  memory final MR_KBSR = 0 /\ memory final MR_KBDR = 65 /\
  stdin final = [66] /\ running final = 0 /\
  (exists m', mem_read MR_KBSR ended = Ret 0x8000 m' /\
              memory m' MR_KBDR = 0xFFFF /\ stdin m' = []).
Proof.
  vm_compute. repeat split.
  eexists. repeat split.
Qed.

(** C10: reading any address other than KBSR returns the cell and leaves
    the whole state as it was, host included: nothing is polled or
    consumed, also at KBDR.  So a write followed by a read of the same
    address gives back the 16-bit value written. *)
Theorem mem_read_plain_is_pure (m : machine) (a : Z) :
  a <> MR_KBSR ->
  mem_read a m = Ret (memory m a) m /\
  forall v, 0 <= v < 65536 ->
    mem_read a (mem_write a v m) = Ret v (mem_write a v m).
Proof.
  intros Ha. split.
  - apply mem_read_plain. exact Ha.
  - intros v Hv. rewrite mem_read_plain by exact Ha.
    unfold mem_write, store_mem. cbn [memory].
    rewrite upd_same, to_u16_small by exact Hv. reflexivity.
Qed.

Lemma mem_read_plain_is_pure_witness :
  mem_read MR_KBDR (boot [65] (mkTermios true true))
    = Ret 0 (boot [65] (mkTermios true true)) /\
  forall v, 0 <= v < 65536 ->
    mem_read MR_KBDR (mem_write MR_KBDR v (boot [65] (mkTermios true true)))
      = Ret v (mem_write MR_KBDR v (boot [65] (mkTermios true true))).
Proof.
  apply (mem_read_plain_is_pure (boot [65] (mkTermios true true)) MR_KBDR).
  discriminate.
Defined.

(** ** Subroutine linkage *)

Lemma land7_range (x : Z) : 0 <= Z.land x 0x7 <= 7.
Proof.
  change (Z.land x 0x7) with (Z.land x (Z.ones 3)).
  rewrite Z.land_ones by lia. change (2 ^ 3) with 8.
  pose proof (Z.mod_pos_bound x 8 ltac:(lia)). lia.
Qed.

(** In register mode the handler reads the base register after it has
    stored the return address in R7, so with BaseR = R7 the jump target is
    lost, whatever R7 held. *)
Lemma op_jsr_base_r7 (m : machine) :
  reg (op_jsr 0x41C0 m) R_PC = to_u16 (to_u16 (reg m R_PC)) /\
  reg (op_jsr 0x41C0 m) R_R7 = to_u16 (reg m R_PC).
Proof. split; reflexivity. Qed.

(** C4 fails for BaseR = R7.  After [LEA R7, #5] at 0x3000, R7 holds
    0x3006; [JSRR R7] at 0x3001 should continue at 0x3006 but continues at
    0x3002, the instruction after the call. *)
Theorem jsrr_r7_jumps_to_return_address :
  let start := boot [] cooked in
  let before := state_of (main [("jsrr.obj"%string, Some jsrr_r7_image)] [[]] start) in
  let after := state_of (main [("jsrr.obj"%string, Some jsrr_r7_image)] [[]; []] start) in
  reg before R_PC = 0x3001 /\ memory before 0x3001 = 0x41C0 /\
  reg before R_R7 = 0x3006 /\
  reg after R_R7 = 0x3002 /\ reg after R_PC = 0x3002 /\
  reg after R_PC <> reg before R_R7.
Proof. vm_compute. repeat split; discriminate. Qed.

(** For the other base registers the register-mode jump is as specified. *)
Lemma op_jsr_register_mode (instr : Z) (m : machine) :
  Z.land (Z.shiftr instr 11) 0x1 = 0 ->
  Z.land (Z.shiftr instr 6) 0x7 <> R_R7 ->
  reg (op_jsr instr m) R_PC = to_u16 (reg m (Z.land (Z.shiftr instr 6) 0x7)) /\
  reg (op_jsr instr m) R_R7 = to_u16 (reg m R_PC).
Proof.
  intros Hmode Hbase. unfold op_jsr. rewrite Hmode.
  cbn [negb Z.eqb]. unfold store_reg. cbn [reg memory].
  pose proof (land7_range (Z.shiftr instr 6)) as Hr.
  split.
  - rewrite upd_same, upd_other by exact Hbase. reflexivity.
  - rewrite upd_other by (unfold R_R7, R_PC; lia).
    rewrite upd_same. reflexivity.
Qed.

Lemma op_jsr_offset_mode (instr : Z) (m : machine) :
  Z.land (Z.shiftr instr 11) 0x1 <> 0 ->
  reg (op_jsr instr m) R_PC =
    to_u16 (reg m R_PC + sign_extend (Z.land instr 0x7FF) 11) /\
  reg (op_jsr instr m) R_R7 = to_u16 (reg m R_PC).
Proof.
  intros Hmode. unfold op_jsr.
  destruct (Z.eqb_spec (Z.land (Z.shiftr instr 11) 1) 0) as [E | _];
    [contradiction|].
  cbn [negb]. unfold store_reg. cbn [reg memory].
  split.
  - rewrite upd_same, upd_other by (unfold R_R7, R_PC; lia). reflexivity.
  - rewrite upd_other by (unfold R_R7, R_PC; lia).
    rewrite upd_same. reflexivity.
Qed.

(** ** Image loader *)

(** An image whose origin is 0 loads nothing: [MAX_MEMORY - origin] is
    65536, which the [uint16_t] local [max_read] holds as 0. *)
Lemma read_image_file_origin0 (rest : list Z) (m : machine) :
  read_image_file (0 :: 0 :: rest) m = Ret tt m.
Proof. destruct m. reflexivity. Qed.

(** C5 fails at origin 0: the word 0x1234 of the image is not stored at
    address 0, while the same word with origin 1 is stored at address 1. *)
Theorem origin0_image_loads_nothing :
  let start := boot [] cooked in
  read_image_file origin0_image start = Ret tt start /\
  memory (state_of (read_image_file origin0_image start)) 0 = 0 /\
  memory (state_of (read_image_file (image_of_words [0x0001; 0x1234]) start)) 1
    = 0x1234.
Proof. vm_compute. repeat split. Qed.

(** ** Fetch and dispatch *)

(** A read returns; it leaves everything but the keyboard cells and the
    host's input side alone. *)
Lemma mem_read_returns (a : Z) (m : machine) :
  exists v m',
    mem_read a m = Ret v m' /\
    reg m' = reg m /\ running m' = running m /\ stdout m' = stdout m /\
    tty m' = tty m /\ orig_tio m' = orig_tio m /\
    (a <> MR_KBSR -> m' = m /\ v = memory m a) /\
    (a = MR_KBSR -> v = 0x8000 \/ v = 0).
Proof.
  destruct (Z.eq_dec a MR_KBSR) as [-> | Ha].
  - destruct (readable m) eqn:Hr.
    + destruct (readable_cons m Hr) as (c & q & Hq).
      rewrite (mem_read_kbsr_ready m c q Hq Hr). do 2 eexists.
      split; [reflexivity|].
      cbn [reg running stdout tty orig_tio].
      repeat split; auto; contradiction.
    + rewrite (mem_read_kbsr_idle m Hr). do 2 eexists.
      split; [reflexivity|].
      cbn [reg running stdout tty orig_tio].
      repeat split; auto; contradiction.
  - rewrite (mem_read_plain a m Ha). do 2 eexists.
    split; [reflexivity|]. repeat split; auto; contradiction.
Qed.

Lemma step_fetch (m m1 : machine) (instr : Z) :
  mem_read (reg m R_PC) m = Ret instr m1 ->
  step m = dispatch instr (store_reg R_PC (reg m1 R_PC + 1) m1).
Proof.
  intros H. unfold step, bind, gets, modify. rewrite H. reflexivity.
Qed.

Lemma dispatch_trap (instr : Z) :
  Z.shiftr instr 12 = OP_TRAP -> dispatch instr = op_trap instr.
Proof. intros H. unfold dispatch. rewrite H. reflexivity. Qed.

Lemma dispatch_jsr (instr : Z) :
  Z.shiftr instr 12 = OP_JSR -> dispatch instr = modify (op_jsr instr).
Proof. intros H. unfold dispatch. rewrite H. reflexivity. Qed.

(** A TRAP is never fetched from KBSR: the fetch itself rewrites that cell
    to 0x8000 or 0. *)
Lemma fetched_trap_is_plain (m m1 : machine) (instr : Z) :
  mem_read (reg m R_PC) m = Ret instr m1 ->
  Z.shiftr instr 12 = OP_TRAP \/ Z.shiftr instr 12 = OP_JSR ->
  m1 = m /\ instr = memory m (reg m R_PC).
Proof.
  intros H Hop.
  destruct (mem_read_returns (reg m R_PC) m)
    as (v & m' & E & _ & _ & _ & _ & _ & Hplain & Hkb).
  rewrite E in H. injection H as -> ->.
  destruct (Z.eq_dec (reg m R_PC) MR_KBSR) as [Heq | Hne].
  - exfalso. destruct (Hkb Heq) as [-> | ->]; destruct Hop; discriminate.
  - apply Hplain. exact Hne.
Qed.

(** ** Traps *)

Lemma op_trap_undefined_vector (instr : Z) (m : machine) :
  ~ (0x20 <= Z.land instr 0xFF <= 0x25) ->
  op_trap instr m = Ret tt (store_reg R_R7 (reg m R_PC) m).
Proof.
  intros Hv. unfold op_trap, bind, modify.
  unfold TRAP_GETC, TRAP_OUT, TRAP_PUTS, TRAP_IN, TRAP_PUTSP, TRAP_HALT.
  repeat match goal with
         | |- context [?a =? ?b] => destruct (Z.eqb_spec a b); [lia|]
         end.
  reflexivity.
Qed.

(** C6: a TRAP whose vector is none of 0x20..0x25 stores the incremented
    PC in R7 and does nothing else: the other registers (COND among them),
    the incremented PC, memory, the running flag and the host's input and
    output are as the fetch left them, and the fetch itself changed only
    PC. *)
Theorem trap_undefined_vector_only_links (m m1 : machine) (instr : Z) :
  mem_read (reg m R_PC) m = Ret instr m1 ->
  Z.shiftr instr 12 = OP_TRAP ->
  ~ (0x20 <= Z.land instr 0xFF <= 0x25) ->
  exists m',
    step m = Ret tt m' /\
    reg m' R_R7 = to_u16 (reg m R_PC + 1) /\
    reg m' R_PC = to_u16 (reg m R_PC + 1) /\
    (forall r, r <> R_R7 -> r <> R_PC -> reg m' r = reg m r) /\
    memory m' = memory m /\ running m' = running m /\
    stdin m' = stdin m /\ buffered m' = buffered m /\
    in_ops m' = in_ops m /\ stdout m' = stdout m /\
    tty m' = tty m /\ orig_tio m' = orig_tio m.
Proof.
  intros Hfetch Hop Hv.
  destruct (fetched_trap_is_plain m m1 instr Hfetch (or_introl Hop)) as [-> _].
  rewrite (step_fetch m m instr Hfetch), (dispatch_trap instr Hop).
  rewrite (op_trap_undefined_vector instr _ Hv).
  eexists. split; [reflexivity|].
  unfold store_reg.
  cbn [reg memory running stdin buffered in_ops stdout tty orig_tio].
  split; [rewrite upd_same, upd_same; apply to_u16_small, to_u16_range|].
  split; [rewrite upd_other by discriminate; apply upd_same|].
  split; [|repeat split].
  intros r H7 Hpc. rewrite !upd_other by assumption. reflexivity.
Qed.

Lemma trap_undefined_vector_only_links_witness :
  exists m',
    step (at_start 0xF0FF [65]) = Ret tt m' /\
    reg m' R_R7 = to_u16 (reg (at_start 0xF0FF [65]) R_PC + 1) /\
    reg m' R_PC = to_u16 (reg (at_start 0xF0FF [65]) R_PC + 1) /\
    (forall r, r <> R_R7 -> r <> R_PC ->
       reg m' r = reg (at_start 0xF0FF [65]) r) /\
    memory m' = memory (at_start 0xF0FF [65]) /\
    running m' = running (at_start 0xF0FF [65]) /\
    stdin m' = stdin (at_start 0xF0FF [65]) /\
    buffered m' = buffered (at_start 0xF0FF [65]) /\
    in_ops m' = in_ops (at_start 0xF0FF [65]) /\
    stdout m' = stdout (at_start 0xF0FF [65]) /\
    tty m' = tty (at_start 0xF0FF [65]) /\
    orig_tio m' = orig_tio (at_start 0xF0FF [65]).
Proof.
  apply (trap_undefined_vector_only_links
           (at_start 0xF0FF [65]) (at_start 0xF0FF [65]) 0xF0FF).
  - reflexivity.
  - reflexivity.
  - vm_compute. intros [_ H]. apply H. reflexivity.
Defined.

(** ** Condition flags *)

Lemma flag_of_cases (v : Z) :
  flag_of v = FL_NEG \/ flag_of v = FL_ZRO \/ flag_of v = FL_POS.
Proof.
  unfold flag_of. destruct (Z.testbit v 15); [auto|].
  destruct (v =? 0); auto.
Qed.

(** On a 16-bit value, [v >> 15] is non-zero exactly when bit 15 is set. *)
Lemma top_bit_test (v : Z) :
  0 <= v < 65536 -> negb (Z.shiftr v 15 =? 0) = Z.testbit v 15.
Proof.
  intros Hv. rewrite Z.testbit_odd, Z.shiftr_div_pow2 by lia.
  change (2 ^ 15) with 32768.
  assert (Hq : v / 32768 = 0 \/ v / 32768 = 1).
  { assert (0 <= v / 32768 < 2); [|lia].
    split; [apply Z.div_pos; lia | apply Z.div_lt_upper_bound; lia]. }
  destruct Hq as [-> | ->]; reflexivity.
Qed.

Lemma update_condition_flags_spec (r : Z) (m : machine) :
  r <> R_COND -> 0 <= reg m r < 65536 ->
  reg (update_condition_flags r m) R_COND = flag_of (reg m r) /\
  (forall r', r' <> R_COND ->
     reg (update_condition_flags r m) r' = reg m r') /\
  memory (update_condition_flags r m) = memory m /\
  running (update_condition_flags r m) = running m /\
  stdin (update_condition_flags r m) = stdin m /\
  in_ops (update_condition_flags r m) = in_ops m /\
  stdout (update_condition_flags r m) = stdout m.
Proof.
  intros Hr Hv. unfold update_condition_flags, flag_of.
  rewrite <- (top_bit_test _ Hv).
  destruct (Z.eqb_spec (reg m r) 0) as [E | E].
  - rewrite E. cbn [Z.shiftr Z.shiftl Z.eqb negb].
    unfold store_reg. cbn [reg memory running stdin in_ops stdout].
    split; [apply upd_same|]. split; [|auto].
    intros r' H. apply upd_other. exact H.
  - destruct (negb (Z.shiftr (reg m r) 15 =? 0));
      unfold store_reg; cbn [reg memory running stdin in_ops stdout];
      (split; [apply upd_same|]); (split; [|auto]);
      intros r' H; apply upd_other; exact H.
Qed.

(** Every handler that writes DR ends with this pair of steps. *)
Lemma flags_after_write (dr v : Z) (m : machine) :
  0 <= dr <= 7 ->
  let m' := update_condition_flags dr (store_reg dr v m) in
  reg m' dr = to_u16 v /\ reg m' R_COND = flag_of (reg m' dr).
Proof.
  intros Hdr m'.
  assert (Hne : dr <> R_COND) by (unfold R_COND; lia).
  assert (Hw : reg (store_reg dr v m) dr = to_u16 v)
    by (unfold store_reg; cbn [reg]; apply upd_same).
  destruct (update_condition_flags_spec dr (store_reg dr v m) Hne)
    as (Hc & Hk & _).
  { rewrite Hw. apply to_u16_range. }
  subst m'. rewrite (Hk dr Hne), Hc. split; [exact Hw | reflexivity].
Qed.

Lemma sets_flags_cases (opcode : Z) :
  sets_flags opcode = true ->
  opcode = OP_ADD \/ opcode = OP_AND \/ opcode = OP_NOT \/ opcode = OP_LD \/
  opcode = OP_LDI \/ opcode = OP_LDR \/ opcode = OP_LEA.
Proof.
  unfold sets_flags. rewrite !orb_true_iff, !Z.eqb_eq. tauto.
Qed.

Lemma op_add_flags (instr : Z) (m : machine) :
  let dr := Z.land (Z.shiftr instr 9) 0x7 in
  reg (op_add instr m) R_COND = flag_of (reg (op_add instr m) dr).
Proof.
  intros dr. unfold op_add. fold dr.
  destruct (negb (Z.land (Z.shiftr instr 5) 1 =? 0));
    apply flags_after_write; apply land7_range.
Qed.

Lemma op_and_flags (instr : Z) (m : machine) :
  let dr := Z.land (Z.shiftr instr 9) 0x7 in
  reg (op_and instr m) R_COND = flag_of (reg (op_and instr m) dr).
Proof.
  intros dr. unfold op_and. fold dr.
  destruct (negb (Z.land (Z.shiftr instr 5) 1 =? 0));
    apply flags_after_write; apply land7_range.
Qed.

Lemma op_not_flags (instr : Z) (m : machine) :
  let dr := Z.land (Z.shiftr instr 9) 0x7 in
  reg (op_not instr m) R_COND = flag_of (reg (op_not instr m) dr).
Proof.
  intros dr. unfold op_not. fold dr.
  apply flags_after_write; apply land7_range.
Qed.

Lemma op_lea_flags (instr : Z) (m : machine) :
  let dr := Z.land (Z.shiftr instr 9) 0x7 in
  reg (op_lea instr m) R_COND = flag_of (reg (op_lea instr m) dr).
Proof.
  intros dr. unfold op_lea. fold dr.
  apply flags_after_write; apply land7_range.
Qed.

Lemma op_ld_flags (instr : Z) (m : machine) :
  let dr := Z.land (Z.shiftr instr 9) 0x7 in
  exists m', op_ld instr m = Ret tt m' /\
             reg m' R_COND = flag_of (reg m' dr).
Proof.
  intros dr. unfold op_ld, bind, gets, modify. fold dr.
  destruct (mem_read_returns
              (to_u16 (reg m R_PC + sign_extend (Z.land instr 0x1FF) 9)) m)
    as (v & m1 & E & _).
  rewrite E. eexists. split; [reflexivity|].
  apply flags_after_write. apply land7_range.
Qed.

Lemma op_ldi_flags (instr : Z) (m : machine) :
  let dr := Z.land (Z.shiftr instr 9) 0x7 in
  exists m', op_ldi instr m = Ret tt m' /\
             reg m' R_COND = flag_of (reg m' dr).
Proof.
  intros dr. unfold op_ldi, bind, gets, modify. fold dr.
  destruct (mem_read_returns
              (to_u16 (reg m R_PC + sign_extend (Z.land instr 0x1FF) 9)) m)
    as (a & m1 & E1 & _).
  rewrite E1.
  destruct (mem_read_returns a m1) as (v & m2 & E2 & _).
  rewrite E2. eexists. split; [reflexivity|].
  apply flags_after_write. apply land7_range.
Qed.

Lemma op_ldr_flags (instr : Z) (m : machine) :
  let dr := Z.land (Z.shiftr instr 9) 0x7 in
  exists m', op_ldr instr m = Ret tt m' /\
             reg m' R_COND = flag_of (reg m' dr).
Proof.
  intros dr. unfold op_ldr, bind, gets, modify. fold dr.
  destruct (mem_read_returns
              (to_u16 (reg m (Z.land (Z.shiftr instr 6) 0x7)
                       + sign_extend (Z.land instr 0x3F) 6)) m)
    as (v & m1 & E & _).
  rewrite E. eexists. split; [reflexivity|].
  apply flags_after_write. apply land7_range.
Qed.

(** The string traps only write to the host. *)
Lemma puts_loop_regs (cells : nat) (c : Z) (m : machine) :
  reg (state_of (puts_loop cells c m)) = reg m.
Proof.
  revert c m. induction cells as [| n IH]; intros c m; [reflexivity|].
  cbn [puts_loop]. unfold bind, gets, putc, modify.
  destruct (negb (memory m c =? 0)); [|reflexivity].
  rewrite IH. reflexivity.
Qed.

Lemma putsp_loop_regs (cells : nat) (c : Z) (m : machine) :
  reg (state_of (putsp_loop cells c m)) = reg m.
Proof.
  revert c m. induction cells as [| n IH]; intros c m; [reflexivity|].
  cbn [putsp_loop]. unfold bind, gets, putc, modify, ret.
  destruct (negb (memory m c =? 0)); [|reflexivity].
  destruct (negb (to_char (Z.shiftr (memory m c) 8) =? 0));
    rewrite IH; reflexivity.
Qed.

Lemma bind_state_regs {A B} (x : M A) (f : A -> M B) (m : machine) :
  (forall m0, reg (state_of (x m0)) = reg m0) ->
  (forall a m0, reg (state_of (f a m0)) = reg m0) ->
  reg (state_of (bind x f m)) = reg m.
Proof.
  intros Hx Hf. unfold bind. specialize (Hx m).
  destruct (x m); try exact Hx.
  rewrite Hf. exact Hx.
Qed.

Lemma op_trap_keeps_cond (instr : Z) (m : machine) :
  reg (state_of (op_trap instr m)) R_COND = reg m R_COND.
Proof.
  unfold op_trap. unfold bind at 1. unfold modify at 1.
  set (m1 := store_reg R_R7 (reg m R_PC) m).
  assert (H1 : reg m1 R_COND = reg m R_COND) by reflexivity.
  rewrite <- H1. clearbody m1. clear H1.
  repeat match goal with
         | |- context [if ?b then _ else _] => destruct b
         end.
  - unfold trap_getc, bind, getchar, modify.
    destruct (stdin m1); reflexivity.
  - reflexivity.
  - unfold trap_puts, fflush. unfold bind at 1, gets.
    rewrite bind_state_regs; [reflexivity | apply puts_loop_regs | reflexivity].
  - unfold trap_in, bind, printf, getchar, modify. cbn [stdin write_bytes].
    destruct (stdin m1); reflexivity.
  - unfold trap_putsp, fflush. unfold bind at 1, gets.
    rewrite bind_state_regs; [reflexivity | apply putsp_loop_regs | reflexivity].
  - reflexivity.
  - reflexivity.
Qed.

Lemma op_jsr_keeps_cond (instr : Z) (m : machine) :
  reg (op_jsr instr m) R_COND = reg m R_COND.
Proof.
  unfold op_jsr.
  destruct (negb (Z.land (Z.shiftr instr 11) 1 =? 0)); reflexivity.
Qed.

(** C1, as stated, fails for the writes that are not followed by
    [update_condition_flags].  Right after start-up (COND = ZRO), GETC
    with 'A' pending leaves R0 = 65 and [JSR #0] leaves R7 = 0x3001, both
    positive, and COND is still ZRO. *)
Lemma getc_and_jsr_leave_flags_stale :
  (exists m',
     step (at_start 0xF020 [65]) = Ret tt m' /\
     reg m' R_R0 = 65 /\ reg m' R_COND = FL_ZRO /\
     reg m' R_COND <> flag_of (reg m' R_R0)) /\
  (exists m',
     step (at_start 0x4800 []) = Ret tt m' /\
     reg m' R_R7 = 0x3001 /\ reg m' R_COND = FL_ZRO /\
     reg m' R_COND <> flag_of (reg m' R_R7)).
Proof.
  split; eexists; (split; [vm_compute; reflexivity|]); vm_compute;
    repeat split; discriminate.
Qed.

(** C1 (amended): after ADD, AND, NOT, LD, LDI, LDR or LEA, COND is exactly
    one of NEG, ZRO, POS, chosen by the value now in DR: NEG if its bit 15
    is 1, ZRO if it is 0, POS otherwise.  JSR and TRAP, the GETC and IN
    traps included, write R7 or R0 and leave COND as it was. *)
Theorem flags_follow_dr_writes (m m1 : machine) (instr : Z) :
  mem_read (reg m R_PC) m = Ret instr m1 ->
  (sets_flags (Z.shiftr instr 12) = true ->
   exists m',
     step m = Ret tt m' /\
     reg m' R_COND = flag_of (reg m' (Z.land (Z.shiftr instr 9) 0x7)) /\
     (reg m' R_COND = FL_NEG \/ reg m' R_COND = FL_ZRO \/
      reg m' R_COND = FL_POS)) /\
  (Z.shiftr instr 12 = OP_JSR \/ Z.shiftr instr 12 = OP_TRAP ->
   reg (state_of (step m)) R_COND = reg m R_COND).
Proof.
  intros Hfetch. rewrite (step_fetch m m1 instr Hfetch). split.
  - intros Hop.
    set (m2 := store_reg R_PC (reg m1 R_PC + 1) m1).
    assert (Hgoal : exists m', dispatch instr m2 = Ret tt m' /\
              reg m' R_COND = flag_of (reg m' (Z.land (Z.shiftr instr 9) 0x7))).
    { unfold dispatch.
      destruct (sets_flags_cases _ Hop) as [H | [H | [H | [H | [H | [H | H]]]]]];
        rewrite H; cbn [Z.eqb OP_ADD OP_AND OP_NOT OP_BR OP_JMP OP_JSR OP_LD
                        OP_LDI OP_LDR OP_LEA Pos.eqb].
      - eexists. split; [reflexivity|]. apply op_add_flags.
      - eexists. split; [reflexivity|]. apply op_and_flags.
      - eexists. split; [reflexivity|]. apply op_not_flags.
      - apply op_ld_flags.
      - apply op_ldi_flags.
      - apply op_ldr_flags.
      - eexists. split; [reflexivity|]. apply op_lea_flags. }
    destruct Hgoal as (m' & Hstep & Hflag).
    exists m'. split; [exact Hstep|]. split; [exact Hflag|].
    rewrite Hflag. apply flag_of_cases.
  - intros Hop.
    destruct (fetched_trap_is_plain m m1 instr Hfetch) as [-> _]; [tauto|].
    destruct Hop as [Hop | Hop].
    + rewrite (dispatch_jsr instr Hop). unfold modify. cbn [state_of].
      rewrite op_jsr_keeps_cond. reflexivity.
    + rewrite (dispatch_trap instr Hop), op_trap_keeps_cond. reflexivity.
Qed.

Lemma flags_follow_dr_writes_witness :
  (exists m',
     step (at_start 0x103F []) = Ret tt m' /\
     reg m' R_COND = flag_of (reg m' (Z.land (Z.shiftr 0x103F 9) 0x7)) /\
     (reg m' R_COND = FL_NEG \/ reg m' R_COND = FL_ZRO \/
      reg m' R_COND = FL_POS)) /\
  reg (state_of (step (at_start 0xF020 [65]))) R_COND
    = reg (at_start 0xF020 [65]) R_COND.
Proof.
  split.
  - apply (proj1 (flags_follow_dr_writes
                    (at_start 0x103F []) (at_start 0x103F []) 0x103F
                    eq_refl)).
    reflexivity.
  - apply (proj2 (flags_follow_dr_writes
                    (at_start 0xF020 [65]) (at_start 0xF020 [65]) 0xF020
                    eq_refl)).
    right. reflexivity.
Defined.

(** ** Well-formed states *)

Lemma well_formed_boot (input : list Z) (t : termios) :
  well_formed (boot input t).
Proof. split; intros; cbn; lia. Qed.

Lemma well_formed_store_mem (a v : Z) (m : machine) :
  well_formed m -> well_formed (store_mem a v m).
Proof.
  intros [Hm Hr]. split; [|exact Hr].
  intros b. unfold store_mem. cbn [memory]. unfold upd.
  destruct (b =? a); [apply to_u16_range | apply Hm].
Qed.

Lemma well_formed_store_reg (r v : Z) (m : machine) :
  well_formed m -> well_formed (store_reg r v m).
Proof.
  intros [Hm Hr]. split; [exact Hm|].
  intros b. unfold store_reg. cbn [reg]. unfold upd.
  destruct (b =? r); [apply to_u16_range | apply Hr].
Qed.

(** ** Host output *)

Lemma write_bytes_nil (m : machine) : write_bytes [] m = m.
Proof. destruct m. unfold write_bytes. cbn. rewrite app_nil_r. reflexivity. Qed.

Lemma write_bytes_app (xs ys : list Z) (m : machine) :
  write_bytes ys (write_bytes xs m) = write_bytes (xs ++ ys) m.
Proof. unfold write_bytes. cbn. rewrite app_assoc. reflexivity. Qed.

Lemma to_uchar_to_char (v : Z) : to_uchar (to_char v) = v mod 256.
Proof.
  unfold to_uchar, to_char.
  pose proof (Z.mod_pos_bound v 256 ltac:(lia)) as Hb.
  destruct (Z.ltb_spec (v mod 256) 128).
  - apply Z.mod_small. lia.
  - symmetry. apply (Z.mod_unique _ _ (-1)); lia.
Qed.

Lemma to_char_zero (v : Z) : (to_char v =? 0) = (v mod 256 =? 0).
Proof.
  unfold to_char.
  pose proof (Z.mod_pos_bound v 256 ltac:(lia)) as Hb.
  destruct (Z.ltb_spec (v mod 256) 128); [reflexivity|].
  destruct (Z.eqb_spec (v mod 256 - 256) 0), (Z.eqb_spec (v mod 256) 0);
    try reflexivity; lia.
Qed.

(** One round of the PUTSP loop body on a non-zero word, followed by
    whatever comes next. *)
Lemma putsp_cell_output (w : Z) (k : M unit) (m : machine) :
  0 <= w < 65536 ->
  (putc (to_char (Z.land w 0xFF)) ;;
   (if negb (to_char (Z.shiftr w 8) =? 0)
    then putc (to_char (Z.shiftr w 8)) else ret tt) ;;
   k) m
  = k (write_bytes (putsp_bytes w) m).
Proof.
  intros Hw.
  assert (Hlo : Z.land w 0xFF mod 256 = w mod 256).
  { change (Z.land w 0xFF) with (Z.land w (Z.ones 8)).
    rewrite Z.land_ones by lia. change (2 ^ 8) with 256.
    apply Z.mod_mod. lia. }
  assert (Hhi : Z.shiftr w 8 mod 256 = w / 256).
  { rewrite Z.shiftr_div_pow2 by lia. change (2 ^ 8) with 256.
    apply Z.mod_small.
    split; [apply Z.div_pos; lia | apply Z.div_lt_upper_bound; lia]. }
  unfold bind, putc, modify, ret, putsp_bytes.
  rewrite to_char_zero, !to_uchar_to_char, Hlo, Hhi.
  destruct (w / 256 =? 0); cbn [negb].
  - reflexivity.
  - rewrite write_bytes_app. reflexivity.
Qed.

Lemma addrs_cons (c z : Z) :
  c < z -> addrs c (Z.to_nat (z - c)) = c :: addrs (c + 1) (Z.to_nat (z - (c + 1))).
Proof.
  intros H. replace (z - c) with (Z.succ (z - (c + 1))) by lia.
  rewrite Z2Nat.inj_succ by lia. reflexivity.
Qed.

(** The loop, started with a zero word among the cells left, stops at the
    first one and has emitted the bytes of the words before it. *)
Lemma putsp_loop_scan (cells : nat) (c : Z) (m : machine) :
  (forall a, 0 <= memory m a < 65536) ->
  (exists a, c <= a < c + Z.of_nat cells /\ memory m a = 0) ->
  exists z,
    c <= z < c + Z.of_nat cells /\ memory m z = 0 /\
    (forall a, c <= a < z -> memory m a <> 0) /\
    putsp_loop cells c m =
    Ret tt (write_bytes
              (flat_map putsp_bytes
                 (map (memory m) (addrs c (Z.to_nat (z - c))))) m).
Proof.
  revert c m. induction cells as [| n IH]; intros c m Hwf (a & Ha & Hz).
  - lia.
  - cbn [putsp_loop]. unfold bind at 1. unfold gets at 1.
    destruct (Z.eqb_spec (memory m c) 0) as [E | E]; cbn [negb].
    + exists c. split; [lia|]. split; [exact E|]. split; [intros; lia|].
      rewrite Z.sub_diag. cbn. rewrite write_bytes_nil. reflexivity.
    + assert (Hne : a <> c) by (intros ->; contradiction).
      rewrite (putsp_cell_output _ (putsp_loop n (c + 1)) m (Hwf c)).
      destruct (IH (c + 1) (write_bytes (putsp_bytes (memory m c)) m))
        as (z & Hzr & Hz0 & Hfirst & Hrun).
      { exact Hwf. }
      { exists a. split; [lia | exact Hz]. }
      cbn [memory write_bytes] in Hz0, Hfirst, Hrun.
      exists z. split; [lia|]. split; [exact Hz0|]. split.
      * intros b Hb. destruct (Z.eq_dec b c) as [-> | Hbc]; [exact E|].
        apply Hfirst. lia.
      * rewrite (addrs_cons c z) by lia.
        rewrite Hrun, write_bytes_app. reflexivity.
Qed.

(** C8: with a zero word at or after R0, PUTSP emits, for each word from
    R0 up to the first zero word, the low byte and then the high byte
    unless that is zero, and stops there; nothing else changes. *)
Theorem trap_putsp_output (m : machine) :
  well_formed m ->
  (exists a, reg m R_R0 <= a < 65536 /\ memory m a = 0) ->
  exists z,
    reg m R_R0 <= z < 65536 /\ memory m z = 0 /\
    (forall a, reg m R_R0 <= a < z -> memory m a <> 0) /\
    trap_putsp m =
    Ret tt (write_bytes
              (flat_map putsp_bytes
                 (map (memory m)
                      (addrs (reg m R_R0) (Z.to_nat (z - reg m R_R0))))) m).
Proof.
  intros [Hmem Hreg] (a & Ha & Hz).
  pose proof (Hreg R_R0) as Hr0.
  assert (Hcells : reg m R_R0 + Z.of_nat (Z.to_nat (MAX_MEMORY - reg m R_R0))
                   = 65536).
  { change MAX_MEMORY with 65536. rewrite Z2Nat.id by lia. lia. }
  destruct (putsp_loop_scan (Z.to_nat (MAX_MEMORY - reg m R_R0))
              (reg m R_R0) m Hmem)
    as (z & Hzr & Hz0 & Hfirst & Hrun).
  { exists a. rewrite Hcells. split; [exact Ha | exact Hz]. }
  rewrite Hcells in Hzr.
  exists z. split; [exact Hzr|]. split; [exact Hz0|]. split; [exact Hfirst|].
  unfold trap_putsp, fflush. unfold bind at 1. unfold gets at 1.
  unfold bind. rewrite Hrun. reflexivity.
Qed.

Lemma trap_putsp_output_witness :
  exists z,
    reg packed_hi R_R0 <= z < 65536 /\ memory packed_hi z = 0 /\
    (forall a, reg packed_hi R_R0 <= a < z -> memory packed_hi a <> 0) /\
    trap_putsp packed_hi =
    Ret tt (write_bytes
              (flat_map putsp_bytes
                 (map (memory packed_hi)
                      (addrs (reg packed_hi R_R0)
                             (Z.to_nat (z - reg packed_hi R_R0))))) packed_hi).
Proof.
  apply (trap_putsp_output packed_hi).
  - unfold packed_hi.
    apply well_formed_store_reg, well_formed_store_mem, well_formed_store_mem.
    apply well_formed_boot.
  - exists 0x4002. vm_compute. repeat split; discriminate.
Defined.

(** The packed string "Hi!": 'H' 'i' from the first word, '!' alone from
    the second, nothing for its zero high byte. *)
Example trap_putsp_packed_hi :
  stdout (state_of (trap_putsp packed_hi)) = [72; 105; 33].
Proof. vm_compute. reflexivity. Qed.

(** ** Runs that take no input *)

Lemma rehost_self (m : machine) : rehost m m = m.
Proof. destruct m. reflexivity. Qed.

Lemma same_machine_rehost (m1 m2 : machine) :
  same_machine m1 m2 -> m2 = rehost m2 m1.
Proof.
  destruct m1, m2. unfold same_machine, rehost. cbn.
  intros (-> & -> & -> & -> & -> & ->). reflexivity.
Qed.

Lemma rehost_same_machine (h m : machine) : same_machine m (rehost h m).
Proof. unfold same_machine, rehost. cbn. repeat split. Qed.

Lemma hostless_in_ops (f : machine -> machine) (m : machine) :
  hostless f -> in_ops (f m) = in_ops m.
Proof.
  intros H. rewrite <- (rehost_self m) at 1. rewrite H. reflexivity.
Qed.

Lemma quiet_ret {A} (a : A) : quiet (ret a).
Proof. intros m. split; [apply Nat.le_refl | reflexivity]. Qed.

Lemma quiet_gets {A} (g : machine -> A) :
  (forall m h, g (rehost h m) = g m) -> quiet (gets g).
Proof.
  intros Hg m. split; [apply Nat.le_refl|].
  intros _ h. unfold gets. rewrite Hg. reflexivity.
Qed.

Lemma quiet_modify (f : machine -> machine) : hostless f -> quiet (modify f).
Proof.
  intros Hf m. unfold modify. cbn [state_of map_state].
  rewrite (hostless_in_ops f m Hf). split; [apply Nat.le_refl|].
  intros _ h. rewrite Hf. reflexivity.
Qed.

Lemma quiet_abort {A} : quiet (@abort A).
Proof. intros m. split; [apply Nat.le_refl | reflexivity]. Qed.

Lemma quiet_undefined {A} : quiet (@undefined A).
Proof. intros m. split; [apply Nat.le_refl | reflexivity]. Qed.

Lemma quiet_bind {A B} (x : M A) (f : A -> M B) :
  quiet x -> (forall a, quiet (f a)) -> quiet (bind x f).
Proof.
  intros Hx Hf m. destruct (Hx m) as [Hle Hsame]. unfold bind.
  destruct (x m) as [a m' | m' | c m' | m' | m' | m'] eqn:E;
    cbn [state_of] in *;
    try (split; [exact Hle|]; intros Hk h;
         rewrite (Hsame Hk h); reflexivity).
  destruct (Hf a m') as [Hle' Hsame']. split; [lia|].
  intros Hk h.
  rewrite (Hsame ltac:(lia) h). cbn [map_state].
  apply Hsame'. lia.
Qed.

Lemma quiet_check_key : quiet check_key.
Proof.
  intros m. unfold check_key. cbn [state_of asked in_ops].
  split; [lia|]. intros H. lia.
Qed.

Lemma quiet_getchar : quiet getchar.
Proof.
  intros m. unfold getchar.
  destruct (stdin m); cbn [state_of asked in_ops]; (split; [lia|]);
    intros H; lia.
Qed.

Lemma quiet_mem_read (a : Z) : quiet (mem_read a).
Proof.
  intros m. destruct (Z.eq_dec a MR_KBSR) as [-> | Ha].
  - destruct (readable m) eqn:Hr.
    + destruct (readable_cons m Hr) as (c & q0 & Hq).
      rewrite (mem_read_kbsr_ready m c q0 Hq Hr). cbn [state_of in_ops].
      split; [lia|]. intros H. lia.
    + rewrite (mem_read_kbsr_idle m Hr). cbn [state_of in_ops].
      split; [lia|]. intros H. lia.
  - rewrite (mem_read_plain a m Ha). cbn [state_of].
    split; [lia|]. intros _ h.
    rewrite (mem_read_plain a _ Ha). reflexivity.
Qed.

Ltac hostless_by_cases :=
  intros m h;
  unfold op_add, op_and, op_not, op_br, op_jmp, op_jsr, op_lea, op_st, op_str,
         update_condition_flags, mem_write, store_mem, store_reg,
         set_running, write_bytes, rehost;
  repeat (cbn [memory reg running orig_tio stdin buffered bufsiz in_ops
               stdout tty];
          match goal with
          | |- context [if ?b then _ else _] =>
              lazymatch b with
              | context [if _ then _ else _] => fail
              | _ => destruct b
              end
          end);
  reflexivity.

Lemma hostless_store_reg (r v : Z) : hostless (store_reg r v).
Proof. hostless_by_cases. Qed.

Lemma hostless_write_bytes (bs : list Z) : hostless (write_bytes bs).
Proof. hostless_by_cases. Qed.

Lemma hostless_set_running (v : Z) : hostless (set_running v).
Proof. hostless_by_cases. Qed.

Lemma hostless_update_condition_flags (r : Z) :
  hostless (update_condition_flags r).
Proof. hostless_by_cases. Qed.

Lemma hostless_op_add (instr : Z) : hostless (op_add instr).
Proof. hostless_by_cases. Qed.

Lemma hostless_op_and (instr : Z) : hostless (op_and instr).
Proof. hostless_by_cases. Qed.

Lemma hostless_op_not (instr : Z) : hostless (op_not instr).
Proof. hostless_by_cases. Qed.

Lemma hostless_op_br (instr : Z) : hostless (op_br instr).
Proof. hostless_by_cases. Qed.

Lemma hostless_op_jmp (instr : Z) : hostless (op_jmp instr).
Proof. hostless_by_cases. Qed.

Lemma hostless_op_jsr (instr : Z) : hostless (op_jsr instr).
Proof. hostless_by_cases. Qed.

Lemma hostless_op_lea (instr : Z) : hostless (op_lea instr).
Proof. hostless_by_cases. Qed.

Lemma hostless_op_st (instr : Z) : hostless (op_st instr).
Proof. hostless_by_cases. Qed.

Lemma hostless_op_str (instr : Z) : hostless (op_str instr).
Proof. hostless_by_cases. Qed.

Create HintDb quiet_db.

#[local] Hint Resolve quiet_ret quiet_modify quiet_abort quiet_undefined
  quiet_check_key quiet_getchar quiet_mem_read
  hostless_store_reg hostless_write_bytes hostless_set_running
  hostless_update_condition_flags hostless_op_add hostless_op_and
  hostless_op_not hostless_op_br hostless_op_jmp hostless_op_jsr
  hostless_op_lea hostless_op_st hostless_op_str : quiet_db.

(** Break a computation into its binds and branches and close the leaves
    with the lemmas above. *)
Ltac quiet_steps :=
  repeat first
    [ apply quiet_bind; [|intros ?]
    | apply quiet_gets; reflexivity
    | apply quiet_modify; hostless_by_cases
    | match goal with
      | |- quiet (if ?b then _ else _) => destruct b
      end
    | solve [auto with quiet_db] ].

Lemma quiet_putc (c : Z) : quiet (putc c).
Proof. unfold putc. quiet_steps. Qed.

Lemma quiet_puts_loop (cells : nat) (c : Z) : quiet (puts_loop cells c).
Proof.
  revert c. induction cells as [| n IH]; intros c; cbn [puts_loop].
  - apply quiet_undefined.
  - apply quiet_bind; [apply quiet_gets; reflexivity|]. intros w.
    destruct (negb (w =? 0)); [|apply quiet_ret].
    apply quiet_bind; [apply quiet_putc|]. intros _. apply IH.
Qed.

Lemma quiet_putsp_loop (cells : nat) (c : Z) : quiet (putsp_loop cells c).
Proof.
  revert c. induction cells as [| n IH]; intros c; cbn [putsp_loop].
  - apply quiet_undefined.
  - apply quiet_bind; [apply quiet_gets; reflexivity|]. intros w.
    destruct (negb (w =? 0)); [|apply quiet_ret].
    apply quiet_bind; [apply quiet_putc|]. intros _.
    apply quiet_bind; [|intros _; apply IH].
    destruct (negb (to_char (Z.shiftr w 8) =? 0));
      [apply quiet_putc | apply quiet_ret].
Qed.

#[local] Hint Resolve quiet_putc quiet_puts_loop quiet_putsp_loop : quiet_db.

Lemma quiet_op_trap (instr : Z) : quiet (op_trap instr).
Proof.
  unfold op_trap, trap_getc, trap_out, trap_puts, trap_in, trap_putsp,
         trap_halt, printf, fflush.
  quiet_steps.
Qed.

Lemma quiet_dispatch (instr : Z) : quiet (dispatch instr).
Proof.
  unfold dispatch.
  repeat match goal with
         | |- quiet (if ?b then _ else _) => destruct b
         end;
    try (apply quiet_modify; auto with quiet_db);
    try apply quiet_op_trap; try apply quiet_abort.
  - unfold op_ld. quiet_steps.
  - unfold op_ldi. quiet_steps.
  - unfold op_ldr. quiet_steps.
  - unfold op_sti. quiet_steps.
Qed.

Lemma quiet_step : quiet step.
Proof.
  unfold step.
  apply quiet_bind; [apply quiet_gets; reflexivity|]. intros pc.
  apply quiet_bind; [apply quiet_mem_read|]. intros instruction.
  apply quiet_bind; [apply quiet_modify; hostless_by_cases|]. intros _.
  apply quiet_dispatch.
Qed.

Lemma run_nil (m : machine) :
  run [] m = if negb (running m =? 0) then Unfinished m else Ret tt m.
Proof. reflexivity. Qed.

Lemma run_cons (bs : list Z) (feed : list (list Z)) (m : machine) :
  run (bs :: feed) m =
  if negb (running m =? 0) then
    match step (arrive bs m) with
    | Ret _ m' => run feed m'
    | Aborted m' => Aborted m'
    | Exited c m' => Exited c m'
    | Blocked m' => Blocked m'
    | Undefined m' => Undefined m'
    | Unfinished m' => Unfinished m'
    end
  else Ret tt m.
Proof. reflexivity. Qed.

Lemma run_in_ops_mono (feed : list (list Z)) (m : machine) :
  (in_ops m <= in_ops (state_of (run feed m)))%nat.
Proof.
  revert m. induction feed as [| bs feed IH]; intros m.
  - rewrite run_nil. destruct (negb (running m =? 0)); apply Nat.le_refl.
  - rewrite run_cons. destruct (negb (running m =? 0)); [|apply Nat.le_refl].
    destruct (quiet_step (arrive bs m)) as [Hle _].
    cbn [arrive in_ops] in Hle.
    destruct (step (arrive bs m)) as [u m' | m' | c m' | m' | m' | m'];
      cbn [state_of] in *; try exact Hle.
    specialize (IH m'). lia.
Qed.

Lemma same_machine_arrive (bs1 bs2 : list Z) (m1 m2 : machine) :
  same_machine m1 m2 ->
  arrive bs2 m2 = rehost (arrive bs2 m2) (arrive bs1 m1).
Proof.
  intros H. rewrite (same_machine_rehost m1 m2 H) at 1. reflexivity.
Qed.

Lemma run_stopped_agree (m1 m2 : machine) :
  same_machine m1 m2 ->
  same_result (run [] m1) (run [] m2) /\
  in_ops (state_of (run [] m2)) = in_ops m2.
Proof.
  intros Hs. rewrite !run_nil.
  assert (Hr : running m1 = running m2) by apply Hs. rewrite <- Hr.
  destruct (negb (running m1 =? 0)); cbn; auto.
Qed.

Lemma run_agree (feed1 : list (list Z)) :
  forall (feed2 : list (list Z)) (n : nat) (m1 m2 : machine),
    same_machine m1 m2 ->
    List.length feed1 = List.length feed2 ->
    in_ops (state_of (run feed1 m1)) = in_ops m1 ->
    same_result (run (firstn n feed1) m1) (run (firstn n feed2) m2) /\
    in_ops (state_of (run (firstn n feed2) m2)) = in_ops m2.
Proof.
  induction feed1 as [| bs1 f1 IH]; intros feed2 n m1 m2 Hs Hlen Hq.
  - destruct feed2; [|discriminate]. rewrite !firstn_nil.
    apply run_stopped_agree. exact Hs.
  - destruct feed2 as [| bs2 f2]; [discriminate|].
    destruct n as [| n]; [apply run_stopped_agree; exact Hs|].
    cbn [firstn]. rewrite !run_cons. rewrite run_cons in Hq.
    assert (Hr : running m1 = running m2) by apply Hs. rewrite <- Hr.
    destruct (negb (running m1 =? 0)); [|cbn; auto].
    rewrite (same_machine_arrive bs1 bs2 m1 m2 Hs).
    destruct (quiet_step (arrive bs1 m1)) as [Hle Hsame].
    cbn [arrive in_ops] in Hle.
    destruct (step (arrive bs1 m1)) as [u m' | m' | c m' | m' | m' | m'] eqn:E;
      cbn [state_of] in *;
      try (rewrite (Hsame Hq); cbn; split; [|reflexivity];
           repeat split; reflexivity).
    pose proof (run_in_ops_mono f1 m') as Hmono.
    rewrite (Hsame ltac:(cbn [arrive in_ops]; lia)). cbn [map_state].
    destruct (IH f2 n m' (rehost (arrive bs2 m2) m'))
      as [Hres Hops].
    + apply rehost_same_machine.
    + injection Hlen as Hlen. exact Hlen.
    + lia.
    + split; [exact Hres | exact Hops].
Qed.

(** C9: take two runs of the loop from states with the same registers
    (PC and COND included), memory, running flag and output, on hosts that
    may hold and deliver different input.  If the first run asks the host
    for no input (no read of KBSR, no GETC, no IN), then after every
    number of iterations the two runs have the same outcome, the same
    machine state and the same output. *)
Theorem input_free_runs_agree
    (feed1 feed2 : list (list Z)) (m1 m2 : machine) :
  same_machine m1 m2 ->
  List.length feed1 = List.length feed2 ->
  in_ops (state_of (run feed1 m1)) = in_ops m1 ->
  forall n, same_result (run (firstn n feed1) m1) (run (firstn n feed2) m2).
Proof.
  intros Hs Hlen Hq n.
  apply (run_agree feed1 feed2 n m1 m2 Hs Hlen Hq).
Qed.

Lemma input_free_runs_agree_witness :
  same_result (run (firstn 2 [[]; []; []]) (add_program []))
              (run (firstn 2 [[65]; []; [66; 67]]) (add_program [10; 13])) /\
  same_result (run (firstn 3 [[]; []; []]) (add_program []))
              (run (firstn 3 [[65]; []; [66; 67]]) (add_program [10; 13])).
Proof.
  split;
    apply (input_free_runs_agree [[]; []; []] [[65]; []; [66; 67]]
             (add_program []) (add_program [10; 13]));
    [ unfold same_machine; repeat split | reflexivity | vm_compute; reflexivity
    | unfold same_machine; repeat split | reflexivity | vm_compute; reflexivity ].
Defined.

(** The program of that run: R0 ends as 4 with COND = POS, and "HALT" is
    printed, whatever the host had to offer. *)
Example add_program_run :
  exists m,
    run [[65]; []; [66; 67]] (add_program [10; 13]) = Ret tt m /\
    reg m R_R0 = 4 /\ reg m R_COND = FL_POS /\
    stdout m = bytes_of_string "HALT" ++ newline /\
    stdin m = [10; 13; 65; 66; 67].
Proof. eexists. split; [vm_compute; reflexivity|]. vm_compute. repeat split. Qed.

(** ** Fatal opcodes *)

(** C7 fails on its second half.  A fetched RTI or RES makes [main] call
    [abort()] at once, so no further instruction runs; but the terminal is
    left as [disable_input_buffering] set it, with ICANON and ECHO off,
    not as [orig_tio] recorded it. *)
Theorem fatal_opcode_leaves_terminal_raw
    (input bs : list Z) (feed : list (list Z)) :
  (exists m,
     main [("rti.obj"%string, Some rti_image)] (bs :: feed) (boot input cooked)
       = Aborted m /\
     reg m R_PC = 0x3001 /\ stdout m = [] /\
     orig_tio m = cooked /\ tty m = mkTermios false false) /\
  (exists m,
     main [("res.obj"%string, Some res_image)] (bs :: feed) (boot input cooked)
       = Aborted m /\
     reg m R_PC = 0x3001 /\ stdout m = [] /\
     orig_tio m = cooked /\ tty m = mkTermios false false).
Proof.
  split; eexists; (split; [reflexivity|]); repeat split.
Qed.

(** Any fetched RTI or RES ends the iteration in [abort()], with the
    terminal as it was. *)
Lemma fatal_opcode_aborts (m m1 : machine) (instr : Z) :
  mem_read (reg m R_PC) m = Ret instr m1 ->
  Z.shiftr instr 12 = OP_RTI \/ Z.shiftr instr 12 = OP_RES ->
  step m = Aborted (store_reg R_PC (reg m1 R_PC + 1) m1) /\
  tty (store_reg R_PC (reg m1 R_PC + 1) m1) = tty m.
Proof.
  intros Hfetch Hop. rewrite (step_fetch m m1 instr Hfetch).
  split.
  - unfold dispatch. destruct Hop as [-> | ->]; reflexivity.
  - destruct (mem_read_returns (reg m R_PC) m)
      as (v & m' & E & _ & _ & _ & Htty & _).
    rewrite E in Hfetch. injection Hfetch as _ <-. exact Htty.
Qed.

(** The two other ways out of the program do restore the terminal: the
    interrupt handler before [exit(-2)], and [main] after a HALT. *)
Lemma handle_interrupt_restores (m : machine) :
  exists m', handle_interrupt m = Exited (-2) m' /\ tty m' = orig_tio m.
Proof. eexists. split; reflexivity. Qed.

Lemma halt_restores_terminal (input bs : list Z) (feed : list (list Z)) :
  exists m,
    main [("halt.obj"%string, Some halt_image)] (bs :: feed) (boot input cooked)
      = Exited 0 m /\
    tty m = cooked /\ stdout m = bytes_of_string "HALT" ++ newline.
Proof.
  destruct feed; eexists; (split; [vm_compute; reflexivity|]);
    split; reflexivity.
Qed.

(** * Further properties of the code *)

(** ** Byte order *)

Lemma byte_pair_split (h l : Z) :
  0 <= l < 256 -> (256 * h + l) mod 256 = l /\ (256 * h + l) / 256 = h.
Proof.
  intros Hl. split.
  - symmetry. apply (Z.mod_unique _ _ h); lia.
  - symmetry. apply (Z.div_unique _ _ _ l); lia.
Qed.

Lemma lor_disjoint (a b : Z) : Z.land a b = 0 -> Z.lor a b = a + b.
Proof. intros H. pose proof (Z.add_lor_land a b). lia. Qed.

Lemma byte_pair_lor (h l : Z) :
  0 <= l < 256 -> Z.lor (Z.shiftl h 8) l = 256 * h + l.
Proof.
  intros Hl. rewrite lor_disjoint.
  - rewrite Z.shiftl_mul_pow2 by lia. change (2 ^ 8) with 256. lia.
  - apply Z.bits_inj'. intros i Hi. rewrite Z.land_spec, Z.bits_0.
    destruct (Z.lt_ge_cases i 8).
    + rewrite Z.shiftl_spec_low by lia. reflexivity.
    + rewrite (small_high_bits l 8 i) by (change (2 ^ 8) with 256; lia).
      apply andb_false_r.
Qed.

(** [swap16] exchanges the two bytes of a 16-bit value. *)
Lemma swap16_bytes (x : Z) :
  0 <= x < 65536 -> swap16 x = 256 * (x mod 256) + x / 256.
Proof.
  intros Hx.
  assert (Hh : 0 <= x / 256 < 256)
    by (split; [apply Z.div_pos; lia | apply Z.div_lt_upper_bound; lia]).
  pose proof (Z.mod_pos_bound x 256 ltac:(lia)) as Hl.
  rewrite <- byte_pair_lor by exact Hh.
  unfold swap16. apply Z.bits_inj'. intros i Hi.
  rewrite to_u16_bits, !Z.lor_spec.
  replace (x / 256) with (Z.shiftr x 8)
    by (rewrite Z.shiftr_div_pow2 by lia; reflexivity).
  rewrite !Z.shiftl_spec by lia.
  change 256 with (2 ^ 8). rewrite Z.testbit_mod_pow2 by lia.
  rewrite Z.shiftr_spec by lia.
  destruct (Z.ltb_spec i 16) as [Hlt | Hge].
  - destruct (Z.ltb_spec (i - 8) 8); [reflexivity | lia].
  - rewrite (u16_high_bits x (i + 8)) by lia.
    destruct (Z.ltb_spec (i - 8) 8); [lia | reflexivity].
Qed.

Lemma swap16_range (x : Z) : 0 <= swap16 x < 65536.
Proof. apply to_u16_range. Qed.

(** X1: swapping the bytes of a 16-bit value twice gives the value back. *)
Theorem swap16_involutive (x : Z) :
  0 <= x < 65536 -> swap16 (swap16 x) = x.
Proof.
  intros Hx.
  assert (Hh : 0 <= x / 256 < 256)
    by (split; [apply Z.div_pos; lia | apply Z.div_lt_upper_bound; lia]).
  pose proof (Z.mod_pos_bound x 256 ltac:(lia)) as Hl.
  rewrite (swap16_bytes (swap16 x)) by apply swap16_range.
  rewrite (swap16_bytes x Hx).
  destruct (byte_pair_split (x mod 256) (x / 256) Hh) as [-> ->].
  rewrite (Z.div_mod x 256) at 3 by lia. lia.
Qed.

Lemma swap16_involutive_witness : swap16 (swap16 0x1234) = 0x1234.
Proof. apply (swap16_involutive 0x1234). lia. Defined.

(** The item [fread] assembles on the little-endian host from the file
    bytes [b0 b1] is turned by [swap16] into the big-endian word
    [256 * b0 + b1]. *)
Lemma swap16_le_item (b0 b1 : Z) :
  is_byte b0 -> is_byte b1 -> swap16 (b0 + 256 * b1) = 256 * b0 + b1.
Proof.
  unfold is_byte. intros H0 H1.
  rewrite swap16_bytes by lia.
  replace (b0 + 256 * b1) with (256 * b1 + b0) by lia.
  destruct (byte_pair_split b1 b0 H0) as [-> ->]. reflexivity.
Qed.

(** ** Image loader, origins other than 0 *)

Lemma fread16_items (count : nat) (file : list Z) :
  Forall is_byte file ->
  map swap16 (fread16 count file) = firstn count (be_words file) /\
  Forall (fun w => 0 <= w < 65536) (fread16 count file).
Proof.
  revert file. induction count as [| n IH]; intros file Hb.
  - destruct file; split; constructor.
  - destruct file as [| b0 [| b1 file']]; try (split; constructor).
    inversion Hb as [| ? ? H0 Hb1]; subst.
    inversion Hb1 as [| ? ? H1 Hb']; subst.
    destruct (IH file' Hb') as [IHm IHr].
    cbn [fread16 be_words firstn map]. split.
    + rewrite IHm, (swap16_le_item b0 b1 H0 H1). reflexivity.
    + constructor; [unfold is_byte in *; lia | exact IHr].
Qed.

Lemma store_items_frame (items : list Z) (p : Z) (m : machine) :
  reg (store_items p items m) = reg m /\
  running (store_items p items m) = running m /\
  orig_tio (store_items p items m) = orig_tio m /\
  stdin (store_items p items m) = stdin m /\
  buffered (store_items p items m) = buffered m /\
  bufsiz (store_items p items m) = bufsiz m /\
  in_ops (store_items p items m) = in_ops m /\
  stdout (store_items p items m) = stdout m /\
  tty (store_items p items m) = tty m.
Proof.
  revert p m. induction items as [| w items IH]; intros p m.
  - repeat split.
  - cbn [store_items]. apply (IH (p + 1) (store_mem p w m)).
Qed.

Lemma store_items_outside (items : list Z) (p a : Z) (m : machine) :
  a < p \/ p + Z.of_nat (List.length items) <= a ->
  memory (store_items p items m) a = memory m a.
Proof.
  revert p m. induction items as [| w items IH]; intros p m Ha.
  - reflexivity.
  - cbn [store_items List.length] in *. rewrite IH by lia.
    cbn [store_mem memory]. apply upd_other. lia.
Qed.

Lemma store_items_inside (items : list Z) (p : Z) (i : nat) (m : machine) :
  (i < List.length items)%nat ->
  memory (store_items p items m) (p + Z.of_nat i) = to_u16 (nth i items 0).
Proof.
  revert p i m. induction items as [| w items IH]; intros p i m Hi.
  - cbn in Hi. lia.
  - cbn [store_items List.length] in *. destruct i as [| j].
    + rewrite store_items_outside by lia.
      rewrite Z.add_0_r. cbn [store_mem memory nth]. apply upd_same.
    + replace (p + Z.of_nat (S j)) with (p + 1 + Z.of_nat j) by lia.
      rewrite IH by lia. reflexivity.
Qed.

Lemma swap_loop_frame (read : nat) (p : Z) (m : machine) :
  reg (swap_loop read p m) = reg m /\
  running (swap_loop read p m) = running m /\
  orig_tio (swap_loop read p m) = orig_tio m /\
  stdin (swap_loop read p m) = stdin m /\
  buffered (swap_loop read p m) = buffered m /\
  bufsiz (swap_loop read p m) = bufsiz m /\
  in_ops (swap_loop read p m) = in_ops m /\
  stdout (swap_loop read p m) = stdout m /\
  tty (swap_loop read p m) = tty m.
Proof.
  revert p m. induction read as [| n IH]; intros p m.
  - repeat split.
  - cbn [swap_loop]. apply (IH (p + 1) (store_mem p _ m)).
Qed.

Lemma swap_loop_outside (read : nat) (p a : Z) (m : machine) :
  a < p \/ p + Z.of_nat read <= a ->
  memory (swap_loop read p m) a = memory m a.
Proof.
  revert p m. induction read as [| n IH]; intros p m Ha.
  - reflexivity.
  - cbn [swap_loop]. rewrite IH by lia.
    cbn [store_mem memory]. apply upd_other. lia.
Qed.

Lemma swap_loop_inside (read : nat) (p : Z) (i : nat) (m : machine) :
  (i < read)%nat ->
  memory (swap_loop read p m) (p + Z.of_nat i)
    = swap16 (memory m (p + Z.of_nat i)).
Proof.
  revert p i m. induction read as [| n IH]; intros p i m Hi; [lia|].
  cbn [swap_loop]. destruct i as [| j].
  - rewrite swap_loop_outside by lia.
    rewrite Z.add_0_r. cbn [store_mem memory]. rewrite upd_same.
    apply to_u16_small, swap16_range.
  - replace (p + Z.of_nat (S j)) with (p + 1 + Z.of_nat j) by lia.
    rewrite IH by lia. cbn [store_mem memory].
    rewrite upd_other by lia. reflexivity.
Qed.

Lemma fread16_odd_spec (count : nat) (file : list Z) :
  fread16_odd count file =
  if (List.length (be_words file) <? count)%nat then odd_byte file else None.
Proof.
  revert file. induction count as [| n IH]; intros file.
  - destruct file; reflexivity.
  - destruct file as [| b0 [| b1 file']]; [reflexivity | reflexivity |].
    cbn [fread16_odd be_words odd_byte List.length].
    rewrite IH. reflexivity.
Qed.

Lemma store_odd_frame (p : Z) (odd : option Z) (m : machine) :
  reg (store_odd p odd m) = reg m /\
  running (store_odd p odd m) = running m /\
  orig_tio (store_odd p odd m) = orig_tio m /\
  stdin (store_odd p odd m) = stdin m /\
  buffered (store_odd p odd m) = buffered m /\
  bufsiz (store_odd p odd m) = bufsiz m /\
  in_ops (store_odd p odd m) = in_ops m /\
  stdout (store_odd p odd m) = stdout m /\
  tty (store_odd p odd m) = tty m.
Proof. destruct odd; repeat split. Qed.

Lemma store_odd_outside (p a : Z) (odd : option Z) (m : machine) :
  a <> p \/ odd = None -> memory (store_odd p odd m) a = memory m a.
Proof.
  intros H. destruct odd as [b |]; [|reflexivity].
  destruct H as [H | H]; [|discriminate H].
  cbn [store_odd store_mem memory]. apply upd_other. exact H.
Qed.

Lemma high_byte_mask (v : Z) :
  0 <= v < 65536 -> Z.land v 0xFF00 = Z.shiftl (Z.shiftr v 8) 8.
Proof.
  intros Hv. apply Z.bits_inj'. intros i Hi.
  rewrite Z.land_spec. change 0xFF00 with (Z.shiftl (Z.ones 8) 8).
  destruct (Z.lt_ge_cases i 8) as [Hlow | Hhigh].
  - rewrite !Z.shiftl_spec_low by lia. apply andb_false_r.
  - rewrite !Z.shiftl_spec, Z.shiftr_spec by lia.
    replace (i - 8 + 8) with i by lia.
    destruct (Z.lt_ge_cases i 16) as [Hin | Hout].
    + rewrite Z.ones_spec_low by lia. apply andb_true_r.
    + rewrite (u16_high_bits v i) by lia. reflexivity.
Qed.

(** The cell that receives the odd last byte: low byte replaced, high
    byte kept. *)
Lemma store_odd_cell (p b : Z) (m : machine) :
  0 <= memory m p < 65536 -> is_byte b ->
  memory (store_odd p (Some b) m) p = 256 * (memory m p / 256) + b.
Proof.
  unfold is_byte. intros Hv Hb.
  cbn [store_odd store_mem memory]. rewrite upd_same.
  rewrite high_byte_mask by exact Hv.
  rewrite byte_pair_lor by exact Hb.
  rewrite Z.shiftr_div_pow2 by lia. change (2 ^ 8) with 256.
  apply to_u16_small.
  assert (0 <= memory m p / 256 < 256)
    by (split; [apply Z.div_pos; lia | apply Z.div_lt_upper_bound; lia]).
  lia.
Qed.

Lemma odd_byte_is_byte (bytes : list Z) (b : Z) :
  Forall is_byte bytes -> odd_byte bytes = Some b -> is_byte b.
Proof.
  intros H. rewrite Forall_forall in H. revert b.
  assert (G : forall n bs, (List.length bs <= n)%nat ->
                (forall x, In x bs -> In x bytes) ->
                forall b, odd_byte bs = Some b -> is_byte b).
  { induction n as [| n IH]; intros bs Hn Hin b Hb.
    - destruct bs; [discriminate Hb | cbn in Hn; lia].
    - destruct bs as [| b0 [| b1 bs']]; [discriminate Hb | |].
      + injection Hb as <-. apply H, Hin. left. reflexivity.
      + cbn [odd_byte] in Hb. apply (IH bs'); [cbn in Hn; lia | | exact Hb].
        intros x Hx. apply Hin. right. right. exact Hx. }
  intros b. apply (G (List.length bytes) bytes); auto.
Qed.

(** What [read_image_file] does with an image whose origin is not 0. *)
Lemma read_image_file_stores
    (hi lo : Z) (rest : list Z) (m : machine) :
  is_byte hi -> is_byte lo -> Forall is_byte rest ->
  256 * hi + lo <> 0 ->
  exists m',
    read_image_file (hi :: lo :: rest) m = Ret tt m' /\
    (forall i,
       (i < List.length (image_words (256 * hi + lo) rest))%nat ->
       memory m' (256 * hi + lo + Z.of_nat i)
         = nth i (image_words (256 * hi + lo) rest) 0) /\
    (forall b,
       odd_byte rest = Some b ->
       image_end (256 * hi + lo) rest < 65536 ->
       0 <= memory m (image_end (256 * hi + lo) rest) < 65536 ->
       memory m' (image_end (256 * hi + lo) rest)
         = 256 * (memory m (image_end (256 * hi + lo) rest) / 256) + b) /\
    (forall a,
       a < 256 * hi + lo \/ image_end (256 * hi + lo) rest < a \/
       (a = image_end (256 * hi + lo) rest /\ odd_byte rest = None) ->
       memory m' a = memory m a) /\
    reg m' = reg m /\ running m' = running m /\ stdin m' = stdin m /\
    buffered m' = buffered m /\ bufsiz m' = bufsiz m /\
    in_ops m' = in_ops m /\ stdout m' = stdout m /\ tty m' = tty m.
Proof.
  intros Hhi Hlo Hrest Hne.
  unfold image_end, image_words.
  set (origin := 256 * hi + lo) in *.
  assert (Ho : 0 < origin < 65536) by (unfold is_byte, origin in *; lia).
  unfold read_image_file. cbn [fread16 skipn].
  rewrite (swap16_le_item hi lo Hhi Hlo). fold origin.
  change MAX_MEMORY with 65536. rewrite (to_u16_small (65536 - origin)) by lia.
  destruct (fread16_items (Z.to_nat (65536 - origin)) rest Hrest)
    as [Hmap Hrange].
  rewrite fread16_odd_spec.
  set (count := Z.to_nat (65536 - origin)) in *.
  set (items := fread16 count rest) in *.
  rewrite <- Hmap. rewrite length_map.
  set (n := List.length items).
  assert (Hn : n = Nat.min count (List.length (be_words rest))).
  { unfold n. rewrite <- (length_map swap16 items), Hmap.
    apply length_firstn. }
  set (odd := if (List.length (be_words rest) <? count)%nat
              then odd_byte rest else None).
  unfold bind, modify. eexists. split; [reflexivity|].
  destruct (swap_loop_frame n origin
              (store_odd (origin + Z.of_nat n) odd
                 (store_items origin items m)))
    as (S1 & S2 & _ & S4 & S5 & S6 & S7 & S8 & S9).
  destruct (store_odd_frame (origin + Z.of_nat n) odd
              (store_items origin items m))
    as (O1 & O2 & _ & O4 & O5 & O6 & O7 & O8 & O9).
  destruct (store_items_frame items origin m)
    as (T1 & T2 & _ & T4 & T5 & T6 & T7 & T8 & T9).
  split; [|split; [|split]].
  - intros i Hi. rewrite swap_loop_inside by exact Hi.
    rewrite store_odd_outside by (left; lia).
    rewrite store_items_inside by exact Hi.
    rewrite Forall_forall in Hrange.
    rewrite to_u16_small by (apply Hrange, nth_In; exact Hi).
    change 0 with (swap16 0) at 2. rewrite map_nth. reflexivity.
  - intros b Hb Hroom Hcell.
    rewrite swap_loop_outside by lia.
    assert (Hodd : odd = Some b).
    { unfold odd.
      replace (List.length (be_words rest) <? count)%nat with true;
        [exact Hb|].
      symmetry. apply Nat.ltb_lt. unfold count in *. lia. }
    rewrite Hodd, store_odd_cell.
    + rewrite store_items_outside by (fold n; lia). reflexivity.
    + rewrite store_items_outside by (fold n; lia). exact Hcell.
    + apply (odd_byte_is_byte rest b Hrest Hb).
  - intros a Ha.
    assert (Hout : a < origin \/ origin + Z.of_nat n <= a) by lia.
    rewrite swap_loop_outside by exact Hout.
    rewrite store_odd_outside.
    + apply store_items_outside. exact Hout.
    + destruct Ha as [Ha | [Ha | [Ha Hnone]]]; [left; lia | left; lia |].
      right. unfold odd. rewrite Hnone.
      destruct (List.length (be_words rest) <? count)%nat; reflexivity.
  - rewrite S1, S2, S4, S5, S6, S7, S8, S9.
    rewrite O1, O2, O4, O5, O6, O7, O8, O9.
    repeat split; assumption.
Qed.

(** X2: an image whose origin is not 0 is loaded as follows.  The first
    two bytes give the origin, big-endian; of the words that follow, as
    many as fit between the origin and the top of memory are stored from
    the origin on, each read big-endian; words beyond 0xFFFF are dropped.
    A file that ends with an odd byte leaves that byte in the low byte of
    the cell after the last word, if there is one, whose high byte stays.
    No other cell, no register and nothing on the host changes. *)
Theorem read_image_file_loads
    (hi lo : Z) (rest : list Z) (m : machine) :
  is_byte hi -> is_byte lo -> Forall is_byte rest ->
  256 * hi + lo <> 0 ->
  exists m',
    read_image_file (hi :: lo :: rest) m = Ret tt m' /\
    (forall i,
       (i < List.length (image_words (256 * hi + lo) rest))%nat ->
       memory m' (256 * hi + lo + Z.of_nat i)
         = nth i (image_words (256 * hi + lo) rest) 0) /\
    (forall b,
       odd_byte rest = Some b ->
       image_end (256 * hi + lo) rest < 65536 ->
       0 <= memory m (image_end (256 * hi + lo) rest) < 65536 ->
       memory m' (image_end (256 * hi + lo) rest)
         = 256 * (memory m (image_end (256 * hi + lo) rest) / 256) + b) /\
    (forall a,
       a < 256 * hi + lo \/ image_end (256 * hi + lo) rest < a \/
       (a = image_end (256 * hi + lo) rest /\ odd_byte rest = None) ->
       memory m' a = memory m a) /\
    reg m' = reg m /\ running m' = running m /\ stdin m' = stdin m /\
    buffered m' = buffered m /\ bufsiz m' = bufsiz m /\
    in_ops m' = in_ops m /\ stdout m' = stdout m /\ tty m' = tty m.
Proof. exact (read_image_file_stores hi lo rest m). Qed.

(** The image 30 00 F0 25 12, one word and an odd byte, read into a memory
    whose cell 0x3001 holds 0xABCD: 0x3000 receives 0xF025, 0x3001 becomes
    0xAB12, and 0x3002 is untouched. *)
Lemma read_image_file_loads_witness :
  exists m',
    read_image_file (0x30 :: 0x00 :: [0xF0; 0x25; 0x12]) stale_cells
      = Ret tt m' /\
    memory m' 0x3000 = 0xF025 /\
    memory m' 0x3001 = 0xAB12 /\
    memory m' 0x3002 = 0x5678 /\ memory m' 0x2FFF = 0x4321 /\
    reg m' = reg stale_cells /\ running m' = running stale_cells /\
    stdin m' = stdin stale_cells /\
    buffered m' = buffered stale_cells /\ bufsiz m' = bufsiz stale_cells /\
    in_ops m' = in_ops stale_cells /\
    stdout m' = stdout stale_cells /\ tty m' = tty stale_cells.
Proof.
  destruct (read_image_file_loads 0x30 0x00 [0xF0; 0x25; 0x12] stale_cells)
    as (m' & Hrun & Hin & Hodd & Hout & Hrest).
  - unfold is_byte. lia.
  - unfold is_byte. lia.
  - repeat constructor; unfold is_byte; lia.
  - discriminate.
  - exists m'. split; [exact Hrun|].
    split; [exact (Hin 0%nat ltac:(vm_compute; lia))|].
    split; [exact (Hodd 0x12 eq_refl ltac:(vm_compute; reflexivity)
                     ltac:(vm_compute; split;
                            [intro H; discriminate H | reflexivity]))|].
    split; [exact (Hout 0x3002 ltac:(right; left; vm_compute; reflexivity))|].
    split; [exact (Hout 0x2FFF ltac:(left; vm_compute; reflexivity))|].
    exact Hrest.
Defined.

(** ** Immediates as signed numbers *)

Lemma land_ones_range (x k : Z) :
  0 <= k -> 0 <= Z.land x (Z.ones k) < 2 ^ k.
Proof.
  intros Hk. rewrite Z.land_ones by exact Hk.
  apply Z.mod_pos_bound. apply Z.pow_pos_nonneg; lia.
Qed.

Lemma pow2_le_65536 (n : Z) : 0 < n <= 16 -> 0 < 2 ^ n <= 65536.
Proof.
  intros Hn. split; [apply Z.pow_pos_nonneg; lia|].
  change 65536 with (2 ^ 16). apply Z.pow_le_mono_r; lia.
Qed.

Lemma pow2_double (n : Z) : 0 < n -> 2 ^ n = 2 * 2 ^ (n - 1).
Proof.
  intros Hn. replace n with (Z.succ (n - 1)) at 1 by lia.
  apply Z.pow_succ_r. lia.
Qed.

Lemma field_sign_bit (x n : Z) :
  0 < n -> 0 <= x < 2 ^ n ->
  Z.testbit x (n - 1) = negb (x <? 2 ^ (n - 1)).
Proof.
  intros Hn Hx. pose proof (pow2_double n Hn) as Hd.
  assert (Hp : 0 < 2 ^ (n - 1)) by (apply Z.pow_pos_nonneg; lia).
  destruct (Z.ltb_spec x (2 ^ (n - 1))) as [Hlt | Hge]; cbn [negb].
  - apply (small_high_bits x (n - 1)); lia.
  - apply Z.testbit_true; [lia|].
    replace (x / 2 ^ (n - 1)) with 1; [reflexivity|].
    apply (Z.div_unique x (2 ^ (n - 1)) 1 (x - 2 ^ (n - 1))); lia.
Qed.

Lemma sign_extend_field_value (x n : Z) :
  0 < n <= 16 -> 0 <= x < 2 ^ n ->
  sign_extend x n = to_u16 (signed_field x n).
Proof.
  intros Hn Hx.
  pose proof (pow2_double n ltac:(lia)) as Hd.
  pose proof (pow2_le_65536 n Hn) as Hp.
  rewrite sign_extend_eq by lia.
  rewrite (field_sign_bit x n) by lia. unfold signed_field.
  destruct (Z.ltb_spec x (2 ^ (n - 1))) as [Hlt | Hge]; cbn [negb].
  - symmetry. apply to_u16_small. lia.
  - rewrite lor_disjoint.
    + rewrite Z.shiftl_mul_pow2 by lia. unfold to_u16.
      replace (x + 0xFFFF * 2 ^ n) with (x - 2 ^ n + 2 ^ n * 65536) by lia.
      apply Z_mod_plus_full.
    + apply Z.bits_inj'. intros i Hi. rewrite Z.land_spec, Z.bits_0.
      destruct (Z.lt_ge_cases i n).
      * rewrite Z.shiftl_spec_low by lia. apply andb_false_r.
      * rewrite (small_high_bits x n i) by lia. reflexivity.
Qed.

Lemma signed_field_range (x n : Z) :
  0 < n -> 0 <= x < 2 ^ n ->
  - 2 ^ (n - 1) <= signed_field x n < 2 ^ (n - 1).
Proof.
  intros Hn Hx. pose proof (pow2_double n Hn) as Hd. unfold signed_field.
  destruct (Z.ltb_spec x (2 ^ (n - 1))); lia.
Qed.

(** X3: on an [n]-bit field, [sign_extend] yields the 16-bit
    two's-complement encoding of the field read as a signed number, which
    lies between [-2^(n-1)] and [2^(n-1) - 1]. *)
Theorem sign_extend_signed (x n : Z) :
  0 < n <= 16 -> 0 <= x < 2 ^ n ->
  sign_extend x n = to_u16 (signed_field x n) /\
  - 2 ^ (n - 1) <= signed_field x n < 2 ^ (n - 1).
Proof.
  intros Hn Hx. split.
  - apply sign_extend_field_value; assumption.
  - apply signed_field_range; [lia | exact Hx].
Qed.

Lemma sign_extend_signed_witness :
  sign_extend 0x1F 5 = to_u16 (signed_field 0x1F 5) /\
  - 2 ^ (5 - 1) <= signed_field 0x1F 5 < 2 ^ (5 - 1).
Proof. apply (sign_extend_signed 0x1F 5); vm_compute; split; congruence. Defined.

Lemma to_u16_add_r (a b : Z) : to_u16 (a + to_u16 b) = to_u16 (a + b).
Proof. unfold to_u16. apply Z.add_mod_idemp_r. lia. Qed.

(** An address or sum formed with a sign-extended instruction field is the
    base plus the signed field, modulo 2^16. *)
Lemma add_sign_extended (a instr n : Z) :
  0 < n <= 16 ->
  to_u16 (a + sign_extend (Z.land instr (Z.ones n)) n)
    = to_u16 (a + signed_field (Z.land instr (Z.ones n)) n).
Proof.
  intros Hn.
  rewrite (sign_extend_field_value (Z.land instr (Z.ones n)) n Hn)
    by (apply land_ones_range; lia).
  apply to_u16_add_r.
Qed.

(** ** Arithmetic instructions *)

(** X4: ADD writes to DR the 16-bit wrap-around sum of SR1 and, in
    immediate mode (bit 5 set), the signed 5-bit immediate, a number from
    -16 to 15; in register mode, SR2. *)
Theorem op_add_result (instr : Z) (m : machine) :
  let dr := Z.land (Z.shiftr instr 9) 0x7 in
  let sr1 := Z.land (Z.shiftr instr 6) 0x7 in
  let sr2 := Z.land instr 0x7 in
  let imm5 := signed_field (Z.land instr 0x1F) 5 in
  (Z.land (Z.shiftr instr 5) 0x1 <> 0 ->
   reg (op_add instr m) dr = (reg m sr1 + imm5) mod 65536 /\
   -16 <= imm5 <= 15) /\
  (Z.land (Z.shiftr instr 5) 0x1 = 0 ->
   reg (op_add instr m) dr = (reg m sr1 + reg m sr2) mod 65536).
Proof.
  intros dr sr1 sr2 imm5.
  pose proof (land7_range (Z.shiftr instr 9)) as Hdr. fold dr in Hdr.
  split; intros Hmode; unfold op_add; fold dr sr1 sr2.
  - destruct (Z.eqb_spec (Z.land (Z.shiftr instr 5) 1) 0) as [E | _];
      [contradiction|]. cbn [negb].
    destruct (flags_after_write dr
                (reg m sr1 + sign_extend (Z.land instr 0x1F) 5) m Hdr)
      as [-> _].
    split.
    + apply (add_sign_extended (reg m sr1) instr 5). lia.
    + pose proof (signed_field_range (Z.land instr 0x1F) 5 ltac:(lia)
                    (land_ones_range instr 5 ltac:(lia))) as Hr.
      change (2 ^ (5 - 1)) with 16 in Hr. fold imm5 in Hr. lia.
  - rewrite Hmode. cbn [Z.eqb negb].
    destruct (flags_after_write dr (reg m sr1 + reg m sr2) m Hdr) as [-> _].
    reflexivity.
Qed.

Lemma op_add_result_witness :
  (reg (op_add 0x103F (at_start 0x103F [])) (Z.land (Z.shiftr 0x103F 9) 0x7)
     = (reg (at_start 0x103F []) (Z.land (Z.shiftr 0x103F 6) 0x7)
        + signed_field (Z.land 0x103F 0x1F) 5) mod 65536 /\
   -16 <= signed_field (Z.land 0x103F 0x1F) 5 <= 15) /\
  reg (op_add 0x1042 (at_start 0x1042 [])) (Z.land (Z.shiftr 0x1042 9) 0x7)
    = (reg (at_start 0x1042 []) (Z.land (Z.shiftr 0x1042 6) 0x7)
       + reg (at_start 0x1042 []) (Z.land 0x1042 0x7)) mod 65536.
Proof.
  split.
  - apply (proj1 (op_add_result 0x103F (at_start 0x103F []))). discriminate.
  - apply (proj2 (op_add_result 0x1042 (at_start 0x1042 []))). reflexivity.
Defined.

(** ADD R0, R0, #-1 on R0 = 0 gives 0xFFFF and the negative flag. *)
Example add_minus_one_wraps :
  let m := op_add 0x103F (at_start 0x103F []) in
  reg m R_R0 = 0xFFFF /\ reg m R_COND = FL_NEG.
Proof. vm_compute. split; reflexivity. Qed.

Lemma lnot_u16 (x : Z) : 0 <= x < 65536 -> to_u16 (Z.lnot x) = 65535 - x.
Proof.
  intros Hx. unfold to_u16, Z.lnot.
  symmetry. apply (Z.mod_unique _ _ (-1)); lia.
Qed.

(** X5: on 16-bit registers NOT writes the one's complement [65535 - SR]
    to DR, so applying it to its own result restores the value. *)
Theorem op_not_result (instr : Z) (m : machine) :
  well_formed m ->
  let dr := Z.land (Z.shiftr instr 9) 0x7 in
  let sr := Z.land (Z.shiftr instr 6) 0x7 in
  reg (op_not instr m) dr = 65535 - reg m sr /\
  (forall again,
     Z.land (Z.shiftr again 6) 0x7 = dr ->
     reg (op_not again (op_not instr m)) (Z.land (Z.shiftr again 9) 0x7)
       = reg m sr).
Proof.
  intros [_ Hreg] dr sr.
  pose proof (land7_range (Z.shiftr instr 9)) as Hdr. fold dr in Hdr.
  assert (H1 : reg (op_not instr m) dr = 65535 - reg m sr).
  { unfold op_not. fold dr sr.
    destruct (flags_after_write dr (Z.lnot (reg m sr)) m Hdr) as [-> _].
    apply lnot_u16, Hreg. }
  split; [exact H1|].
  intros again Hsrc.
  pose proof (land7_range (Z.shiftr again 9)) as Hdr2.
  unfold op_not at 1. rewrite Hsrc.
  destruct (flags_after_write (Z.land (Z.shiftr again 9) 7)
              (Z.lnot (reg (op_not instr m) dr)) (op_not instr m) Hdr2)
    as [-> _].
  rewrite H1, lnot_u16; [lia|]. specialize (Hreg sr). lia.
Qed.

Lemma op_not_result_witness :
  reg (op_not 0x903F (at_start 0x903F [])) (Z.land (Z.shiftr 0x903F 9) 0x7)
    = 65535 - reg (at_start 0x903F []) (Z.land (Z.shiftr 0x903F 6) 0x7) /\
  (forall again,
     Z.land (Z.shiftr again 6) 0x7 = Z.land (Z.shiftr 0x903F 9) 0x7 ->
     reg (op_not again (op_not 0x903F (at_start 0x903F [])))
         (Z.land (Z.shiftr again 9) 0x7)
       = reg (at_start 0x903F []) (Z.land (Z.shiftr 0x903F 6) 0x7)).
Proof.
  apply (op_not_result 0x903F (at_start 0x903F [])).
  unfold at_start.
  apply well_formed_store_mem, well_formed_store_reg, well_formed_store_reg.
  apply well_formed_boot.
Defined.

(** ** Control transfer *)

(** X6: BR with no condition bit set never branches; with all three set it
    branches whenever COND holds a flag; the target is PC plus the signed
    9-bit offset, a number from -256 to 255, modulo 2^16. *)
Theorem op_br_decision (instr : Z) (m : machine) :
  let nzp := Z.land (Z.shiftr instr 9) 0x7 in
  let offset := signed_field (Z.land instr 0x1FF) 9 in
  (nzp = 0 -> op_br instr m = m) /\
  (nzp = 7 ->
   reg m R_COND = FL_POS \/ reg m R_COND = FL_ZRO \/ reg m R_COND = FL_NEG ->
   reg (op_br instr m) R_PC = (reg m R_PC + offset) mod 65536 /\
   -256 <= offset <= 255 /\
   forall r, r <> R_PC -> reg (op_br instr m) r = reg m r).
Proof.
  intros nzp offset. split.
  - intros H. unfold op_br. fold nzp. rewrite H. reflexivity.
  - intros H Hc. unfold op_br. fold nzp. rewrite H.
    assert (Htaken : negb (Z.land 7 (reg m R_COND) =? 0) = true)
      by (destruct Hc as [-> | [-> | ->]]; reflexivity).
    rewrite Htaken. unfold store_reg. cbn [reg]. split; [|split].
    + rewrite upd_same. apply (add_sign_extended (reg m R_PC) instr 9). lia.
    + pose proof (signed_field_range (Z.land instr 0x1FF) 9 ltac:(lia)
                    (land_ones_range instr 9 ltac:(lia))) as Hr.
      change (2 ^ (9 - 1)) with 256 in Hr. fold offset in Hr. lia.
    + intros r Hr. apply upd_other. exact Hr.
Qed.

Lemma op_br_decision_witness :
  op_br 0x01FF (at_start 0x01FF []) = at_start 0x01FF [] /\
  (reg (op_br 0x0FFE (at_start 0x0FFE [])) R_PC
     = (reg (at_start 0x0FFE []) R_PC
        + signed_field (Z.land 0x0FFE 0x1FF) 9) mod 65536 /\
   -256 <= signed_field (Z.land 0x0FFE 0x1FF) 9 <= 255 /\
   forall r, r <> R_PC ->
     reg (op_br 0x0FFE (at_start 0x0FFE [])) r = reg (at_start 0x0FFE []) r).
Proof.
  split.
  - apply (proj1 (op_br_decision 0x01FF (at_start 0x01FF []))). reflexivity.
  - apply (proj2 (op_br_decision 0x0FFE (at_start 0x0FFE []))).
    + reflexivity.
    + right. left. reflexivity.
Defined.

(** X7: a call and its return.  Whatever the mode of the JSR, a JMP
    through R7 executed on its result puts PC back to the value it had when
    the JSR ran, the address of the instruction after the call; in offset
    mode the call itself goes to PC plus the signed 11-bit offset. *)
Theorem jsr_then_ret (call ret_instr : Z) (m : machine) :
  well_formed m ->
  Z.land (Z.shiftr ret_instr 6) 0x7 = R_R7 ->
  reg (op_jmp ret_instr (op_jsr call m)) R_PC = reg m R_PC /\
  (Z.land (Z.shiftr call 11) 0x1 <> 0 ->
   reg (op_jsr call m) R_PC
     = (reg m R_PC + signed_field (Z.land call 0x7FF) 11) mod 65536).
Proof.
  intros [_ Hreg] Hret. split.
  - unfold op_jmp. rewrite Hret. unfold store_reg at 1. cbn [reg].
    rewrite upd_same.
    assert (H7 : reg (op_jsr call m) R_R7 = to_u16 (reg m R_PC)).
    { unfold op_jsr.
      destruct (negb (Z.land (Z.shiftr call 11) 1 =? 0)); reflexivity. }
    rewrite H7, !to_u16_small; [reflexivity | apply Hreg |].
    rewrite to_u16_small by apply Hreg. apply Hreg.
  - intros Hmode. destruct (op_jsr_offset_mode call m Hmode) as [-> _].
    apply (add_sign_extended (reg m R_PC) call 11). lia.
Qed.

Lemma jsr_then_ret_witness :
  reg (op_jmp 0xC1C0 (op_jsr 0x4802 (at_start 0x4802 []))) R_PC
    = reg (at_start 0x4802 []) R_PC /\
  reg (op_jsr 0x4802 (at_start 0x4802 [])) R_PC
    = (reg (at_start 0x4802 []) R_PC
       + signed_field (Z.land 0x4802 0x7FF) 11) mod 65536.
Proof.
  assert (Hwf : well_formed (at_start 0x4802 [])).
  { unfold at_start.
    apply well_formed_store_mem, well_formed_store_reg, well_formed_store_reg.
    apply well_formed_boot. }
  split.
  - apply (proj1 (jsr_then_ret 0x4802 0xC1C0 (at_start 0x4802 [])
                    Hwf eq_refl)).
  - apply (proj2 (jsr_then_ret 0x4802 0xC1C0 (at_start 0x4802 [])
                    Hwf eq_refl)).
    discriminate.
Defined.

(** ** Loads and stores *)

(** X8: STR followed by LDR through the same base register and offset
    reads back the stored register, and sets the flags by it, at every
    address but KBSR. *)
Theorem str_then_ldr (st_instr ld_instr : Z) (m : machine) :
  well_formed m ->
  let sr := Z.land (Z.shiftr st_instr 9) 0x7 in
  let dr := Z.land (Z.shiftr ld_instr 9) 0x7 in
  let base := Z.land (Z.shiftr st_instr 6) 0x7 in
  let address := to_u16 (reg m base + sign_extend (Z.land st_instr 0x3F) 6) in
  Z.land (Z.shiftr ld_instr 6) 0x7 = base ->
  Z.land ld_instr 0x3F = Z.land st_instr 0x3F ->
  address <> MR_KBSR ->
  exists m',
    op_ldr ld_instr (op_str st_instr m) = Ret tt m' /\
    reg m' dr = reg m sr /\ reg m' R_COND = flag_of (reg m sr) /\
    memory m' address = reg m sr /\
    (forall a, a <> address -> memory m' a = memory m a).
Proof.
  intros [_ Hreg] sr dr base address Hbase Hoff Hplain.
  pose proof (land7_range (Z.shiftr ld_instr 9)) as Hdr. fold dr in Hdr.
  unfold op_ldr, op_str, bind, gets, modify. fold sr dr base.
  rewrite Hbase, Hoff. unfold mem_write.
  cbn [store_mem reg]. fold address.
  rewrite (mem_read_plain address _ Hplain).
  set (m1 := store_mem address (reg m sr) m).
  assert (Hv : memory m1 address = reg m sr).
  { unfold m1, store_mem. cbn [memory].
    rewrite upd_same. apply to_u16_small, Hreg. }
  rewrite Hv.
  eexists. split; [reflexivity|].
  destruct (flags_after_write dr (reg m sr) m1 Hdr) as [Hd Hc].
  destruct (update_condition_flags_spec dr (store_reg dr (reg m sr) m1))
    as (_ & _ & Hmem & _).
  { unfold R_COND. lia. }
  { unfold store_reg. cbn [reg]. rewrite upd_same. apply to_u16_range. }
  rewrite Hc, Hd, Hmem, (to_u16_small (reg m sr)) by apply Hreg.
  unfold store_reg, m1, store_mem. cbn [memory].
  split; [reflexivity|]. split; [reflexivity|].
  split; [rewrite upd_same; apply to_u16_small, Hreg|].
  intros a Ha. apply upd_other. exact Ha.
Qed.

(** R0 holds 0x8234 and R1 holds 0x4000: [STR R0, R1, #2] puts 0x8234 in
    the cell at 0x4002, and [LDR R2, R1, #2] brings it into R2, which held
    0x0007, and turns COND from POS to NEG. *)
Lemma str_then_ldr_witness :
  reg busy_registers R_R0 = 0x8234 /\ reg busy_registers R_R2 = 0x0007 /\
  reg busy_registers R_COND = FL_POS /\ memory busy_registers 0x4002 = 0 /\
  exists m',
    op_ldr 0x6442 (op_str 0x7042 busy_registers) = Ret tt m' /\
    reg m' R_R2 = 0x8234 /\
    reg m' R_COND = FL_NEG /\
    memory m' 0x4002 = 0x8234 /\
    (forall a, a <> 0x4002 -> memory m' a = memory busy_registers a).
Proof.
  split; [reflexivity|]. split; [reflexivity|]. split; [reflexivity|].
  split; [reflexivity|].
  apply (str_then_ldr 0x7042 0x6442 busy_registers).
  - unfold busy_registers.
    repeat apply well_formed_store_reg. apply well_formed_boot.
  - reflexivity.
  - reflexivity.
  - discriminate.
Defined.

(** ** Keyboard *)

(** X9: polling the keyboard with LDI through a pointer to KBSR.  When
    the descriptor is readable DR becomes 0x8000 and COND becomes NEG, and
    the oldest unread value is moved to KBDR and leaves the queue.  When it
    is not, DR becomes 0 and COND becomes ZRO, and neither the queue nor
    KBDR changes: values that an earlier read has left in the buffer of the
    stream are not reported.  The instruction never waits. *)
Theorem ldi_polls_keyboard (instr : Z) (m : machine) :
  let dr := Z.land (Z.shiftr instr 9) 0x7 in
  let pointer := to_u16 (reg m R_PC + sign_extend (Z.land instr 0x1FF) 9) in
  pointer <> MR_KBSR ->
  memory m pointer = MR_KBSR ->
  (forall c q, readable m = true -> stdin m = c :: q ->
     exists m',
       op_ldi instr m = Ret tt m' /\
       reg m' dr = 0x8000 /\ reg m' R_COND = FL_NEG /\
       memory m' MR_KBDR = to_u16 c /\ stdin m' = q) /\
  (readable m = false ->
     exists m',
       op_ldi instr m = Ret tt m' /\
       reg m' dr = 0 /\ reg m' R_COND = FL_ZRO /\
       memory m' MR_KBDR = memory m MR_KBDR /\ stdin m' = stdin m).
Proof.
  intros dr pointer Hp Hcell.
  pose proof (land7_range (Z.shiftr instr 9)) as Hdr. fold dr in Hdr.
  assert (Hne : dr <> R_COND) by (unfold R_COND; lia).
  split.
  - intros c q Hr Hq. unfold op_ldi, bind, gets, modify. fold dr pointer.
    rewrite (mem_read_plain pointer m Hp), Hcell.
    rewrite (mem_read_kbsr_ready m c q Hq Hr).
    eexists. split; [reflexivity|].
    match goal with
    | |- context [update_condition_flags dr (store_reg dr ?v ?s)] =>
        destruct (flags_after_write dr v s Hdr) as [Hd Hc];
        destruct (update_condition_flags_spec dr (store_reg dr v s) Hne)
          as (_ & _ & Hmem & _ & Hin & _)
    end.
    { unfold store_reg. cbn [reg]. rewrite upd_same. apply to_u16_range. }
    rewrite Hc, Hd, Hmem, Hin. repeat split.
  - intros Hr. unfold op_ldi, bind, gets, modify. fold dr pointer.
    rewrite (mem_read_plain pointer m Hp), Hcell.
    rewrite (mem_read_kbsr_idle m Hr).
    eexists. split; [reflexivity|].
    match goal with
    | |- context [update_condition_flags dr (store_reg dr ?v ?s)] =>
        destruct (flags_after_write dr v s Hdr) as [Hd Hc];
        destruct (update_condition_flags_spec dr (store_reg dr v s) Hne)
          as (_ & _ & Hmem & _ & Hin & _)
    end.
    { unfold store_reg. cbn [reg]. rewrite upd_same. apply to_u16_range. }
    rewrite Hc, Hd, Hmem, Hin. repeat split.
Qed.

(** First with 'A' and 'B' just delivered; then after a GETC has read 'A'
    and left 'B' in the buffer of the stream. *)
Lemma ldi_polls_keyboard_witness :
  (exists m',
     op_ldi 0xA001 (poll_state (at_start 0xA001 [65; 66])) = Ret tt m' /\
     reg m' (Z.land (Z.shiftr 0xA001 9) 0x7) = 0x8000 /\
     reg m' R_COND = FL_NEG /\
     memory m' MR_KBDR = to_u16 65 /\ stdin m' = [66]) /\
  (exists m',
     op_ldi 0xA001 (poll_state (after_getc [65; 66])) = Ret tt m' /\
     reg m' (Z.land (Z.shiftr 0xA001 9) 0x7) = 0 /\
     reg m' R_COND = FL_ZRO /\
     memory m' MR_KBDR = memory (poll_state (after_getc [65; 66])) MR_KBDR /\
     stdin m' = stdin (poll_state (after_getc [65; 66]))).
Proof.
  split.
  - apply (proj1 (ldi_polls_keyboard 0xA001
                    (poll_state (at_start 0xA001 [65; 66]))
                    ltac:(discriminate) eq_refl) 65 [66]).
    + reflexivity.
    + reflexivity.
  - apply (proj2 (ldi_polls_keyboard 0xA001
                    (poll_state (after_getc [65; 66]))
                    ltac:(discriminate) eq_refl)).
    reflexivity.
Defined.

(** In the second state 'B' is pending all the same: a GETC returns it at
    once. *)
Example buffered_byte_is_pending :
  stdin (poll_state (after_getc [65; 66])) = [66] /\
  readable (poll_state (after_getc [65; 66])) = false /\
  exists m', op_trap 0xF020 (poll_state (after_getc [65; 66])) = Ret tt m' /\
             reg m' R_R0 = 66.
Proof.
  split; [reflexivity|]. split; [reflexivity|].
  eexists. split; vm_compute; reflexivity.
Qed.

(** X10: running code at the KBSR address.  The fetch polls the keyboard
    and executes what it has just put in the cell, never what was stored
    there: when the descriptor is readable the word is 0x8000, an RTI, and
    the interpreter aborts, having taken the oldest unread value; when it
    is not, the word is 0, a branch never taken, and execution goes on at
    0xFE01 with the input as it was. *)
Theorem fetch_at_kbsr (m : machine) :
  reg m R_PC = MR_KBSR ->
  (forall c q, readable m = true -> stdin m = c :: q ->
     exists m',
       step m = Aborted m' /\
       memory m' MR_KBSR = 0x8000 /\ memory m' MR_KBDR = to_u16 c /\
       stdin m' = q) /\
  (readable m = false ->
     exists m',
       step m = Ret tt m' /\
       reg m' R_PC = 0xFE01 /\ memory m' MR_KBSR = 0 /\
       (forall r, r <> R_PC -> reg m' r = reg m r) /\
       stdin m' = stdin m).
Proof.
  intros Hpc. split.
  - intros c q Hr Hq.
    rewrite (step_fetch m _ _ (eq_trans (f_equal (fun a => mem_read a m) Hpc)
                                        (mem_read_kbsr_ready m c q Hq Hr))).
    eexists. split; [reflexivity|]. repeat split.
  - intros Hr.
    rewrite (step_fetch m _ _ (eq_trans (f_equal (fun a => mem_read a m) Hpc)
                                        (mem_read_kbsr_idle m Hr))).
    cbn [reg]. rewrite Hpc.
    eexists. split; [reflexivity|].
    cbn. split; [reflexivity|]. split; [reflexivity|].
    split; [|reflexivity].
    intros r Hr'. apply upd_other. exact Hr'.
Qed.

Lemma fetch_at_kbsr_witness :
  (exists m',
     step (store_reg R_PC MR_KBSR (at_start 0xF025 [65])) = Aborted m' /\
     memory m' MR_KBSR = 0x8000 /\ memory m' MR_KBDR = to_u16 65 /\
     stdin m' = []) /\
  (exists m',
     step (store_reg R_PC MR_KBSR (after_getc [65; 66])) = Ret tt m' /\
     reg m' R_PC = 0xFE01 /\ memory m' MR_KBSR = 0 /\
     (forall r, r <> R_PC ->
        reg m' r = reg (store_reg R_PC MR_KBSR (after_getc [65; 66])) r) /\
     stdin m' = stdin (store_reg R_PC MR_KBSR (after_getc [65; 66]))).
Proof.
  split.
  - apply (proj1 (fetch_at_kbsr
                    (store_reg R_PC MR_KBSR (at_start 0xF025 [65]))
                    eq_refl) 65 []).
    + reflexivity.
    + reflexivity.
  - apply (proj2 (fetch_at_kbsr
                    (store_reg R_PC MR_KBSR (after_getc [65; 66]))
                    eq_refl)).
    reflexivity.
Defined.

Lemma fill_all (cap : nat) (q : list Z) :
  Forall is_byte q -> (List.length q <= cap)%nat -> fill cap q = List.length q.
Proof.
  revert cap. induction q as [| c q IH]; intros cap Hb Hl.
  - destruct cap; reflexivity.
  - destruct cap as [| cap]; [cbn in Hl; lia|].
    inversion Hb as [| ? ? Hc Hq]; subst. unfold is_byte in Hc.
    cbn [fill List.length] in *.
    replace (0 <=? c) with true by (symmetry; apply Z.leb_le; lia).
    replace (c <? 256) with true by (symmetry; apply Z.ltb_lt; lia).
    cbn [andb]. rewrite IH by (auto; lia). reflexivity.
Qed.

(** X23: what a read of KBSR does, in terms of the descriptor.  When the
    descriptor is readable the read returns 0x8000, leaves it in KBSR,
    moves the oldest unread value to KBDR and takes it from the queue.
    When it is not, the read returns 0, leaves it in KBSR and touches
    neither KBDR nor the input.  Nothing else changes either way, and the
    read never waits.  A read that finds the stream's buffer empty and all
    of the pending bytes on the descriptor, no more than the buffer can
    hold, leaves the descriptor not readable: the bytes after the first
    are in the buffer, where the next read of KBSR does not see them. *)
Theorem keyboard_poll (m : machine) :
  (forall c q, readable m = true -> stdin m = c :: q ->
     exists m',
       mem_read MR_KBSR m = Ret 0x8000 m' /\
       memory m' MR_KBSR = 0x8000 /\ memory m' MR_KBDR = to_u16 c /\
       stdin m' = q /\
       (forall a, a <> MR_KBSR -> a <> MR_KBDR -> memory m' a = memory m a) /\
       reg m' = reg m /\ running m' = running m /\ stdout m' = stdout m) /\
  (readable m = false ->
     exists m',
       mem_read MR_KBSR m = Ret 0 m' /\
       memory m' MR_KBSR = 0 /\
       stdin m' = stdin m /\ buffered m' = buffered m /\
       (forall a, a <> MR_KBSR -> memory m' a = memory m a) /\
       reg m' = reg m /\ running m' = running m /\ stdout m' = stdout m) /\
  (forall c q,
     buffered m = 0%nat -> stdin m = c :: q -> Forall is_byte (c :: q) ->
     (List.length (c :: q) <= Nat.max 1 (bufsiz m))%nat ->
     exists m',
       mem_read MR_KBSR m = Ret 0x8000 m' /\
       stdin m' = q /\ readable m' = false).
Proof.
  split; [|split].
  - intros c q Hr Hq. rewrite (mem_read_kbsr_ready m c q Hq Hr).
    eexists. split; [reflexivity|].
    cbn [memory reg running stdin stdout].
    split; [reflexivity|].
    split; [apply upd_same|].
    split; [reflexivity|].
    split; [|auto].
    intros a H1 H2. rewrite !upd_other by assumption. reflexivity.
  - intros Hr. rewrite (mem_read_kbsr_idle m Hr).
    eexists. split; [reflexivity|].
    cbn [memory reg running stdin buffered stdout].
    split; [apply upd_same|].
    split; [reflexivity|]. split; [reflexivity|].
    split; [|auto].
    intros a H1. rewrite upd_other by assumption. reflexivity.
  - intros c q Hb Hq Hbytes Hfit.
    assert (Hr : readable m = true).
    { unfold readable. rewrite Hb, Hq. reflexivity. }
    rewrite (mem_read_kbsr_ready m c q Hq Hr).
    eexists. split; [reflexivity|]. split; [reflexivity|].
    unfold readable. cbn [buffered stdin]. rewrite Hb.
    rewrite (fill_all _ _ Hbytes Hfit). cbn [List.length Nat.pred].
    apply Nat.ltb_irrefl.
Qed.

(** At start-up with 'A' and 'B' delivered together; after a GETC has
    read 'A' and left 'B' in the buffer; and at start-up again. *)
Lemma keyboard_poll_witness :
  (exists m',
     mem_read MR_KBSR (boot [65; 66] raw) = Ret 0x8000 m' /\
     memory m' MR_KBSR = 0x8000 /\ memory m' MR_KBDR = to_u16 65 /\
     stdin m' = [66] /\
     (forall a, a <> MR_KBSR -> a <> MR_KBDR ->
        memory m' a = memory (boot [65; 66] raw) a) /\
     reg m' = reg (boot [65; 66] raw) /\
     running m' = running (boot [65; 66] raw) /\
     stdout m' = stdout (boot [65; 66] raw)) /\
  (exists m',
     mem_read MR_KBSR (after_getc [65; 66]) = Ret 0 m' /\
     memory m' MR_KBSR = 0 /\
     stdin m' = stdin (after_getc [65; 66]) /\
     buffered m' = buffered (after_getc [65; 66]) /\
     (forall a, a <> MR_KBSR ->
        memory m' a = memory (after_getc [65; 66]) a) /\
     reg m' = reg (after_getc [65; 66]) /\
     running m' = running (after_getc [65; 66]) /\
     stdout m' = stdout (after_getc [65; 66])) /\
  (exists m',
     mem_read MR_KBSR (boot [65; 66] raw) = Ret 0x8000 m' /\
     stdin m' = [66] /\ readable m' = false).
Proof.
  split; [|split].
  - apply (proj1 (keyboard_poll (boot [65; 66] raw)) 65 [66]).
    + reflexivity.
    + reflexivity.
  - apply (proj1 (proj2 (keyboard_poll (after_getc [65; 66])))).
    reflexivity.
  - apply (proj2 (proj2 (keyboard_poll (boot [65; 66] raw))) 65 [66]).
    + reflexivity.
    + reflexivity.
    + repeat constructor; unfold is_byte; lia.
    + apply Nat.leb_le. vm_compute. reflexivity.
Defined.

(** X11: a value stored to KBSR is never read back.  The next read of
    KBSR returns 0x8000 if the descriptor is readable and 0 if not,
    whatever was written, and leaves that in the cell. *)
Theorem kbsr_write_is_lost (v : Z) (m : machine) :
  exists m',
    mem_read MR_KBSR (mem_write MR_KBSR v m)
      = Ret (if readable m then 0x8000 else 0) m' /\
    memory m' MR_KBSR = if readable m then 0x8000 else 0.
Proof.
  assert (Hsame : readable (mem_write MR_KBSR v m) = readable m)
    by reflexivity.
  destruct (readable m) eqn:Hr.
  - destruct (readable_cons m Hr) as (c & q & Hq).
    rewrite (mem_read_kbsr_ready (mem_write MR_KBSR v m) c q Hq Hsame).
    eexists. split; reflexivity.
  - rewrite (mem_read_kbsr_idle (mem_write MR_KBSR v m) Hsame).
    eexists. split; reflexivity.
Qed.

(** ** Input traps *)

Lemma op_trap_getc (instr : Z) :
  Z.land instr 0xFF = TRAP_GETC ->
  op_trap instr =
  (modify (fun m => store_reg R_R7 (reg m R_PC) m) ;; trap_getc).
Proof. intros H. unfold op_trap. rewrite H. reflexivity. Qed.

Lemma op_trap_in (instr : Z) :
  Z.land instr 0xFF = TRAP_IN ->
  op_trap instr =
  (modify (fun m => store_reg R_R7 (reg m R_PC) m) ;; trap_in).
Proof. intros H. unfold op_trap. rewrite H. reflexivity. Qed.

Lemma to_uchar_to_u16 (c : Z) : to_uchar (to_u16 c) = c mod 256.
Proof.
  unfold to_uchar, to_u16. apply Z.mod_mod_divide.
  exists 256. reflexivity.
Qed.

(** X12: the two input traps.  With a value [c] ready, GETC puts it in R0
    without writing anything, IN prints its prompt, puts [c] in R0 and
    echoes its low byte; both set R7 to PC and take exactly that one value
    from the input.  With nothing ready both wait, IN after printing its
    prompt. *)
Theorem input_traps (instr : Z) (m : machine) :
  (Z.land instr 0xFF = TRAP_GETC ->
   (forall c q, stdin m = c :: q ->
      exists m',
        op_trap instr m = Ret tt m' /\
        reg m' R_R0 = to_u16 c /\ reg m' R_R7 = to_u16 (reg m R_PC) /\
        stdout m' = stdout m /\ stdin m' = q) /\
   (stdin m = [] ->
      exists m', op_trap instr m = Blocked m' /\ stdout m' = stdout m)) /\
  (Z.land instr 0xFF = TRAP_IN ->
   (forall c q, stdin m = c :: q ->
      exists m',
        op_trap instr m = Ret tt m' /\
        reg m' R_R0 = to_u16 c /\ reg m' R_R7 = to_u16 (reg m R_PC) /\
        stdout m' = stdout m ++ in_prompt ++ [c mod 256] /\ stdin m' = q) /\
   (stdin m = [] ->
      exists m',
        op_trap instr m = Blocked m' /\
        stdout m' = stdout m ++ in_prompt)).
Proof.
  split; intros Hv.
  - rewrite (op_trap_getc instr Hv). split.
    + intros c q Hq.
      unfold bind, modify, trap_getc, getchar, store_reg. cbn [stdin].
      rewrite Hq. eexists. split; [reflexivity|].
      cbn [reg stdout stdin asked].
      split; [rewrite upd_same; apply to_u16_small, to_u16_range|].
      split; [rewrite upd_other by discriminate; apply upd_same|].
      split; reflexivity.
    + intros Hq.
      unfold bind, modify, trap_getc, getchar, store_reg. cbn [stdin].
      rewrite Hq. eexists. split; reflexivity.
  - rewrite (op_trap_in instr Hv). split.
    + intros c q Hq.
      unfold bind, modify, trap_in, printf, getchar, putc, fflush, ret,
             store_reg, write_bytes.
      cbn [stdin]. rewrite Hq.
      eexists. split; [reflexivity|].
      cbn [reg stdout stdin asked].
      rewrite to_uchar_to_u16, <- app_assoc.
      split; [rewrite upd_same; apply to_u16_small, to_u16_range|].
      split; [rewrite upd_other by discriminate; apply upd_same|].
      split; reflexivity.
    + intros Hq.
      unfold bind, modify, trap_in, printf, getchar, store_reg, write_bytes.
      cbn [stdin]. rewrite Hq.
      eexists. split; reflexivity.
Qed.

Lemma input_traps_witness :
  (exists m',
     op_trap 0xF020 (at_start 0xF020 [65; 66]) = Ret tt m' /\
     reg m' R_R0 = to_u16 65 /\
     reg m' R_R7 = to_u16 (reg (at_start 0xF020 [65; 66]) R_PC) /\
     stdout m' = stdout (at_start 0xF020 [65; 66]) /\ stdin m' = [66]) /\
  (exists m',
     op_trap 0xF023 (at_start 0xF023 []) = Blocked m' /\
     stdout m' = stdout (at_start 0xF023 []) ++ in_prompt).
Proof.
  split.
  - apply (proj1 (proj1 (input_traps 0xF020 (at_start 0xF020 [65; 66]))
                    eq_refl) 65 [66]).
    reflexivity.
  - apply (proj2 (proj2 (input_traps 0xF023 (at_start 0xF023 []))
                    eq_refl)).
    reflexivity.
Defined.

(** ** Halting *)

Lemma op_trap_halt (instr : Z) :
  Z.land instr 0xFF = TRAP_HALT ->
  op_trap instr =
  (modify (fun m => store_reg R_R7 (reg m R_PC) m) ;; trap_halt).
Proof. intros H. unfold op_trap. rewrite H. reflexivity. Qed.

Lemma run_stopped (feed : list (list Z)) (m : machine) :
  running m = 0 -> run feed m = Ret tt m.
Proof.
  intros H. destruct feed; [rewrite run_nil | rewrite run_cons];
    rewrite H; reflexivity.
Qed.

(** X13: HALT ends the run.  When the running machine meets a HALT trap,
    the loop prints "HALT" and a newline, clears the running flag and
    returns without executing anything further, whatever input the host
    still delivers; memory is untouched and R7 holds the address after the
    trap. *)
Theorem halt_ends_run
    (bs : list Z) (feed : list (list Z)) (m : machine) :
  running m <> 0 ->
  reg m R_PC <> MR_KBSR ->
  Z.shiftr (memory m (reg m R_PC)) 12 = OP_TRAP ->
  Z.land (memory m (reg m R_PC)) 0xFF = TRAP_HALT ->
  exists m',
    run (bs :: feed) m = Ret tt m' /\
    running m' = 0 /\
    stdout m' = stdout m ++ bytes_of_string "HALT" ++ newline /\
    memory m' = memory m /\
    reg m' R_R7 = to_u16 (reg m R_PC + 1) /\
    reg m' R_PC = to_u16 (reg m R_PC + 1) /\
    stdin m' = stdin m ++ bs.
Proof.
  intros Hrun Hpc Hop Hv. rewrite run_cons.
  destruct (Z.eqb_spec (running m) 0) as [E | _]; [contradiction|].
  cbn [negb].
  assert (Hfetch : mem_read (reg (arrive bs m) R_PC) (arrive bs m)
                   = Ret (memory m (reg m R_PC)) (arrive bs m))
    by (apply (mem_read_plain (reg m R_PC) (arrive bs m) Hpc)).
  rewrite (step_fetch _ _ _ Hfetch), (dispatch_trap _ Hop),
          (op_trap_halt _ Hv).
  cbv beta iota delta [bind modify trap_halt fflush ret].
  rewrite run_stopped by reflexivity.
  eexists. split; [reflexivity|].
  cbn [running stdout memory reg stdin set_running write_bytes store_reg
       arrive].
  repeat split.
  rewrite upd_same, upd_same. apply to_u16_small, to_u16_range.
Qed.

Lemma halt_ends_run_witness :
  exists m',
    run ([66] :: [[67]; []]) (at_start 0xF025 [65]) = Ret tt m' /\
    running m' = 0 /\
    stdout m' = stdout (at_start 0xF025 [65])
                ++ bytes_of_string "HALT" ++ newline /\
    memory m' = memory (at_start 0xF025 [65]) /\
    reg m' R_R7 = to_u16 (reg (at_start 0xF025 [65]) R_PC + 1) /\
    reg m' R_PC = to_u16 (reg (at_start 0xF025 [65]) R_PC + 1) /\
    stdin m' = stdin (at_start 0xF025 [65]) ++ [66].
Proof.
  apply (halt_ends_run [66] [[67]; []] (at_start 0xF025 [65])).
  - discriminate.
  - discriminate.
  - reflexivity.
  - reflexivity.
Defined.

(** ** String output *)

Lemma puts_loop_scan (cells : nat) (c : Z) (m : machine) :
  (exists a, c <= a < c + Z.of_nat cells /\ memory m a = 0) ->
  exists z,
    c <= z < c + Z.of_nat cells /\ memory m z = 0 /\
    (forall a, c <= a < z -> memory m a <> 0) /\
    puts_loop cells c m =
    Ret tt (write_bytes
              (map puts_byte (map (memory m) (addrs c (Z.to_nat (z - c))))) m).
Proof.
  revert c m. induction cells as [| n IH]; intros c m (a & Ha & Hz).
  - lia.
  - cbn [puts_loop]. unfold bind at 1. unfold gets at 1.
    destruct (Z.eqb_spec (memory m c) 0) as [E | E]; cbn [negb].
    + exists c. split; [lia|]. split; [exact E|]. split; [intros; lia|].
      rewrite Z.sub_diag. cbn. rewrite write_bytes_nil. reflexivity.
    + assert (Hne : a <> c) by (intros ->; contradiction).
      unfold bind, putc, modify. rewrite to_uchar_to_char.
      destruct (IH (c + 1) (write_bytes [memory m c mod 256] m))
        as (z & Hzr & Hz0 & Hfirst & Hrun).
      { exists a. split; [lia | exact Hz]. }
      cbn [memory write_bytes] in Hz0, Hfirst, Hrun.
      exists z. split; [lia|]. split; [exact Hz0|]. split.
      * intros b Hb. destruct (Z.eq_dec b c) as [-> | Hbc]; [exact E|].
        apply Hfirst. lia.
      * rewrite (addrs_cons c z) by lia.
        rewrite Hrun, write_bytes_app. reflexivity.
Qed.

(** X14: with a zero word at or after R0, PUTS writes the low 8 bits of
    each word from R0 up to the first zero word, in order, and changes
    nothing else. *)
Theorem trap_puts_output (m : machine) :
  0 <= reg m R_R0 < 65536 ->
  (exists a, reg m R_R0 <= a < 65536 /\ memory m a = 0) ->
  exists z,
    reg m R_R0 <= z < 65536 /\ memory m z = 0 /\
    (forall a, reg m R_R0 <= a < z -> memory m a <> 0) /\
    trap_puts m =
    Ret tt (write_bytes
              (map puts_byte
                 (map (memory m)
                      (addrs (reg m R_R0) (Z.to_nat (z - reg m R_R0))))) m).
Proof.
  intros Hr0 (a & Ha & Hz).
  assert (Hcells : reg m R_R0 + Z.of_nat (Z.to_nat (MAX_MEMORY - reg m R_R0))
                   = 65536).
  { change MAX_MEMORY with 65536. rewrite Z2Nat.id by lia. lia. }
  destruct (puts_loop_scan (Z.to_nat (MAX_MEMORY - reg m R_R0))
              (reg m R_R0) m)
    as (z & Hzr & Hz0 & Hfirst & Hrun).
  { exists a. rewrite Hcells. split; [exact Ha | exact Hz]. }
  rewrite Hcells in Hzr.
  exists z. split; [exact Hzr|]. split; [exact Hz0|]. split; [exact Hfirst|].
  unfold trap_puts, fflush. unfold bind at 1. unfold gets at 1.
  unfold bind. rewrite Hrun. reflexivity.
Qed.

Lemma trap_puts_output_witness :
  exists z,
    reg plain_hi R_R0 <= z < 65536 /\ memory plain_hi z = 0 /\
    (forall a, reg plain_hi R_R0 <= a < z -> memory plain_hi a <> 0) /\
    trap_puts plain_hi =
    Ret tt (write_bytes
              (map puts_byte
                 (map (memory plain_hi)
                      (addrs (reg plain_hi R_R0)
                             (Z.to_nat (z - reg plain_hi R_R0))))) plain_hi).
Proof.
  apply (trap_puts_output plain_hi).
  - vm_compute. split; congruence.
  - exists 0x4002. vm_compute. repeat split; discriminate.
Defined.

Example trap_puts_plain_hi :
  stdout (state_of (trap_puts plain_hi)) = [72; 105].
Proof. vm_compute. reflexivity. Qed.

Lemma puts_loop_overrun (cells : nat) (c : Z) (m : machine) :
  (forall a, c <= a < c + Z.of_nat cells -> memory m a <> 0) ->
  exists m',
    puts_loop cells c m = Undefined m' /\
    stdout m' = stdout m
                ++ map puts_byte (map (memory m) (addrs c cells)).
Proof.
  revert c m. induction cells as [| n IH]; intros c m Hnz.
  - exists m. split; [reflexivity|]. cbn. symmetry. apply app_nil_r.
  - cbn [puts_loop]. unfold bind at 1. unfold gets at 1.
    destruct (Z.eqb_spec (memory m c) 0) as [E | E];
      [exfalso; apply (Hnz c); [lia | exact E]|].
    cbn [negb]. unfold bind, putc, modify. rewrite to_uchar_to_char.
    destruct (IH (c + 1) (write_bytes [memory m c mod 256] m))
      as (m' & Hrun & Hout).
    { intros a Ha. cbn [memory write_bytes]. apply Hnz. lia. }
    exists m'. split; [exact Hrun|].
    rewrite Hout. cbn [stdout write_bytes memory addrs map].
    rewrite <- app_assoc. reflexivity.
Qed.

Lemma putsp_loop_overrun (cells : nat) (c : Z) (m : machine) :
  (forall a, 0 <= memory m a < 65536) ->
  (forall a, c <= a < c + Z.of_nat cells -> memory m a <> 0) ->
  exists m',
    putsp_loop cells c m = Undefined m' /\
    stdout m' = stdout m
                ++ flat_map putsp_bytes (map (memory m) (addrs c cells)).
Proof.
  revert c m. induction cells as [| n IH]; intros c m Hwf Hnz.
  - exists m. split; [reflexivity|]. cbn. symmetry. apply app_nil_r.
  - cbn [putsp_loop]. unfold bind at 1. unfold gets at 1.
    destruct (Z.eqb_spec (memory m c) 0) as [E | E];
      [exfalso; apply (Hnz c); [lia | exact E]|].
    cbn [negb].
    rewrite (putsp_cell_output _ (putsp_loop n (c + 1)) m (Hwf c)).
    destruct (IH (c + 1) (write_bytes (putsp_bytes (memory m c)) m))
      as (m' & Hrun & Hout).
    { exact Hwf. }
    { intros a Ha. cbn [memory write_bytes]. apply Hnz. lia. }
    exists m'. split; [exact Hrun|].
    rewrite Hout. cbn [stdout write_bytes memory addrs map flat_map].
    rewrite <- app_assoc. reflexivity.
Qed.

(** X15: a string that reaches the top of memory without a zero word makes
    PUTS and PUTSP run off the end of [memory]: after writing every cell
    from R0 to 0xFFFF they read [memory[65536]], which C leaves
    undefined.  The address does not wrap around to 0. *)
Theorem unterminated_string_overruns (m : machine) :
  well_formed m ->
  (forall a, reg m R_R0 <= a < 65536 -> memory m a <> 0) ->
  (exists m',
     trap_puts m = Undefined m' /\
     stdout m' = stdout m
       ++ map puts_byte
            (map (memory m)
                 (addrs (reg m R_R0) (Z.to_nat (65536 - reg m R_R0))))) /\
  (exists m',
     trap_putsp m = Undefined m' /\
     stdout m' = stdout m
       ++ flat_map putsp_bytes
            (map (memory m)
                 (addrs (reg m R_R0) (Z.to_nat (65536 - reg m R_R0))))).
Proof.
  intros [Hmem Hreg] Hnz. pose proof (Hreg R_R0) as Hr0.
  assert (Hcells : reg m R_R0 + Z.of_nat (Z.to_nat (65536 - reg m R_R0))
                   = 65536) by (rewrite Z2Nat.id by lia; lia).
  split.
  - destruct (puts_loop_overrun (Z.to_nat (65536 - reg m R_R0))
                (reg m R_R0) m) as (m' & Hrun & Hout).
    { intros a Ha. apply Hnz. lia. }
    exists m'. split; [|exact Hout].
    unfold trap_puts. unfold bind at 1. unfold gets at 1.
    change MAX_MEMORY with 65536. unfold bind. rewrite Hrun. reflexivity.
  - destruct (putsp_loop_overrun (Z.to_nat (65536 - reg m R_R0))
                (reg m R_R0) m Hmem) as (m' & Hrun & Hout).
    { intros a Ha. apply Hnz. lia. }
    exists m'. split; [|exact Hout].
    unfold trap_putsp. unfold bind at 1. unfold gets at 1.
    change MAX_MEMORY with 65536. unfold bind. rewrite Hrun. reflexivity.
Qed.

Lemma unterminated_string_overruns_witness :
  (exists m',
     trap_puts unterminated = Undefined m' /\
     stdout m' = stdout unterminated
       ++ map puts_byte
            (map (memory unterminated)
                 (addrs (reg unterminated R_R0)
                        (Z.to_nat (65536 - reg unterminated R_R0))))) /\
  (exists m',
     trap_putsp unterminated = Undefined m' /\
     stdout m' = stdout unterminated
       ++ flat_map putsp_bytes
            (map (memory unterminated)
                 (addrs (reg unterminated R_R0)
                        (Z.to_nat (65536 - reg unterminated R_R0))))).
Proof.
  apply (unterminated_string_overruns unterminated).
  - unfold unterminated.
    apply well_formed_store_reg, well_formed_store_mem, well_formed_boot.
  - intros a Ha. change (reg unterminated R_R0) with 65535 in Ha.
    assert (a = 65535) as -> by lia. discriminate.
Defined.

(** ** What the interpreter keeps: cells, terminal, output *)

Lemma respects_refl (m : machine) : respects m m.
Proof.
  split; [auto|]. split; [reflexivity|]. split; [reflexivity|].
  exists []. symmetry. apply app_nil_r.
Qed.

Lemma respects_trans (m1 m2 m3 : machine) :
  respects m1 m2 -> respects m2 m3 -> respects m1 m3.
Proof.
  intros (W1 & T1 & O1 & b1 & S1) (W2 & T2 & O2 & b2 & S2).
  split; [auto|]. split; [congruence|]. split; [congruence|].
  exists (b1 ++ b2). rewrite S2, S1, app_assoc. reflexivity.
Qed.

Lemma preserves_ret {A} (a : A) : preserves (ret a).
Proof. intros m. apply respects_refl. Qed.

Lemma preserves_gets {A} (g : machine -> A) : preserves (gets g).
Proof. intros m. apply respects_refl. Qed.

Lemma preserves_modify (f : machine -> machine) :
  steady f -> preserves (modify f).
Proof. intros H m. apply H. Qed.

Lemma preserves_abort {A} : preserves (@abort A).
Proof. intros m. apply respects_refl. Qed.

Lemma preserves_undefined {A} : preserves (@undefined A).
Proof. intros m. apply respects_refl. Qed.

Lemma preserves_exit {A} (c : Z) : preserves (@exit A c).
Proof. intros m. apply respects_refl. Qed.

Lemma preserves_bind {A B} (x : M A) (f : A -> M B) :
  preserves x -> (forall a, preserves (f a)) -> preserves (bind x f).
Proof.
  intros Hx Hf m. specialize (Hx m). unfold bind.
  destruct (x m) as [a m' | m' | c m' | m' | m' | m']; try exact Hx.
  apply (respects_trans m m'); [exact Hx | apply Hf].
Qed.

Lemma respects_host_only (m m' : machine) :
  memory m' = memory m -> reg m' = reg m -> tty m' = tty m ->
  orig_tio m' = orig_tio m -> stdout m' = stdout m ->
  respects m m'.
Proof.
  intros Hm Hr Ht Ho Hs. split.
  - unfold well_formed. rewrite Hm, Hr. auto.
  - split; [exact Ht|]. split; [exact Ho|].
    exists []. rewrite Hs. symmetry. apply app_nil_r.
Qed.

Lemma preserves_check_key : preserves check_key.
Proof. intros m. apply respects_host_only; reflexivity. Qed.

Lemma preserves_getchar : preserves getchar.
Proof.
  intros m. unfold getchar.
  destruct (stdin m); apply respects_host_only; reflexivity.
Qed.

Lemma steady_arrive (bs : list Z) : steady (arrive bs).
Proof. intros m. apply respects_host_only; reflexivity. Qed.

Lemma steady_set_running (v : Z) : steady (set_running v).
Proof. intros m. apply respects_host_only; reflexivity. Qed.

Lemma steady_write_bytes (bs : list Z) : steady (write_bytes bs).
Proof.
  intros m. split; [auto|]. split; [reflexivity|]. split; [reflexivity|].
  exists bs. reflexivity.
Qed.

Lemma respects_cells (m m' : machine) :
  (well_formed m -> well_formed m') ->
  tty m' = tty m -> orig_tio m' = orig_tio m -> stdout m' = stdout m ->
  respects m m'.
Proof.
  intros Hw Ht Ho Hs. split; [exact Hw|]. split; [exact Ht|].
  split; [exact Ho|]. exists []. rewrite Hs. symmetry. apply app_nil_r.
Qed.

(** A state transformer built from stores to cells, possibly under
    conditions. *)
Ltac steady_by_cases :=
  intros m;
  unfold op_add, op_and, op_not, op_br, op_jmp, op_jsr, op_lea, op_st, op_str,
         update_condition_flags, mem_write;
  repeat match goal with
         | |- context [if ?b then _ else _] =>
             lazymatch b with
             | context [if _ then _ else _] => fail
             | _ => destruct b
             end
         end;
  (apply respects_cells;
   [ intros Hwf;
     repeat first [ apply well_formed_store_reg
                  | apply well_formed_store_mem ];
     exact Hwf
   | reflexivity | reflexivity | reflexivity ]).

Lemma steady_store_reg (r : Z) (v : machine -> Z) :
  steady (fun m => store_reg r (v m) m).
Proof. steady_by_cases. Qed.

Lemma steady_store_mem (a v : machine -> Z) :
  steady (fun m => store_mem (a m) (v m) m).
Proof. steady_by_cases. Qed.

Lemma steady_update_condition_flags (r : Z) :
  steady (update_condition_flags r).
Proof. steady_by_cases. Qed.

Lemma steady_op_add (instr : Z) : steady (op_add instr).
Proof. steady_by_cases. Qed.

Lemma steady_op_and (instr : Z) : steady (op_and instr).
Proof. steady_by_cases. Qed.

Lemma steady_op_not (instr : Z) : steady (op_not instr).
Proof. steady_by_cases. Qed.

Lemma steady_op_br (instr : Z) : steady (op_br instr).
Proof. steady_by_cases. Qed.

Lemma steady_op_jmp (instr : Z) : steady (op_jmp instr).
Proof. steady_by_cases. Qed.

Lemma steady_op_jsr (instr : Z) : steady (op_jsr instr).
Proof. steady_by_cases. Qed.

Lemma steady_op_lea (instr : Z) : steady (op_lea instr).
Proof. steady_by_cases. Qed.

Lemma steady_op_st (instr : Z) : steady (op_st instr).
Proof. steady_by_cases. Qed.

Lemma steady_op_str (instr : Z) : steady (op_str instr).
Proof. steady_by_cases. Qed.

Create HintDb preserves_db.

#[local] Hint Resolve preserves_ret preserves_gets preserves_abort
  preserves_undefined preserves_exit preserves_check_key preserves_getchar
  steady_arrive steady_set_running steady_write_bytes
  steady_update_condition_flags steady_op_add steady_op_and steady_op_not
  steady_op_br steady_op_jmp steady_op_jsr steady_op_lea steady_op_st
  steady_op_str : preserves_db.

Ltac preserves_steps :=
  repeat first
    [ apply preserves_bind; [|intros ?]
    | apply preserves_modify;
      first [ solve [auto with preserves_db]
            | apply steady_store_reg with (v := fun _ => _)
            | apply (steady_store_reg _ (fun m => _))
            | steady_by_cases ]
    | match goal with
      | |- preserves (if ?b then _ else _) => destruct b
      end
    | solve [auto with preserves_db] ].

Lemma preserves_mem_read (a : Z) : preserves (mem_read a).
Proof. unfold mem_read. preserves_steps. Qed.

Lemma preserves_putc (c : Z) : preserves (putc c).
Proof. unfold putc. preserves_steps. Qed.

Lemma preserves_puts_loop (cells : nat) (c : Z) :
  preserves (puts_loop cells c).
Proof.
  revert c. induction cells as [| n IH]; intros c; cbn [puts_loop].
  - apply preserves_undefined.
  - apply preserves_bind; [apply preserves_gets|]. intros w.
    destruct (negb (w =? 0)); [|apply preserves_ret].
    apply preserves_bind; [apply preserves_putc|]. intros _. apply IH.
Qed.

Lemma preserves_putsp_loop (cells : nat) (c : Z) :
  preserves (putsp_loop cells c).
Proof.
  revert c. induction cells as [| n IH]; intros c; cbn [putsp_loop].
  - apply preserves_undefined.
  - apply preserves_bind; [apply preserves_gets|]. intros w.
    destruct (negb (w =? 0)); [|apply preserves_ret].
    apply preserves_bind; [apply preserves_putc|]. intros _.
    apply preserves_bind; [|intros _; apply IH].
    destruct (negb (to_char (Z.shiftr w 8) =? 0));
      [apply preserves_putc | apply preserves_ret].
Qed.

#[local] Hint Resolve preserves_mem_read preserves_putc preserves_puts_loop
  preserves_putsp_loop : preserves_db.

Lemma preserves_op_trap (instr : Z) : preserves (op_trap instr).
Proof.
  unfold op_trap, trap_getc, trap_out, trap_puts, trap_in, trap_putsp,
         trap_halt, printf, fflush.
  preserves_steps.
Qed.

Lemma preserves_dispatch (instr : Z) : preserves (dispatch instr).
Proof.
  unfold dispatch.
  repeat match goal with
         | |- preserves (if ?b then _ else _) => destruct b
         end;
    match goal with
    | |- preserves (modify _) =>
        apply preserves_modify; auto with preserves_db
    | |- preserves (op_trap _) => apply preserves_op_trap
    | |- preserves (op_ld _) => unfold op_ld; preserves_steps
    | |- preserves (op_ldi _) => unfold op_ldi; preserves_steps
    | |- preserves (op_ldr _) => unfold op_ldr; preserves_steps
    | |- preserves (op_sti _) => unfold op_sti; preserves_steps
    | |- _ => apply preserves_abort
    end.
Qed.

Lemma preserves_step : preserves step.
Proof.
  unfold step.
  apply preserves_bind; [apply preserves_gets|]. intros pc.
  apply preserves_bind; [apply preserves_mem_read|]. intros instruction.
  apply preserves_bind; [|intros _; apply preserves_dispatch].
  apply preserves_modify. steady_by_cases.
Qed.

Lemma preserves_run (feed : list (list Z)) : preserves (run feed).
Proof.
  induction feed as [| bs feed IH]; intros m.
  - rewrite run_nil. destruct (negb (running m =? 0)); apply respects_refl.
  - rewrite run_cons. destruct (negb (running m =? 0)); [|apply respects_refl].
    pose proof (preserves_step (arrive bs m)) as Hs.
    pose proof (steady_arrive bs m) as Ha.
    destruct (step (arrive bs m)) as [u m' | m' | c m' | m' | m' | m'];
      cbn [state_of] in *;
      try (apply (respects_trans m (arrive bs m)); assumption).
    apply (respects_trans m (arrive bs m)); [exact Ha|].
    apply (respects_trans _ m'); [exact Hs | apply IH].
Qed.

(** X16: one loop iteration, and any run of the loop, keeps every register
    and memory cell within 16 bits, leaves the terminal settings and their
    saved copy alone, and only appends to the output. *)
Theorem run_respects_state (feed : list (list Z)) (m : machine) :
  well_formed m ->
  well_formed (state_of (run feed m)) /\
  well_formed (state_of (step m)) /\
  tty (state_of (run feed m)) = tty m /\
  orig_tio (state_of (run feed m)) = orig_tio m /\
  exists bs, stdout (state_of (run feed m)) = stdout m ++ bs.
Proof.
  intros Hwf.
  destruct (preserves_run feed m) as (W & T & O & S).
  destruct (preserves_step m) as (Ws & _).
  auto.
Qed.

Lemma run_respects_state_witness :
  well_formed (state_of (run [[]; [66]; []] (add_program [65]))) /\
  well_formed (state_of (step (add_program [65]))) /\
  tty (state_of (run [[]; [66]; []] (add_program [65])))
    = tty (add_program [65]) /\
  orig_tio (state_of (run [[]; [66]; []] (add_program [65])))
    = orig_tio (add_program [65]) /\
  exists bs,
    stdout (state_of (run [[]; [66]; []] (add_program [65])))
      = stdout (add_program [65]) ++ bs.
Proof.
  apply (run_respects_state [[]; [66]; []] (add_program [65])).
  unfold add_program, at_start.
  repeat first [apply well_formed_store_mem | apply well_formed_store_reg].
  apply well_formed_boot.
Defined.

(** ** How computations can end *)

Lemma never_ret {A} (k : kind) (a : A) : k <> KRet -> never k (ret a).
Proof. intros H m E. apply H. symmetry. exact E. Qed.

Lemma never_gets {A} (k : kind) (g : machine -> A) :
  k <> KRet -> never k (gets g).
Proof. intros H m E. apply H. symmetry. exact E. Qed.

Lemma never_modify (k : kind) (f : machine -> machine) :
  k <> KRet -> never k (modify f).
Proof. intros H m E. apply H. symmetry. exact E. Qed.

Lemma never_abort {A} (k : kind) : k <> KAborted -> never k (@abort A).
Proof. intros H m E. apply H. symmetry. exact E. Qed.

Lemma never_undefined {A} (k : kind) :
  k <> KUndefined -> never k (@undefined A).
Proof. intros H m E. apply H. symmetry. exact E. Qed.

Lemma never_exit {A} (k : kind) (c : Z) : k <> KExited -> never k (@exit A c).
Proof. intros H m E. apply H. symmetry. exact E. Qed.

Lemma never_bind {A B} (k : kind) (x : M A) (f : A -> M B) :
  k <> KRet -> never k x -> (forall a, never k (f a)) -> never k (bind x f).
Proof.
  intros Hk Hx Hf m. specialize (Hx m). unfold bind.
  destruct (x m) as [a m' | m' | c m' | m' | m' | m']; try exact Hx.
  apply Hf.
Qed.

Lemma never_getchar (k : kind) :
  k <> KRet -> k <> KBlocked -> never k getchar.
Proof.
  intros H1 H2 m E. unfold getchar in E.
  destruct (stdin m); cbn in E; congruence.
Qed.

Lemma never_mem_read (k : kind) (a : Z) : k <> KRet -> never k (mem_read a).
Proof.
  intros H m E. destruct (mem_read_returns a m) as (v & m' & R & _).
  rewrite R in E. cbn in E. congruence.
Qed.

Ltac never_steps :=
  repeat first
    [ apply never_mem_read; assumption
    | apply never_getchar; assumption
    | apply never_bind; [assumption | | intros ?]
    | apply never_ret; assumption
    | apply never_gets; assumption
    | apply never_modify; assumption
    | apply never_abort; assumption
    | apply never_undefined; assumption
    | apply never_exit; assumption
    | match goal with
      | |- never _ (if ?b then _ else _) => destruct b
      end ].

Lemma never_puts_loop (k : kind) (cells : nat) (c : Z) :
  k <> KRet -> k <> KUndefined -> never k (puts_loop cells c).
Proof.
  intros H1 H2. revert c.
  induction cells as [| n IH]; intros c; cbn [puts_loop].
  - apply never_undefined. exact H2.
  - apply never_bind; [exact H1 | apply never_gets; exact H1 |]. intros w.
    destruct (negb (w =? 0)); [|apply never_ret; exact H1].
    unfold putc. apply never_bind; [exact H1 | apply never_modify; exact H1 |].
    intros _. apply IH.
Qed.

Lemma never_putsp_loop (k : kind) (cells : nat) (c : Z) :
  k <> KRet -> k <> KUndefined -> never k (putsp_loop cells c).
Proof.
  intros H1 H2. revert c.
  induction cells as [| n IH]; intros c; cbn [putsp_loop].
  - apply never_undefined. exact H2.
  - apply never_bind; [exact H1 | apply never_gets; exact H1 |]. intros w.
    destruct (negb (w =? 0)); [|apply never_ret; exact H1].
    unfold putc. apply never_bind; [exact H1 | apply never_modify; exact H1 |].
    intros _. apply never_bind; [exact H1 | | intros _; apply IH].
    destruct (negb (to_char (Z.shiftr w 8) =? 0));
      [apply never_modify | apply never_ret]; exact H1.
Qed.

(** A trap returns, waits for input or runs off memory; nothing else. *)
Lemma never_op_trap (k : kind) (instr : Z) :
  k <> KRet -> k <> KBlocked -> k <> KUndefined -> never k (op_trap instr).
Proof.
  intros H1 H2 H3.
  unfold op_trap, trap_getc, trap_out, trap_puts, trap_in, trap_putsp,
         trap_halt, printf, putc, fflush.
  repeat first
    [ apply never_puts_loop; assumption
    | apply never_putsp_loop; assumption
    | progress never_steps ].
Qed.

(** The loads and STI always return. *)
Lemma never_loads (k : kind) (instr : Z) :
  k <> KRet ->
  never k (op_ld instr) /\ never k (op_ldi instr) /\
  never k (op_ldr instr) /\ never k (op_sti instr).
Proof.
  intros H. unfold op_ld, op_ldi, op_ldr, op_sti.
  repeat split; never_steps.
Qed.

Lemma opcode_range (instr : Z) :
  0 <= instr < 65536 -> 0 <= Z.shiftr instr 12 <= 15.
Proof.
  intros H. rewrite Z.shiftr_div_pow2 by lia. change (2 ^ 12) with 4096.
  split; [apply Z.div_pos; lia|].
  assert (instr / 4096 < 16) by (apply Z.div_lt_upper_bound; lia). lia.
Qed.

Lemma fetched_word_range (m m1 : machine) (instr : Z) :
  well_formed m ->
  mem_read (reg m R_PC) m = Ret instr m1 -> 0 <= instr < 65536.
Proof.
  intros [Hmem _] Hfetch.
  destruct (mem_read_returns (reg m R_PC) m)
    as (v & m' & E & _ & _ & _ & _ & _ & Hplain & Hkb).
  rewrite E in Hfetch. injection Hfetch as -> ->.
  destruct (Z.eq_dec (reg m R_PC) MR_KBSR) as [Heq | Hne].
  - destruct (Hkb Heq) as [-> | ->]; lia.
  - destruct (Hplain Hne) as [_ ->]. apply Hmem.
Qed.

Ltac split_opcode :=
  unfold dispatch;
  repeat match goal with
         | |- context [Z.shiftr ?i 12 =? ?c] =>
             destruct (Z.eqb_spec (Z.shiftr i 12) c)
         end.

Lemma dispatch_abort_iff (instr : Z) (m : machine) :
  0 <= instr < 65536 ->
  kind_of (dispatch instr m) = KAborted <->
  Z.shiftr instr 12 = OP_RTI \/ Z.shiftr instr 12 = OP_RES.
Proof.
  intros Hi. pose proof (opcode_range instr Hi) as Hop.
  assert (Hk : KAborted <> KRet) by discriminate.
  destruct (never_loads KAborted instr Hk) as (Hld & Hldi & Hldr & Hsti).
  pose proof (never_op_trap KAborted instr) as Htrap.
  split.
  - split_opcode; intros H;
      try (cbn in H; discriminate H);
      try (exfalso; first [ apply (Hld m H) | apply (Hldi m H)
                          | apply (Hldr m H) | apply (Hsti m H)
                          | apply (Htrap ltac:(discriminate)
                                     ltac:(discriminate)
                                     ltac:(discriminate) m H) ]).
    unfold OP_ADD, OP_AND, OP_NOT, OP_BR, OP_JMP, OP_JSR, OP_LD, OP_LDI,
           OP_LDR, OP_LEA, OP_ST, OP_STI, OP_STR, OP_TRAP, OP_RTI, OP_RES in *.
    lia.
  - intros [H | H]; unfold dispatch; rewrite H; reflexivity.
Qed.

Lemma dispatch_never_leaves (instr : Z) :
  never KExited (dispatch instr) /\ never KUnfinished (dispatch instr).
Proof.
  destruct (never_loads KExited instr ltac:(discriminate))
    as (E1 & E2 & E3 & E4).
  destruct (never_loads KUnfinished instr ltac:(discriminate))
    as (U1 & U2 & U3 & U4).
  split; intros m; split_opcode;
    try (cbn; discriminate);
    first [ apply E1 | apply E2 | apply E3 | apply E4
          | apply U1 | apply U2 | apply U3 | apply U4
          | apply never_op_trap; discriminate ].
Qed.

Lemma op_trap_linked (instr : Z) (m : machine) :
  op_trap instr m =
  (let trapvect8 := Z.land instr 0xFF in
   if trapvect8 =? TRAP_GETC then trap_getc
   else if trapvect8 =? TRAP_OUT then trap_out
   else if trapvect8 =? TRAP_PUTS then trap_puts
   else if trapvect8 =? TRAP_IN then trap_in
   else if trapvect8 =? TRAP_PUTSP then trap_putsp
   else if trapvect8 =? TRAP_HALT then trap_halt
   else ret tt) (store_reg R_R7 (reg m R_PC) m).
Proof. reflexivity. Qed.

Lemma trap_blocks_or_overruns (instr : Z) (m : machine) :
  (kind_of (op_trap instr m) = KBlocked ->
   (Z.land instr 0xFF = TRAP_GETC \/ Z.land instr 0xFF = TRAP_IN) /\
   stdin m = []) /\
  (kind_of (op_trap instr m) = KUndefined ->
   Z.land instr 0xFF = TRAP_PUTS \/ Z.land instr 0xFF = TRAP_PUTSP).
Proof.
  rewrite op_trap_linked. cbv zeta.
  set (m1 := store_reg R_R7 (reg m R_PC) m).
  assert (Hin : stdin m1 = stdin m) by reflexivity.
  rewrite <- Hin. clearbody m1. clear Hin.
  assert (HR : KBlocked <> KRet) by discriminate.
  assert (HU : KUndefined <> KRet) by discriminate.
  assert (HBU : KBlocked <> KUndefined) by discriminate.
  destruct (Z.eqb_spec (Z.land instr 255) TRAP_GETC) as [-> | _].
  { split; intros H.
    - split; [left; reflexivity|].
      unfold trap_getc, bind, getchar in H.
      destruct (stdin m1); [reflexivity | discriminate H].
    - exfalso. revert H. unfold trap_getc.
      apply never_bind; [exact HU | apply never_getchar; discriminate |].
      intros c. apply never_modify. exact HU. }
  destruct (Z.eqb_spec (Z.land instr 255) TRAP_OUT) as [-> | _].
  { split; intros H; exfalso; revert H; unfold trap_out, putc, fflush;
      never_steps. }
  destruct (Z.eqb_spec (Z.land instr 255) TRAP_PUTS) as [-> | _].
  { split; intros H; [exfalso | left; reflexivity].
    revert H. unfold trap_puts, fflush.
    apply never_bind; [exact HR | apply never_gets; exact HR |]. intros r0.
    apply never_bind; [exact HR | | intros _; apply never_ret; exact HR].
    apply never_puts_loop; assumption. }
  destruct (Z.eqb_spec (Z.land instr 255) TRAP_IN) as [-> | _].
  { split; intros H.
    - split; [right; reflexivity|].
      unfold trap_in, bind, printf, modify, getchar in H.
      cbn [stdin write_bytes] in H.
      destruct (stdin m1); [reflexivity | discriminate H].
    - exfalso. revert H. unfold trap_in, printf, putc, fflush.
      apply never_bind; [exact HU | apply never_modify; exact HU |].
      intros _.
      apply never_bind; [exact HU | apply never_getchar; discriminate |].
      intros c. never_steps. }
  destruct (Z.eqb_spec (Z.land instr 255) TRAP_PUTSP) as [-> | _].
  { split; intros H; [exfalso | right; reflexivity].
    revert H. unfold trap_putsp, fflush.
    apply never_bind; [exact HR | apply never_gets; exact HR |]. intros r0.
    apply never_bind; [exact HR | | intros _; apply never_ret; exact HR].
    apply never_putsp_loop; assumption. }
  destruct (Z.eqb_spec (Z.land instr 255) TRAP_HALT) as [-> | _].
  { split; intros H; exfalso; revert H; unfold trap_halt, fflush;
      never_steps. }
  split; intros H; discriminate H.
Qed.

Lemma dispatch_stuck_is_trap (instr : Z) (m : machine) :
  kind_of (dispatch instr m) = KBlocked \/
  kind_of (dispatch instr m) = KUndefined ->
  Z.shiftr instr 12 = OP_TRAP /\ dispatch instr m = op_trap instr m.
Proof.
  destruct (never_loads KBlocked instr ltac:(discriminate))
    as (B1 & B2 & B3 & B4).
  destruct (never_loads KUndefined instr ltac:(discriminate))
    as (U1 & U2 & U3 & U4).
  split_opcode; intros [H | H];
    try (cbn in H; discriminate H);
    try (exfalso; first [ apply (B1 m H) | apply (B2 m H) | apply (B3 m H)
                        | apply (B4 m H) | apply (U1 m H) | apply (U2 m H)
                        | apply (U3 m H) | apply (U4 m H) ]);
    split; (assumption || reflexivity).
Qed.

(** X17: the ways one loop iteration can end.  It never exits the process
    and never leaves the loop by itself; on well-formed memory it aborts
    exactly when the fetched opcode is RTI or RES, so the [default] arm of
    the switch is dead; it can wait only in GETC or IN with no input
    ready; it can leave defined behaviour only in PUTS or PUTSP. *)
Theorem step_outcomes (m m1 : machine) (instr : Z) :
  well_formed m ->
  mem_read (reg m R_PC) m = Ret instr m1 ->
  kind_of (step m) <> KExited /\
  kind_of (step m) <> KUnfinished /\
  (kind_of (step m) = KAborted <->
   Z.shiftr instr 12 = OP_RTI \/ Z.shiftr instr 12 = OP_RES) /\
  (kind_of (step m) = KBlocked ->
   Z.shiftr instr 12 = OP_TRAP /\
   (Z.land instr 0xFF = TRAP_GETC \/ Z.land instr 0xFF = TRAP_IN) /\
   stdin m = []) /\
  (kind_of (step m) = KUndefined ->
   Z.shiftr instr 12 = OP_TRAP /\
   (Z.land instr 0xFF = TRAP_PUTS \/ Z.land instr 0xFF = TRAP_PUTSP)).
Proof.
  intros Hwf Hfetch.
  pose proof (fetched_word_range m m1 instr Hwf Hfetch) as Hrange.
  rewrite (step_fetch m m1 instr Hfetch).
  set (m2 := store_reg R_PC (reg m1 R_PC + 1) m1).
  destruct (dispatch_never_leaves instr) as [HE HU].
  split; [apply HE|]. split; [apply HU|].
  split; [apply dispatch_abort_iff; exact Hrange|].
  split.
  - intros H.
    destruct (dispatch_stuck_is_trap instr m2 (or_introl H)) as [Hop Heq].
    split; [exact Hop|]. rewrite Heq in H.
    destruct (fetched_trap_is_plain m m1 instr Hfetch (or_introl Hop))
      as [Hm _].
    destruct (trap_blocks_or_overruns instr m2) as [Hb _].
    destruct (Hb H) as [Hvec Hin]. split; [exact Hvec|].
    subst m1. exact Hin.
  - intros H.
    destruct (dispatch_stuck_is_trap instr m2 (or_intror H)) as [Hop Heq].
    split; [exact Hop|]. rewrite Heq in H.
    destruct (trap_blocks_or_overruns instr m2) as [_ Hu]. apply Hu, H.
Qed.

Lemma step_outcomes_witness :
  (kind_of (step (at_start 0xF020 [])) <> KExited /\
   kind_of (step (at_start 0xF020 [])) <> KUnfinished) /\
  (Z.shiftr 0xF020 12 = OP_TRAP /\
   (Z.land 0xF020 0xFF = TRAP_GETC \/ Z.land 0xF020 0xFF = TRAP_IN) /\
   stdin (at_start 0xF020 []) = []) /\
  kind_of (step (at_start 0x8000 [])) = KAborted.
Proof.
  assert (Hwf : forall i, well_formed (at_start i [])).
  { intros i. unfold at_start.
    apply well_formed_store_mem, well_formed_store_reg, well_formed_store_reg.
    apply well_formed_boot. }
  destruct (step_outcomes (at_start 0xF020 []) (at_start 0xF020 []) 0xF020
              (Hwf 0xF020) eq_refl) as (H1 & H2 & _ & H4 & _).
  destruct (step_outcomes (at_start 0x8000 []) (at_start 0x8000 []) 0x8000
              (Hwf 0x8000) eq_refl) as (_ & _ & H3 & _).
  split; [split; assumption|]. split.
  - apply H4. reflexivity.
  - apply H3. left. reflexivity.
Defined.

(** ** Leaving the program *)

Lemma well_formed_store_items (items : list Z) (p : Z) (m : machine) :
  well_formed m -> well_formed (store_items p items m).
Proof.
  revert p m. induction items as [| w items IH]; intros p m H; [exact H|].
  cbn [store_items]. apply IH, well_formed_store_mem, H.
Qed.

Lemma well_formed_swap_loop (read : nat) (p : Z) (m : machine) :
  well_formed m -> well_formed (swap_loop read p m).
Proof.
  revert p m. induction read as [| n IH]; intros p m H; [exact H|].
  cbn [swap_loop]. apply IH, well_formed_store_mem, H.
Qed.

Lemma steady_store_items (items : list Z) (p : Z) :
  steady (store_items p items).
Proof.
  intros m. destruct (store_items_frame items p m)
    as (_ & _ & Ho & _ & _ & _ & _ & Hs & Ht).
  apply respects_cells; auto. apply well_formed_store_items.
Qed.

Lemma steady_swap_loop (read : nat) (p : Z) : steady (swap_loop read p).
Proof.
  intros m. destruct (swap_loop_frame read p m)
    as (_ & _ & Ho & _ & _ & _ & _ & Hs & Ht).
  apply respects_cells; auto. apply well_formed_swap_loop.
Qed.

Lemma steady_store_odd (p : Z) (odd : option Z) : steady (store_odd p odd).
Proof.
  intros m. destruct (store_odd_frame p odd m)
    as (_ & _ & Ho & _ & _ & _ & _ & Hs & Ht).
  apply respects_cells; auto.
  destruct odd; [apply well_formed_store_mem | auto].
Qed.

Lemma preserves_read_image_file (file : list Z) :
  preserves (read_image_file file).
Proof.
  unfold read_image_file. destruct (fread16 1 file).
  - apply preserves_ret.
  - apply preserves_bind; [|intros _].
    + apply preserves_modify, steady_store_items.
    + apply preserves_bind; [|intros _].
      * apply preserves_modify, steady_store_odd.
      * apply preserves_modify, steady_swap_loop.
Qed.

Lemma never_read_image_file (k : kind) (file : list Z) :
  k <> KRet -> k <> KUndefined -> never k (read_image_file file).
Proof.
  intros H1 H2. unfold read_image_file. destruct (fread16 1 file).
  - apply never_ret. exact H1.
  - never_steps.
Qed.

Lemma preserves_load_images (images : list (string * option (list Z))) :
  preserves (load_images images).
Proof.
  induction images as [| [path file] images IH]; cbn [load_images].
  - apply preserves_ret.
  - apply preserves_bind.
    + unfold read_image. destruct file; [|apply preserves_ret].
      apply preserves_bind; [apply preserves_read_image_file|].
      intros _. apply preserves_ret.
    + intros ok. apply preserves_bind; [|intros _; exact IH].
      destruct (ok =? 0); [|apply preserves_ret].
      apply preserves_bind; [|intros _; apply preserves_exit].
      apply preserves_modify, steady_write_bytes.
Qed.

Lemma never_load_images
    (k : kind) (images : list (string * option (list Z))) :
  k <> KRet -> k <> KUndefined -> k <> KExited ->
  never k (load_images images).
Proof.
  intros H1 H2 H3.
  induction images as [| [path file] images IH]; cbn [load_images].
  - apply never_ret. exact H1.
  - apply never_bind; [exact H1 | |].
    + unfold read_image. destruct file; [|apply never_ret; exact H1].
      apply never_bind; [exact H1 | |intros _; apply never_ret; exact H1].
      apply never_read_image_file; assumption.
    + intros ok. apply never_bind; [exact H1 | | intros _; exact IH].
      destruct (ok =? 0); never_steps.
Qed.

Lemma load_images_exit_code
    (images : list (string * option (list Z))) (m m' : machine) (c : Z) :
  load_images images m = Exited c m' -> c = 1.
Proof.
  revert m. induction images as [| [path file] images IH]; intros m H.
  - discriminate H.
  - cbn [load_images] in H. unfold bind at 1 in H.
    destruct file as [f |].
    + unfold read_image, bind in H.
      pose proof (never_read_image_file KExited f
                    ltac:(discriminate) ltac:(discriminate) m) as Hn.
      destruct (read_image_file f m) as [u m1 | | | | |];
        try discriminate H; try (exfalso; apply Hn; reflexivity).
      cbn in H. apply (IH m1 H).
    + cbn in H. injection H as <- _. reflexivity.
Qed.

Lemma never_run_exits (feed : list (list Z)) : never KExited (run feed).
Proof.
  induction feed as [| bs feed IH]; intros m.
  - rewrite run_nil. destruct (negb (running m =? 0)); discriminate.
  - rewrite run_cons. destruct (negb (running m =? 0)); [|discriminate].
    assert (Hs : kind_of (step (arrive bs m)) <> KExited).
    { unfold step.
      apply never_bind; [discriminate | apply never_gets; discriminate |].
      intros pc.
      apply never_bind; [discriminate | apply never_mem_read; discriminate |].
      intros instruction.
      apply never_bind; [discriminate | apply never_modify; discriminate |].
      intros _. apply dispatch_never_leaves. }
    destruct (step (arrive bs m)) as [u m' | m' | c m' | m' | m' | m'];
      try discriminate; [apply IH | exact Hs].
Qed.

Lemma run_returns_stopped (feed : list (list Z)) (m m' : machine) :
  run feed m = Ret tt m' -> running m' = 0.
Proof.
  revert m. induction feed as [| bs feed IH]; intros m H.
  - rewrite run_nil in H.
    destruct (Z.eqb_spec (running m) 0) as [E | E]; cbn in H;
      [injection H as <-; exact E | discriminate H].
  - rewrite run_cons in H.
    destruct (Z.eqb_spec (running m) 0) as [E | E]; cbn [negb] in H;
      [injection H as <-; exact E|].
    destruct (step (arrive bs m)) as [u m1 | | | | |]; try discriminate H.
    apply (IH m1 H).
Qed.

Lemma main_no_images (feed : list (list Z)) (m : machine) :
  main [] feed m =
  Exited 2 (write_bytes (bytes_of_string "lc3 [image-file-1] ..." ++ newline) m).
Proof. reflexivity. Qed.

Lemma main_with_images
    (images : list (string * option (list Z)))
    (feed : list (list Z)) (m : machine) :
  images <> [] ->
  main images feed m =
  (load_images images ;;
   disable_input_buffering ;;
   modify (store_reg R_COND FL_ZRO) ;;
   modify (store_reg R_PC PC_START) ;;
   run feed ;;
   restore_input_buffering ;;
   exit 0) m.
Proof.
  intros Hne. destruct images as [| i images]; [contradiction|].
  unfold main. unfold bind at 1.
  destruct (Z.ltb_spec (1 + Z.of_nat (List.length (i :: images))) 2) as [H | H].
  - cbn [List.length] in H. lia.
  - reflexivity.
Qed.

Lemma startup_then {A} (k : M A) (m : machine) :
  (disable_input_buffering ;;
   modify (store_reg R_COND FL_ZRO) ;;
   modify (store_reg R_PC PC_START) ;;
   k) m
  = k (store_reg R_PC PC_START
         (store_reg R_COND FL_ZRO
            (set_tty raw (set_orig_tio (tty m) m)))).
Proof.
  unfold disable_input_buffering, bind, modify, gets.
  cbn [orig_tio set_orig_tio]. rewrite !andb_false_r. reflexivity.
Qed.



(** ** Input taken by one instruction *)

Lemma takes_none (m m' : machine) :
  stdin m' = stdin m -> takes_at_most 0 m m'.
Proof. intros H. exists []. rewrite H. split; [reflexivity | apply Nat.le_refl]. Qed.

Lemma takes_weaken (n n' : nat) (m m' : machine) :
  (n <= n')%nat -> takes_at_most n m m' -> takes_at_most n' m m'.
Proof. intros Hn (used & E & L). exists used. split; [exact E | lia]. Qed.

Lemma takes_trans (n1 n2 : nat) (m1 m2 m3 : machine) :
  takes_at_most n1 m1 m2 -> takes_at_most n2 m2 m3 ->
  takes_at_most (n1 + n2) m1 m3.
Proof.
  intros (u1 & E1 & L1) (u2 & E2 & L2). exists (u1 ++ u2).
  rewrite E1, E2, app_assoc, length_app. split; [reflexivity | lia].
Qed.

Lemma silent_ret {A} (a : A) : silent (ret a).
Proof. intros m. reflexivity. Qed.

Lemma silent_gets {A} (g : machine -> A) : silent (gets g).
Proof. intros m. reflexivity. Qed.

Lemma silent_modify (f : machine -> machine) : hostless f -> silent (modify f).
Proof.
  intros H m. unfold modify. cbn [state_of].
  rewrite <- (rehost_self m) at 1. rewrite H. reflexivity.
Qed.

Lemma silent_abort {A} : silent (@abort A).
Proof. intros m. reflexivity. Qed.

Lemma silent_undefined {A} : silent (@undefined A).
Proof. intros m. reflexivity. Qed.

Lemma silent_bind {A B} (x : M A) (f : A -> M B) :
  silent x -> (forall a, silent (f a)) -> silent (bind x f).
Proof.
  intros Hx Hf m. specialize (Hx m). unfold bind.
  destruct (x m) as [a m' | m' | c m' | m' | m' | m']; try exact Hx.
  rewrite Hf. exact Hx.
Qed.

Lemma silent_putc (c : Z) : silent (putc c).
Proof. unfold putc. apply silent_modify, hostless_write_bytes. Qed.

Lemma silent_puts_loop (cells : nat) (c : Z) : silent (puts_loop cells c).
Proof.
  revert c. induction cells as [| n IH]; intros c; cbn [puts_loop].
  - apply silent_undefined.
  - apply silent_bind; [apply silent_gets|]. intros w.
    destruct (negb (w =? 0)); [|apply silent_ret].
    apply silent_bind; [apply silent_putc|]. intros _. apply IH.
Qed.

Lemma silent_putsp_loop (cells : nat) (c : Z) : silent (putsp_loop cells c).
Proof.
  revert c. induction cells as [| n IH]; intros c; cbn [putsp_loop].
  - apply silent_undefined.
  - apply silent_bind; [apply silent_gets|]. intros w.
    destruct (negb (w =? 0)); [|apply silent_ret].
    apply silent_bind; [apply silent_putc|]. intros _.
    apply silent_bind; [|intros _; apply IH].
    destruct (negb (to_char (Z.shiftr w 8) =? 0));
      [apply silent_putc | apply silent_ret].
Qed.

Lemma getchar_takes (m : machine) :
  takes_at_most 1 m (state_of (getchar m)).
Proof.
  unfold getchar. destruct (stdin m) as [| c q] eqn:E; cbn [state_of].
  - apply (takes_weaken 0); [lia|]. apply takes_none. cbn. symmetry. exact E.
  - exists [c]. cbn. split; [exact E | lia].
Qed.

(** A read takes one value when it finds the keyboard ready and none
    otherwise; a read of KBSR returns 0x8000 or 0, never 0xFE00. *)
Lemma mem_read_takes (a : Z) (m : machine) :
  exists v m',
    mem_read a m = Ret v m' /\ reg m' = reg m /\
    takes_at_most 1 m m' /\
    (a <> MR_KBSR -> stdin m' = stdin m) /\
    (a = MR_KBSR -> v <> MR_KBSR /\ Z.shiftr v 12 <> OP_TRAP /\
                    (Z.shiftr v 12 = OP_RTI \/ v = 0)).
Proof.
  destruct (Z.eq_dec a MR_KBSR) as [-> | Ha].
  - destruct (readable m) eqn:Hr.
    + destruct (readable_cons m Hr) as (c & q & Hq).
      rewrite (mem_read_kbsr_ready m c q Hq Hr). do 2 eexists.
      split; [reflexivity|]. split; [reflexivity|]. split.
      * exists [c]. cbn. split; [exact Hq | lia].
      * split; [contradiction|]. intros _.
        split; [discriminate|]. split; [discriminate | left; reflexivity].
    + rewrite (mem_read_kbsr_idle m Hr). do 2 eexists.
      split; [reflexivity|]. split; [reflexivity|]. split.
      * apply (takes_weaken 0); [lia|]. apply takes_none. reflexivity.
      * split; [contradiction|]. intros _.
        split; [discriminate|]. split; [discriminate | right; reflexivity].
  - rewrite (mem_read_plain a m Ha). do 2 eexists.
    split; [reflexivity|]. split; [reflexivity|]. split.
    + apply (takes_weaken 0); [lia|]. apply takes_none. reflexivity.
    + split; [reflexivity | contradiction].
Qed.

Lemma then_silent_takes {A} (n : nat) (m m1 : machine) (k : M A) :
  takes_at_most n m m1 -> silent k -> takes_at_most n m (state_of (k m1)).
Proof.
  intros (used & E & L) Hk. exists used. rewrite (Hk m1). auto.
Qed.

Lemma op_ld_takes (instr : Z) (m : machine) :
  takes_at_most 1 m (state_of (op_ld instr m)).
Proof.
  unfold op_ld. unfold bind at 1. unfold gets at 1. unfold bind at 1.
  destruct (mem_read_takes
              (to_u16 (reg m R_PC + sign_extend (Z.land instr 0x1FF) 9)) m)
    as (v & m1 & E & _ & T & _).
  rewrite E. apply (then_silent_takes 1 m m1); [exact T|].
  apply silent_bind; [|intros _];
    apply silent_modify;
    [apply hostless_store_reg | apply hostless_update_condition_flags].
Qed.

Lemma op_ldr_takes (instr : Z) (m : machine) :
  takes_at_most 1 m (state_of (op_ldr instr m)).
Proof.
  unfold op_ldr. unfold bind at 1. unfold gets at 1. unfold bind at 1.
  destruct (mem_read_takes
              (to_u16 (reg m (Z.land (Z.shiftr instr 6) 0x7)
                       + sign_extend (Z.land instr 0x3F) 6)) m)
    as (v & m1 & E & _ & T & _).
  rewrite E. apply (then_silent_takes 1 m m1); [exact T|].
  apply silent_bind; [|intros _];
    apply silent_modify;
    [apply hostless_store_reg | apply hostless_update_condition_flags].
Qed.

Lemma hostless_indirect_store (a sr : Z) :
  hostless (fun m => mem_write a (reg m sr) m).
Proof. hostless_by_cases. Qed.

Lemma op_sti_takes (instr : Z) (m : machine) :
  takes_at_most 1 m (state_of (op_sti instr m)).
Proof.
  unfold op_sti. unfold bind at 1. unfold gets at 1. unfold bind at 1.
  destruct (mem_read_takes
              (to_u16 (reg m R_PC + sign_extend (Z.land instr 0x1FF) 9)) m)
    as (v & m1 & E & _ & T & _).
  rewrite E. apply (then_silent_takes 1 m m1); [exact T|].
  apply silent_modify, hostless_indirect_store.
Qed.

(** Of the two reads of LDI at most one can be a read of KBSR. *)
Lemma op_ldi_takes (instr : Z) (m : machine) :
  takes_at_most 1 m (state_of (op_ldi instr m)).
Proof.
  unfold op_ldi. unfold bind at 1. unfold gets at 1. unfold bind at 1.
  set (p := to_u16 (reg m R_PC + sign_extend (Z.land instr 0x1FF) 9)).
  destruct (mem_read_takes p m) as (a & m1 & E1 & _ & T1 & Hplain1 & Hkb1).
  rewrite E1. unfold bind at 1.
  destruct (mem_read_takes a m1) as (v & m2 & E2 & _ & T2 & Hplain2 & _).
  rewrite E2.
  assert (T : takes_at_most 1 m m2).
  { destruct (Z.eq_dec p MR_KBSR) as [Hp | Hp].
    - destruct (Hkb1 Hp) as [Ha _].
      destruct T1 as (used & E & L). exists used.
      rewrite (Hplain2 Ha). auto.
    - destruct T2 as (used & E & L). exists used.
      rewrite <- (Hplain1 Hp). auto. }
  apply (then_silent_takes 1 m m2); [exact T|].
  apply silent_bind; [|intros _];
    apply silent_modify;
    [apply hostless_store_reg | apply hostless_update_condition_flags].
Qed.

Lemma op_trap_takes (instr : Z) (m : machine) :
  takes_at_most 1 m (state_of (op_trap instr m)).
Proof.
  rewrite op_trap_linked. cbv zeta.
  set (m1 := store_reg R_R7 (reg m R_PC) m).
  assert (Hin : stdin m = stdin m1) by reflexivity.
  assert (Hgoal : forall r : result unit,
            takes_at_most 1 m1 (state_of r) -> takes_at_most 1 m (state_of r)).
  { intros r (used & E & L). exists used. rewrite Hin. auto. }
  apply Hgoal. clearbody m1. clear Hin Hgoal.
  assert (Hsilent : forall k : M unit,
            silent k -> takes_at_most 1 m1 (state_of (k m1))).
  { intros k Hk. apply (takes_weaken 0); [lia|]. apply takes_none, Hk. }
  repeat match goal with
         | |- context [if ?b then _ else _] => destruct b
         end.
  - unfold trap_getc, bind. pose proof (getchar_takes m1) as T.
    destruct (getchar m1) as [c m2 | | | | |]; exact T.
  - apply Hsilent. unfold trap_out, fflush.
    apply silent_bind; [apply silent_gets|]. intros r0.
    apply silent_bind; [apply silent_putc | intros _; apply silent_ret].
  - apply Hsilent. unfold trap_puts, fflush.
    apply silent_bind; [apply silent_gets|]. intros r0.
    apply silent_bind; [apply silent_puts_loop | intros _; apply silent_ret].
  - unfold trap_in. unfold bind at 1. unfold printf, modify at 1.
    set (m2 := write_bytes (bytes_of_string "Enter a character: ") m1).
    assert (Hin : stdin m1 = stdin m2) by reflexivity.
    assert (Hgoal : forall r : result unit,
              takes_at_most 1 m2 (state_of r) ->
              takes_at_most 1 m1 (state_of r)).
    { intros r (used & E & L). exists used. rewrite Hin. auto. }
    apply Hgoal. clearbody m2. clear Hin Hgoal.
    unfold bind at 1. pose proof (getchar_takes m2) as T.
    destruct (getchar m2) as [c m3 | | | | |]; exact T.
  - apply Hsilent. unfold trap_putsp, fflush.
    apply silent_bind; [apply silent_gets|]. intros r0.
    apply silent_bind; [apply silent_putsp_loop | intros _; apply silent_ret].
  - apply Hsilent. unfold trap_halt, fflush.
    apply silent_bind; [apply silent_modify, hostless_write_bytes | intros _].
    apply silent_bind; [apply silent_ret | intros _].
    apply silent_modify, hostless_set_running.
  - apply Hsilent, silent_ret.
Qed.

Lemma modify_takes_none (f : machine -> machine) (m : machine) :
  hostless f -> takes_at_most 1 m (state_of (modify f m)).
Proof.
  intros H. apply (takes_weaken 0); [lia|].
  apply takes_none. apply (silent_modify f H m).
Qed.

Lemma dispatch_takes (instr : Z) (m : machine) :
  takes_at_most 1 m (state_of (dispatch instr m)).
Proof.
  split_opcode;
    first [ apply op_ld_takes | apply op_ldi_takes | apply op_ldr_takes
          | apply op_sti_takes | apply op_trap_takes
          | apply modify_takes_none; auto with quiet_db
          | apply (takes_weaken 0); [lia | apply takes_none; reflexivity] ].
Qed.

Lemma dispatch_of_polled_word (instr : Z) (m : machine) :
  Z.shiftr instr 12 = OP_RTI \/ instr = 0 ->
  stdin (state_of (dispatch instr m)) = stdin m.
Proof.
  intros [H | ->].
  - unfold dispatch. rewrite H. reflexivity.
  - reflexivity.
Qed.

(** X19: one loop iteration takes at most one value from the input, from
    the front of the queue, and never reorders or drops what is left: the
    fetch, the operand reads and the trap of one instruction can between
    them poll the keyboard successfully only once. *)
Theorem step_takes_one_input (m : machine) :
  exists used,
    stdin m = used ++ stdin (state_of (step m)) /\
    (List.length used <= 1)%nat.
Proof.
  change (takes_at_most 1 m (state_of (step m))).
  destruct (mem_read_takes (reg m R_PC) m)
    as (instr & m1 & E & _ & T & Hplain & Hkb).
  rewrite (step_fetch m m1 instr E).
  set (m2 := store_reg R_PC (reg m1 R_PC + 1) m1).
  assert (H12 : stdin m2 = stdin m1) by reflexivity.
  destruct (Z.eq_dec (reg m R_PC) MR_KBSR) as [Hpc | Hpc].
  - destruct (Hkb Hpc) as (_ & _ & Hword).
    destruct T as (used & Eu & L). exists used.
    rewrite (dispatch_of_polled_word instr m2 Hword), H12. auto.
  - destruct (dispatch_takes instr m2) as (used & Eu & L). exists used.
    rewrite <- (Hplain Hpc), <- H12. auto.
Qed.

(** LDI through a pointer to KBSR takes exactly the pending value. *)
Example ldi_takes_one :
  stdin (state_of
           (step (store_mem 0x3001 MR_KBSR (at_start 0xA000 [65; 66; 67]))))
    = [66; 67].
Proof. vm_compute. reflexivity. Qed.

(** ** AND *)

Lemma land_u16 (a b : Z) : 0 <= a < 65536 -> to_u16 (Z.land a b) = Z.land a b.
Proof.
  intros Ha. apply Z.bits_inj'. intros i Hi.
  rewrite to_u16_bits, Z.land_spec.
  destruct (Z.ltb_spec i 16); [reflexivity|].
  rewrite (u16_high_bits a i Ha) by lia. reflexivity.
Qed.

(** X20: on 16-bit registers AND writes to DR the bitwise and of SR1 with
    SR2 or with the sign-extended immediate; so an immediate of 0 clears
    DR and sets ZRO, and an immediate of -1 (field 0x1F) copies SR1. *)
Theorem op_and_result (instr : Z) (m : machine) :
  well_formed m ->
  let dr := Z.land (Z.shiftr instr 9) 0x7 in
  let sr1 := Z.land (Z.shiftr instr 6) 0x7 in
  let sr2 := Z.land instr 0x7 in
  (Z.land (Z.shiftr instr 5) 0x1 = 0 ->
   reg (op_and instr m) dr = Z.land (reg m sr1) (reg m sr2)) /\
  (Z.land (Z.shiftr instr 5) 0x1 <> 0 ->
   reg (op_and instr m) dr
     = Z.land (reg m sr1) (sign_extend (Z.land instr 0x1F) 5) /\
   (Z.land instr 0x1F = 0 ->
    reg (op_and instr m) dr = 0 /\ reg (op_and instr m) R_COND = FL_ZRO) /\
   (Z.land instr 0x1F = 0x1F -> reg (op_and instr m) dr = reg m sr1)).
Proof.
  intros [_ Hreg] dr sr1 sr2.
  pose proof (land7_range (Z.shiftr instr 9)) as Hdr. fold dr in Hdr.
  split; intros Hmode; unfold op_and; fold dr sr1 sr2.
  - rewrite Hmode. cbn [Z.eqb negb].
    destruct (flags_after_write dr (Z.land (reg m sr1) (reg m sr2)) m Hdr)
      as [-> _].
    apply land_u16, Hreg.
  - destruct (Z.eqb_spec (Z.land (Z.shiftr instr 5) 1) 0) as [E | _];
      [contradiction|]. cbn [negb].
    destruct (flags_after_write dr
                (Z.land (reg m sr1) (sign_extend (Z.land instr 0x1F) 5)) m Hdr)
      as [Hd Hc].
    rewrite Hc, Hd, land_u16 by apply Hreg.
    split; [reflexivity|]. split.
    + intros ->. change (sign_extend 0 5) with 0.
      rewrite Z.land_0_r. split; reflexivity.
    + intros ->. change (sign_extend 0x1F 5) with (Z.ones 16).
      rewrite Z.land_ones by lia. apply Z.mod_small. apply Hreg.
Qed.

(** R0 holds 0x8234, R1 holds 0x4000 and R2 holds 0x0007, with COND =
    POS: [AND R0, R0, R2] leaves 0x0004 in R0; [AND R0, R0, #0] clears R0
    and sets ZRO; [AND R2, R0, #-1] copies 0x8234 into R2. *)
Lemma op_and_result_witness :
  reg busy_registers R_R0 = 0x8234 /\ reg busy_registers R_R2 = 0x0007 /\
  reg busy_registers R_COND = FL_POS /\
  reg (op_and 0x5002 busy_registers) R_R0 = 0x0004 /\
  (reg (op_and 0x5020 busy_registers) R_R0 = 0 /\
   reg (op_and 0x5020 busy_registers) R_COND = FL_ZRO) /\
  reg (op_and 0x543F busy_registers) R_R2 = 0x8234.
Proof.
  assert (Hwf : well_formed busy_registers).
  { unfold busy_registers.
    repeat apply well_formed_store_reg. apply well_formed_boot. }
  split; [reflexivity|]. split; [reflexivity|]. split; [reflexivity|].
  split; [|split].
  - apply (proj1 (op_and_result 0x5002 busy_registers Hwf)).
    reflexivity.
  - apply (proj1 (proj2 (proj2 (op_and_result 0x5020 busy_registers Hwf)
                          ltac:(discriminate)))).
    reflexivity.
  - apply (proj2 (proj2 (proj2 (op_and_result 0x543F busy_registers Hwf)
                          ltac:(discriminate)))).
    reflexivity.
Defined.

(** ** Several images *)

Lemma load_images_app
    (pre post : list (string * option (list Z))) (m m1 : machine) :
  load_images pre m = Ret tt m1 ->
  load_images (pre ++ post) m = load_images post m1.
Proof.
  revert m. induction pre as [| [path file] pre IH]; intros m H.
  - cbn in H. injection H as <-. reflexivity.
  - cbn [app load_images] in *. unfold bind at 1 in H. unfold bind at 1.
    destruct (read_image file m) as [ok m2 | | | | |]; try discriminate H.
    unfold bind at 1 in H. unfold bind at 1.
    destruct (ok =? 0); [discriminate H|].
    cbn [ret] in *. apply IH. exact H.
Qed.

Lemma read_image_file_returns (file : list Z) (m : machine) :
  exists m', read_image_file file m = Ret tt m'.
Proof.
  unfold read_image_file. destruct (fread16 1 file).
  - exists m. reflexivity.
  - eexists. reflexivity.
Qed.

(** Files that all open are all loaded. *)
Lemma load_images_returns
    (images : list (string * option (list Z))) (m : machine) :
  Forall (fun image => snd image <> None) images ->
  exists m', load_images images m = Ret tt m'.
Proof.
  revert m. induction images as [| [path file] images IH]; intros m H.
  - exists m. reflexivity.
  - inversion H as [| ? ? Hopen Hrest]; subst. cbn [snd] in Hopen.
    destruct file as [f |]; [|contradiction].
    destruct (read_image_file_returns f m) as (m1 & E1).
    destruct (IH m1 Hrest) as (m' & E').
    exists m'. cbn [load_images]. unfold read_image, bind.
    rewrite E1. cbn. exact E'.
Qed.

Lemma load_images_last
    (path : string) (file : list Z) (m m' : machine) :
  read_image_file file m = Ret tt m' ->
  load_images [(path, Some file)] m = Ret tt m'.
Proof.
  intros H. cbn [load_images]. unfold read_image, bind. rewrite H. reflexivity.
Qed.



(** A later image overwrites an earlier one where they overlap. *)
Example later_image_wins :
  memory (state_of (load_images
                      [("a.obj"%string, Some (image_of_words [0x3000; 0x1111; 0x2222]));
                       ("b.obj"%string, Some (image_of_words [0x3001; 0x3333]))]
                      (boot [] cooked))) 0x3001 = 0x3333.
Proof. vm_compute. reflexivity. Qed.

(** ** Program counter *)

Lemma write_dr_keeps_pc (dr v : Z) (m : machine) :
  0 <= dr <= 7 ->
  reg (update_condition_flags dr (store_reg dr v m)) R_PC = reg m R_PC.
Proof.
  intros Hdr.
  destruct (update_condition_flags_spec dr (store_reg dr v m))
    as (_ & Hk & _).
  - unfold R_COND. lia.
  - unfold store_reg. cbn [reg]. rewrite upd_same. apply to_u16_range.
  - rewrite Hk by discriminate. unfold store_reg. cbn [reg].
    apply upd_other. unfold R_PC. lia.
Qed.

Lemma load_keeps_pc (dr a : Z) (m : machine) :
  0 <= dr <= 7 ->
  exists m',
    (v <- mem_read a ;;
     modify (store_reg dr v) ;;
     modify (update_condition_flags dr)) m = Ret tt m' /\
    reg m' R_PC = reg m R_PC.
Proof.
  intros Hdr. unfold bind, modify.
  destruct (mem_read_returns a m) as (v & m1 & E & Hreg & _).
  rewrite E. eexists. split; [reflexivity|].
  rewrite write_dr_keeps_pc by exact Hdr. rewrite Hreg. reflexivity.
Qed.

(** X22: the instructions that are not control transfers leave PC at the
    fetch address plus one, modulo 2^16 (so 0xFFFF is followed by 0): the
    3-bit register fields of ADD, AND, NOT, LD, LDI, LDR, LEA can name
    only R0..R7, never PC, and ST, STI, STR write no register at all. *)
Theorem pc_advances_by_one (m m1 : machine) (instr : Z) :
  mem_read (reg m R_PC) m = Ret instr m1 ->
  sets_flags (Z.shiftr instr 12) = true \/
  Z.shiftr instr 12 = OP_ST \/ Z.shiftr instr 12 = OP_STI \/
  Z.shiftr instr 12 = OP_STR ->
  exists m',
    step m = Ret tt m' /\ reg m' R_PC = (reg m R_PC + 1) mod 65536.
Proof.
  intros Hfetch Hop. rewrite (step_fetch m m1 instr Hfetch).
  assert (Hreg : reg m1 = reg m).
  { destruct (mem_read_returns (reg m R_PC) m) as (v & m' & E & Hr & _).
    rewrite E in Hfetch. injection Hfetch as _ <-. exact Hr. }
  set (m2 := store_reg R_PC (reg m1 R_PC + 1) m1).
  assert (Hpc : reg m2 R_PC = (reg m R_PC + 1) mod 65536).
  { unfold m2, store_reg. cbn [reg]. rewrite upd_same, Hreg. reflexivity. }
  rewrite <- Hpc. clearbody m2. clear Hpc.
  pose proof (land7_range (Z.shiftr instr 9)) as Hdr.
  assert (Hcases :
            Z.shiftr instr 12 = OP_ADD \/ Z.shiftr instr 12 = OP_AND \/
            Z.shiftr instr 12 = OP_NOT \/ Z.shiftr instr 12 = OP_LD \/
            Z.shiftr instr 12 = OP_LDI \/ Z.shiftr instr 12 = OP_LDR \/
            Z.shiftr instr 12 = OP_LEA \/ Z.shiftr instr 12 = OP_ST \/
            Z.shiftr instr 12 = OP_STI \/ Z.shiftr instr 12 = OP_STR).
  { destruct Hop as [H | H]; [apply sets_flags_cases in H|]; tauto. }
  unfold dispatch.
  destruct Hcases as [H | [H | [H | [H | [H | [H | [H | [H | [H | H]]]]]]]]];
    rewrite H; cbn [Z.eqb OP_ADD OP_AND OP_NOT OP_BR OP_JMP OP_JSR OP_LD
                    OP_LDI OP_LDR OP_LEA OP_ST OP_STI OP_STR Pos.eqb].
  - eexists. split; [reflexivity|]. unfold op_add.
    destruct (negb (Z.land (Z.shiftr instr 5) 1 =? 0));
      apply write_dr_keeps_pc, Hdr.
  - eexists. split; [reflexivity|]. unfold op_and.
    destruct (negb (Z.land (Z.shiftr instr 5) 1 =? 0));
      apply write_dr_keeps_pc, Hdr.
  - eexists. split; [reflexivity|]. apply write_dr_keeps_pc, Hdr.
  - unfold op_ld. unfold bind at 1. unfold gets at 1.
    apply load_keeps_pc, Hdr.
  - unfold op_ldi. unfold bind at 1. unfold gets at 1. unfold bind at 1.
    destruct (mem_read_returns
                (to_u16 (reg m2 R_PC + sign_extend (Z.land instr 0x1FF) 9)) m2)
      as (a & m3 & E & Hr3 & _).
    rewrite E. rewrite <- Hr3. apply load_keeps_pc, Hdr.
  - unfold op_ldr. unfold bind at 1. unfold gets at 1.
    apply load_keeps_pc, Hdr.
  - eexists. split; [reflexivity|]. apply write_dr_keeps_pc, Hdr.
  - eexists. split; reflexivity.
  - unfold op_sti, bind, gets, modify.
    destruct (mem_read_returns
                (to_u16 (reg m2 R_PC + sign_extend (Z.land instr 0x1FF) 9)) m2)
      as (a & m3 & E & Hr3 & _).
    rewrite E. eexists. split; [reflexivity|].
    unfold mem_write, store_mem. cbn [reg]. rewrite Hr3. reflexivity.
  - eexists. split; reflexivity.
Qed.

Lemma pc_advances_by_one_witness :
  exists m',
    step (store_reg R_PC 0xFFFF (store_mem 0xFFFF 0x1021 (at_start 0 [])))
      = Ret tt m' /\
    reg m' R_PC
      = (reg (store_reg R_PC 0xFFFF (store_mem 0xFFFF 0x1021 (at_start 0 [])))
             R_PC + 1) mod 65536.
Proof.
  apply (pc_advances_by_one
           (store_reg R_PC 0xFFFF (store_mem 0xFFFF 0x1021 (at_start 0 [])))
           (store_reg R_PC 0xFFFF (store_mem 0xFFFF 0x1021 (at_start 0 [])))
           0x1021 eq_refl).
  left. reflexivity.
Defined.

(** The instruction at 0xFFFF is followed by the one at 0. *)
Example pc_wraps_to_zero :
  reg (state_of
         (step (store_reg R_PC 0xFFFF
                  (store_mem 0xFFFF 0x1021 (at_start 0 []))))) R_PC = 0.
Proof. vm_compute. reflexivity. Qed.
